(** * MachUpX wing segments: a shallow embedding of [machupX/wing_segment.py]

    The class [WingSegment] is embedded as a record of optional attributes
    (an attribute that has not been assigned yet is [None]; reading it
    raises [AttributeError]) together with the methods of the class, written
    as functions in an exception monad or, where they assign attributes, in
    a state-and-exception monad over the object.

    Python floats and NumPy float64 arrays are idealised as real numbers:
    arithmetic is exact, [np.pi] is [PI], [np.cos] is [cos].  Rounding is
    outside the model. *)

From Stdlib Require Import Reals Lra Lia List String ZArith Bool Arith.
Import ListNotations.

Set Warnings "-register-all".

Open Scope R_scope.

(** ** The Python run time *)

Module Py.

(** The exceptions the module raises, and those its NumPy calls raise. *)
Inductive exn : Type :=
| IOError (msg : string)
| RuntimeError (msg : string)
| ValueError (msg : string)
| KeyError (key : string)
| IndexError
| ZeroDivisionError
| AttributeError (attr : string).

Inductive result (A : Type) : Type :=
| Ok (a : A)
| Raise (e : exn).
Arguments Ok {A} a.
Arguments Raise {A} e.

Definition bind {A B} (r : result A) (k : A -> result B) : result B :=
  match r with
  | Ok a => k a
  | Raise e => Raise e
  end.

(** Reading an attribute that may not have been assigned. *)
Definition attr {A} (name : string) (o : option A) : result A :=
  match o with
  | Some a => Ok a
  | None => Raise (AttributeError name)
  end.

(** A [dict] with string keys, in insertion order. *)
Definition dict (V : Type) : Type := list (string * V).

Fixpoint get {V} (d : dict V) (k : string) : option V :=
  match d with
  | [] => None
  | (k', v) :: d' => if String.eqb k k' then Some v else get d' k
  end.

Definition get_default {V} (d : dict V) (k : string) (dflt : V) : V :=
  match get d k with
  | Some v => v
  | None => dflt
  end.

(** [d[k]]: a missing key raises [KeyError]. *)
Definition getitem {V} (d : dict V) (k : string) : result V :=
  match get d k with
  | Some v => Ok v
  | None => Raise (KeyError k)
  end.

(** [d[k] = v]: an existing key keeps its place, a new key goes last. *)
Fixpoint setitem {V} (d : dict V) (k : string) (v : V) : dict V :=
  match d with
  | [] => [(k, v)]
  | (k', v') :: d' =>
      if String.eqb k k' then (k, v) :: d' else (k', v') :: setitem d' k v
  end.

Definition keys {V} (d : dict V) : list string := map fst d.

(** [needle in hay] on strings. *)
Fixpoint contains (needle hay : string) : bool :=
  if String.prefix needle hay then true
  else match hay with
       | EmptyString => false
       | String _ hay' => contains needle hay'
       end.

(** A loop that collects one result per element; the first exception
    ends it. *)
Fixpoint mapM {A B} (f : A -> result B) (l : list A) : result (list B) :=
  match l with
  | [] => Ok []
  | x :: l' =>
      match f x with
      | Raise e => Raise e
      | Ok y =>
          match mapM f l' with
          | Raise e => Raise e
          | Ok ys => Ok (y :: ys)
          end
      end
  end.

(** An optional scalar entry of a [dict] with its default. *)
Definition opt_default {A} (o : option A) (dflt : A) : A :=
  match o with
  | Some a => a
  | None => dflt
  end.

End Py.

Import Py.

Declare Scope py_scope.
Delimit Scope py_scope with py.
Notation "x <- c1 ;; c2" := (Py.bind c1 (fun x => c2))
  (at level 61, c1 at next level, right associativity) : py_scope.

(** ** The NumPy functions the module calls *)

Module Np.

Record ndarray : Type := mk_ndarray { shape : list nat; data : list R }.

(** A 1-D array from its elements, and back. *)
Definition of_list (l : list R) : ndarray :=
  {| shape := [List.length l]; data := l |}.

Definition size_of (sh : list nat) : nat := fold_right Nat.mul 1%nat sh.

(** [np.full(shape, v)] *)
Definition full (sh : list nat) (v : R) : ndarray :=
  {| shape := sh; data := repeat v (size_of sh) |}.

(** An element-wise function keeps the shape. *)
Definition map_array (f : R -> R) (a : ndarray) : ndarray :=
  {| shape := shape a; data := map f (data a) |}.

(** [np.radians] *)
Definition radians (x : R) : R := x * (PI / 180).

(** [np.linspace(start, stop, num)], end point included.  As NumPy does:
    [arange(num) * step + start] with [step = (stop - start) / (num - 1)],
    the last entry then overwritten with [stop] when [num > 1]. *)
Definition linspace (start stop : R) (num : nat) : list R :=
  let div := (num - 1)%nat in
  let delta := stop - start in
  map (fun i : nat =>
         if ((1 <? num) && (i =? div))%nat then stop
         else if (0 <? div)%nat then INR i * (delta / INR div) + start
         else INR i * delta + start)
      (seq 0 num).

(** [np.interp(x, xp, fp)] at one point, for increasing [xp]: the table
    is given by its first row and the rows after it.  Left of the table
    the first value, right of it the last one. *)
Fixpoint interp_from (x x0 f0 : R) (rest : list (R * R)) : R :=
  match rest with
  | [] => f0
  | (x1, f1) :: rest' =>
      if Rlt_dec x x1 then (f1 - f0) / (x1 - x0) * (x - x0) + f0
      else interp_from x x1 f1 rest'
  end.

Definition interp (x : R) (row0 : R * R) (rows : list (R * R)) : R :=
  if Rle_dec x (fst row0) then snd row0
  else interp_from x (fst row0) (snd row0) rows.

(** [np.searchsorted(a, v)] (side left) for sorted [a]: the first index
    [k] with [v <= a[k]], or [len(a)]. *)
Fixpoint searchsorted (a : list R) (v : R) : nat :=
  match a with
  | [] => 0%nat
  | x :: a' => if Rle_dec v x then 0%nat else S (searchsorted a' v)
  end.

End Np.

Import Np.

(** A value that is either a Python float or an array. *)
Inductive pyval : Type :=
| PyFloat (x : R)
| PyArray (a : ndarray).

(** Points and rows of [(n, 3)] arrays. *)
Definition vec3 : Type := (R * R * R)%type.

Definition vadd (u v : vec3) : vec3 :=
  let '(u0, u1, u2) := u in
  let '(v0, v1, v2) := v in
  (u0 + v0, u1 + v1, u2 + v2).

Definition vscale (k : R) (v : vec3) : vec3 :=
  let '(v0, v1, v2) := v in (k * v0, k * v1, k * v2).

(** The result of a location query: one point for a float argument, the
    rows of an [(n, 3)] array otherwise. *)
Inductive pyloc : Type :=
| Point (p : vec3)
| Points (ps : list vec3).

(** ** Input data

    Modelled from the spec: [helpers.import_value] and the parsing of the
    input file are not part of this module.  The input dictionary reaches
    the class normalised: a scalar as a float, a distribution as an array of
    rows, [import_value] returning the entry or its default.  A key that
    may be missing is an [option]. *)

(** A quantity given along the span: a float, or an array of
    [(span, value)] rows (at least one row). *)
Inductive span_data : Type :=
| Constant (v : R)
| Table (row0 : R * R) (rows : list (R * R)).

(** The chord may also be the tuple of an elliptic distribution, whose
    second component is the root chord. *)
Inductive chord_data : Type :=
| ChordLinear (d : span_data)
| ChordElliptic (root_chord : R).

(** The airfoil entry: a name, an array of [(span, name)] rows, or a value
    of another type. *)
Inductive airfoil_data : Type :=
| AirfoilName (nm : string)
| AirfoilTable (rows : list (R * string))
| AirfoilOther.

Record connect_dict : Type := {
  connect_ID : option Z;
  connect_location : option string;
  connect_dx : option R;
  connect_dy : option R;
  connect_dz : option R;
  connect_y_offset : option R
}.

Record control_dict : Type := {
  ctl_root_span : option R;
  ctl_tip_span : option R;
  ctl_chord_fraction : option span_data;
  ctl_is_sealed : option bool;
  ctl_control_mixing : option (dict R)
}.

Record input_dict : Type := {
  in_ID : option Z;
  in_is_main : option bool;
  in_semispan : R;
  in_grid : option nat;
  in_use_clustering : option bool;
  in_connect_to : option connect_dict;
  in_twist : option span_data;
  in_dihedral : option span_data;
  in_sweep : option span_data;
  in_chord : option chord_data;
  in_ac_offset : option span_data;
  in_airfoil : option airfoil_data;
  in_control_surface : option control_dict
}.

(** An airfoil object, used through its coefficient methods only; each
    takes one row of five parameters. *)
Record Airfoil : Type := {
  get_CLa : list R -> R;
  get_aL0 : list R -> R;
  get_CLRe : list R -> R;
  get_CLM : list R -> R;
  get_CL : list R -> R;
  get_CD : list R -> R;
  get_Cm : list R -> R
}.

(** ** The object *)

(** The closure [_build_getter_linear_f_of_span] or
    [_build_elliptic_chord_dist] returns, with the data it captures
    ([self._getter_data[name]], [angular_data], [self._root_chord]). *)
Inductive getter : Type :=
| ConstantGetter (stored : R)
| TableGetter (angular_data : bool) (row0 : R * R) (rows : list (R * R))
| EllipticGetter (root_chord : R).

(** Attributes assigned by [_initialize_params]. *)
Record params_attrs : Type := {
  is_main : option bool;
  b : R;
  _N : nat;
  _use_clustering : bool;
  _delta_origin : vec3;
  _node_span_locs : list R;
  _cp_span_locs : list R
}.

(** Attributes assigned by [_initialize_getters]. *)
Record getter_attrs : Type := {
  get_twist : getter;
  get_dihedral : getter;
  get_sweep : getter;
  get_chord : getter;
  _get_ac_offset : getter
}.

(** Attributes assigned by [_initialize_airfoils]. *)
Record airfoil_attrs : Type := {
  _airfoils : list Airfoil;
  _airfoil_spans : list R;
  _num_airfoils : nat
}.

(** Attributes assigned by [_setup_control_surface] and [apply_control].
    Those assigned only when there is a control surface, or only by
    [apply_control], are optional. *)
Record control_attrs : Type := {
  _delta_flap : R;
  _has_control_surface : bool;
  _Cm_delta_flap : pyval;
  _cp_flap_chord_frac : option (list R);
  _control_mixing : option (dict R);
  _cp_in_control_surface : option (list bool);
  _eta_h_esp_f : option (list R);
  _eta_defl : option R;
  _flap_eff : option (list R)
}.

(** Attributes assigned by [_setup_cp_data]. *)
Record cp_attrs : Type := {
  u_a_cp : list vec3;
  u_n_cp : list vec3;
  u_s_cp : list vec3;
  control_points : list vec3;
  c_bar_cp : list R;
  dS : list R;
  twist_cp : pyval;
  dihedral_cp : pyval;
  sweep_cp : pyval
}.

Inductive WingSegment : Type := mkWingSegment {
  name : string;
  _input_dict : input_dict;
  _unit_sys : string;
  _side : string;
  _origin : vec3;
  _attached_segments : dict WingSegment;
  ID : option Z;
  init_params : option params_attrs;
  init_getters : option getter_attrs;
  init_airfoils : option airfoil_attrs;
  init_control : option control_attrs;
  init_cp_data : option cp_attrs;
  nodes : option (list vec3)
}.

(** Attribute assignment. *)
Definition set_attached (self : WingSegment) (d : dict WingSegment) : WingSegment :=
  mkWingSegment (name self) (_input_dict self) (_unit_sys self) (_side self)
    (_origin self) d (ID self) (init_params self) (init_getters self) (init_airfoils self)
    (init_control self) (init_cp_data self) (nodes self).

Definition set_params (self : WingSegment) (p : params_attrs) : WingSegment :=
  mkWingSegment (name self) (_input_dict self) (_unit_sys self) (_side self)
    (_origin self) (_attached_segments self) (ID self) (Some p) (init_getters self)
    (init_airfoils self) (init_control self) (init_cp_data self) (nodes self).

Definition set_getters (self : WingSegment) (g : getter_attrs) : WingSegment :=
  mkWingSegment (name self) (_input_dict self) (_unit_sys self) (_side self)
    (_origin self) (_attached_segments self) (ID self) (init_params self) (Some g)
    (init_airfoils self) (init_control self) (init_cp_data self) (nodes self).

Definition set_airfoils (self : WingSegment) (a : airfoil_attrs) : WingSegment :=
  mkWingSegment (name self) (_input_dict self) (_unit_sys self) (_side self)
    (_origin self) (_attached_segments self) (ID self) (init_params self)
    (init_getters self) (Some a) (init_control self) (init_cp_data self) (nodes self).

Definition set_control (self : WingSegment) (c : control_attrs) : WingSegment :=
  mkWingSegment (name self) (_input_dict self) (_unit_sys self) (_side self)
    (_origin self) (_attached_segments self) (ID self) (init_params self)
    (init_getters self) (init_airfoils self) (Some c) (init_cp_data self) (nodes self).

Definition set_cp_data (self : WingSegment) (c : cp_attrs) : WingSegment :=
  mkWingSegment (name self) (_input_dict self) (_unit_sys self) (_side self)
    (_origin self) (_attached_segments self) (ID self) (init_params self)
    (init_getters self) (init_airfoils self) (init_control self) (Some c) (nodes self).

Definition set_nodes (self : WingSegment) (n : list vec3) : WingSegment :=
  mkWingSegment (name self) (_input_dict self) (_unit_sys self) (_side self)
    (_origin self) (_attached_segments self) (ID self) (init_params self)
    (init_getters self) (init_airfoils self) (init_control self) (init_cp_data self) (Some n).

(** The object as the first lines of [__init__] leave it: the arguments
    stored, no segment attached, [ID] read from the input. *)
Definition new_object (name : string) (input : input_dict)
    (side unit_sys : string) (origin : vec3) : WingSegment :=
  mkWingSegment name input unit_sys side origin [] (in_ID input)
    None None None None None None.

(** [self.ID == n] *)
Definition ID_is (self : WingSegment) (n : Z) : bool :=
  match ID self with
  | Some i => Z.eqb i n
  | None => false
  end.

(** [self._side == s] *)
Definition side_is (self : WingSegment) (s : string) : bool :=
  String.eqb (_side self) s.

(** The point of a location query. *)
Definition point_of (loc : pyloc) : vec3 :=
  match loc with
  | Point p => p
  | Points ps => hd (0, 0, 0) ps
  end.

(** ** Span distribution and getters *)

(** The arrays of span locations of [_initialize_params]: nodes and control
    points, cosine clustered or evenly spaced, reversed on the left side so
    that they run from left to right. *)
Definition span_locs (N : nat) (use_clustering : bool) (side : string)
  : list R * list R :=
  let '(node_span_locs, cp_span_locs) :=
    if use_clustering then
      let node_theta_space := linspace 0 PI (N + 1) in
      let cp_theta_space :=
        map (fun t => t - PI / INR (2 * N)) (linspace (PI / INR N) PI N) in
      (map (fun t => (1 - cos t) / 2) node_theta_space,
       map (fun t => (1 - cos t) / 2) cp_theta_space)
    else
      (linspace 0 1 (N + 1),
       linspace (1 / INR (2 * N)) (1 - 1 / INR (2 * N)) N) in
  if String.eqb side "left" then (rev node_span_locs, rev cp_span_locs)
  else (node_span_locs, cp_span_locs).

(** [_initialize_params]; dividing by [self._N = 0] raises. *)
Definition _initialize_params (self : WingSegment) : result WingSegment :=
  let d := _input_dict self in
  let N := opt_default (in_grid d) 40%nat in
  let use_clustering := opt_default (in_use_clustering d) true in
  let connect_get (f : connect_dict -> option R) : R :=
    match in_connect_to d with
    | Some c => opt_default (f c) 0
    | None => 0
    end in
  let dy := connect_get connect_dy in
  let delta_origin :=
    (connect_get connect_dx,
     (if side_is self "left" then dy - connect_get connect_y_offset
      else dy + connect_get connect_y_offset),
     connect_get connect_dz) in
  if (N =? 0)%nat then Raise ZeroDivisionError
  else
    let '(node_span_locs, cp_span_locs) :=
      span_locs N use_clustering (_side self) in
    Ok (set_params self
          {| is_main := in_is_main d;
             b := in_semispan d;
             _N := N;
             _use_clustering := use_clustering;
             _delta_origin := delta_origin;
             _node_span_locs := node_span_locs;
             _cp_span_locs := cp_span_locs |}).

(** [_build_getter_linear_f_of_span]: a constant angle is stored in
    radians, a table is stored as it is. *)
Definition _build_getter_linear_f_of_span (data : span_data)
    (angular_data : bool) : getter :=
  match data with
  | Constant v => ConstantGetter (if angular_data then radians v else v)
  | Table row0 rows => TableGetter angular_data row0 rows
  end.

Definition _build_elliptic_chord_dist (root_chord : R) : getter :=
  EllipticGetter root_chord.

(** Calling a getter.  The two linear getters turn a float [span] into a
    one-element array first; [converted] is then set, and the statement
    under [if converted], [span = span.item()], rebinds the local name
    [span] ([span_rebound] below) and leaves [data], which is returned, an
    array. *)
Definition call_getter (g : getter) (span : pyval) : pyval :=
  match g with
  | ConstantGetter stored =>
      let '(converted, span_arr) :=
        match span with
        | PyFloat x => (true, of_list [x])
        | PyArray a => (false, a)
        end in
      let data := full (shape span_arr) stored in
      let span_rebound :=
        if converted : bool then PyFloat (hd 0 (Np.data span_arr))
        else PyArray span_arr in
      PyArray data
  | TableGetter angular_data row0 rows =>
      let '(converted, span_arr) :=
        match span with
        | PyFloat x => (true, of_list [x])
        | PyArray a => (false, a)
        end in
      let data :=
        if angular_data then
          map_array
            (fun x => interp x (fst row0, radians (snd row0))
                        (map (fun r => (fst r, radians (snd r))) rows))
            span_arr
        else map_array (fun x => interp x row0 rows) span_arr in
      let span_rebound :=
        if converted : bool then PyFloat (hd 0 (Np.data span_arr))
        else PyArray span_arr in
      PyArray data
  | EllipticGetter root_chord =>
      match span with
      | PyFloat x => PyFloat (root_chord * sqrt (1 - x ^ 2))
      | PyArray a =>
          PyArray (map_array (fun x => root_chord * sqrt (1 - x ^ 2)) a)
      end
  end.

(** [_initialize_getters] *)
Definition _initialize_getters (self : WingSegment) : WingSegment :=
  let d := _input_dict self in
  let linear (o : option span_data) (dflt : R) (angular_data : bool) :=
    _build_getter_linear_f_of_span (opt_default o (Constant dflt)) angular_data in
  set_getters self
    {| get_twist := linear (in_twist d) 0 true;
       get_dihedral := linear (in_dihedral d) 0 true;
       get_sweep := linear (in_sweep d) 0 true;
       get_chord :=
         match opt_default (in_chord d) (ChordLinear (Constant 1)) with
         | ChordElliptic root_chord => _build_elliptic_chord_dist root_chord
         | ChordLinear chord_data =>
             _build_getter_linear_f_of_span chord_data false
         end;
       _get_ac_offset := linear (in_ac_offset d) 0 false |}.

(** [_initialize_airfoils] *)
Fixpoint airfoil_rows (airfoil_dict : dict Airfoil) (rows : list (R * string))
  : result (list Airfoil * list R) :=
  match rows with
  | [] => Ok ([], [])
  | (span, nm) :: rows' =>
      (af <- getitem airfoil_dict nm ;;
       rest <- airfoil_rows airfoil_dict rows' ;;
       Ok (af :: fst rest, span :: snd rest))%py
  end.

(** The three attributes [_initialize_airfoils] computes from the input
    and the airfoils at hand. *)
Definition select_airfoils (input : input_dict) (airfoil_dict : dict Airfoil)
  : result airfoil_attrs :=
  match keys airfoil_dict with
  | [] => Raise IndexError
  | default_airfoil :: _ =>
      match opt_default (in_airfoil input) (AirfoilName default_airfoil) with
      | AirfoilName airfoil =>
          match get airfoil_dict airfoil with
          | None =>
              Raise (IOError ("'" ++ airfoil ++ "' must be specified in 'airfoils'."))
          | Some af =>
              Ok {| _airfoils := [af; af];
                    _airfoil_spans := [0; 1];
                    _num_airfoils := 2 |}
          end
      | AirfoilTable rows =>
          (r <- airfoil_rows airfoil_dict rows ;;
           Ok {| _airfoils := fst r;
                 _airfoil_spans := snd r;
                 _num_airfoils := List.length rows |})%py
      | AirfoilOther =>
          Raise (IOError "Airfoil definition must a be a string or an array.")
      end
  end.

Definition _initialize_airfoils (self : WingSegment)
    (airfoil_dict : dict Airfoil) : result WingSegment :=
  (a <- select_airfoils (_input_dict self) airfoil_dict ;;
   Ok (set_airfoils self a))%py.

(** ** Control surface set-up *)

(** [(cp >= root_span) & (cp <= tip_span)] at one control point. *)
Definition within_control_surface (root_span tip_span cp : R) : bool :=
  (if Rle_dec root_span cp then true else false)
  && (if Rle_dec cp tip_span then true else false).

(** The empirical fit of the hinge efficiency. *)
Definition hinge_efficiency (chord_frac : R) : R :=
  3.9598 * atan ((chord_frac + 0.006527) * 89.2574 + 4.898015) - 5.18786.

Definition _setup_control_surface (self : WingSegment)
    (control : option control_dict) : result WingSegment :=
  match control with
  | None =>
      Ok (set_control self
            {| _delta_flap := 0;
               _has_control_surface := false;
               _Cm_delta_flap := PyFloat 0;
               _cp_flap_chord_frac := None;
               _control_mixing := None;
               _cp_in_control_surface := None;
               _eta_h_esp_f := None;
               _eta_defl := None;
               _flap_eff := None |})
  | Some cd =>
      (p <- attr "_N" (init_params self) ;;
       let root_span := opt_default (ctl_root_span cd) 0 in
       let tip_span := opt_default (ctl_tip_span cd) 1 in
       let cp_in_control_surface :=
         map (within_control_surface root_span tip_span) (_cp_span_locs p) in
       let chord_data := opt_default (ctl_chord_fraction cd) (Constant 0.25) in
       let cp_flap_chord_frac :=
         map (fun cp =>
                if within_control_surface root_span tip_span cp then
                  match chord_data with
                  | Constant v => v
                  | Table row0 rows => interp cp row0 rows
                  end
                else 0)
             (_cp_span_locs p) in
       let is_sealed := opt_default (ctl_is_sealed cd) true in
       let theta_f := map (fun c => acos (2 * c - 1)) cp_flap_chord_frac in
       let eps_flap_ideal := map (fun t => 1 - (t - sin t) / PI) theta_f in
       let hinge_eff :=
         map (fun c => if is_sealed then hinge_efficiency c
                       else hinge_efficiency c * 0.8)
             cp_flap_chord_frac in
       Ok (set_control self
             {| _delta_flap := 0;
                _has_control_surface := true;
                _Cm_delta_flap :=
                  PyArray (of_list
                    (map (fun t => (sin (2 * t) - 2 * sin t) / 4) theta_f));
                _cp_flap_chord_frac := Some cp_flap_chord_frac;
                _control_mixing :=
                  Some (opt_default (ctl_control_mixing cd) []);
                _cp_in_control_surface := Some cp_in_control_surface;
                _eta_h_esp_f :=
                  Some (map (fun eh => fst eh * snd eh)
                          (combine eps_flap_ideal hinge_eff));
                _eta_defl := None;
                _flap_eff := None |}))%py
  end.

(** ** Geometry

    The span argument of these methods is a float or a 1-D array; the
    rows of the [(n, 3)] arrays they return are [vec3]. *)

(** The elements of an array argument; a float counts as one element. *)
Definition elements (v : pyval) : list R :=
  match v with
  | PyFloat x => [x]
  | PyArray a => data a
  end.

(** The float a one-element result converts to. *)
Definition item (v : pyval) : R := hd 0 (elements v).

(** [a[1:]] and [a[:-1]] *)
Definition drop_first {A} (l : list A) : list A := tl l.
Definition drop_last {A} (l : list A) : list A := removelast l.

(** [get_root_loc] *)
Definition get_root_loc (self : WingSegment) : result vec3 :=
  if ID_is self 0 then Ok (_origin self)
  else (p <- attr "_delta_origin" (init_params self) ;;
        Ok (vadd (_origin self) (_delta_origin p)))%py.

(** [_get_axial_vec] *)
Definition _get_axial_vec (self : WingSegment) (span : pyval)
  : result (list vec3) :=
  (g <- attr "get_twist" (init_getters self) ;;
   let span_array := of_list (elements span) in
   let twist := elements (call_getter (get_twist g) (PyArray span_array)) in
   Ok (map (fun t => (- cos t, 0, sin t)) twist))%py.

(** [_get_normal_vec] *)
Definition _get_normal_vec (self : WingSegment) (span : pyval)
  : result (list vec3) :=
  (g <- attr "get_twist" (init_getters self) ;;
   let span_array := of_list (elements span) in
   let twist := elements (call_getter (get_twist g) (PyArray span_array)) in
   let dihedral := elements (call_getter (get_dihedral g) (PyArray span_array)) in
   Ok (map (fun td : R * R =>
              let C_twist := cos (fst td) in
              let S_twist := sin (fst td) in
              let C_dihedral := cos (snd td) in
              let S_dihedral := sin (snd td) in
              if side_is self "left" then
                (- S_twist * C_dihedral, S_dihedral, - C_twist * C_dihedral)
              else
                (- S_twist * C_dihedral, - S_dihedral, - C_twist * C_dihedral))
           (combine twist dihedral)))%py.

(** [_get_span_vec]; the column of zeros has length [self._N], and
    [np.asarray] refuses columns of different lengths. *)
Definition _get_span_vec (self : WingSegment) (span : pyval)
  : result (list vec3) :=
  (g <- attr "get_dihedral" (init_getters self) ;;
   p <- attr "_N" (init_params self) ;;
   let span_array := of_list (elements span) in
   let dihedral := elements (call_getter (get_dihedral g) (PyArray span_array)) in
   if (List.length dihedral =? _N p)%nat then
     Ok (map (fun d =>
                if side_is self "left" then (0, - cos d, - sin d)
                else (0, - cos d, sin d))
             dihedral)
   else Raise (ValueError "setting an array element with a sequence."))%py.

(** The loop of [_attach_wing_segment] over [self._attached_segments]:
    a child whose key does not contain [side] is passed over; the loop
    ends at the first child whose call returns a segment or raises.
    [attach] is the recursive call; each child is replaced by the child as
    its call leaves it. *)
Section AttachLoop.

Variable attach : WingSegment -> result (option WingSegment) * WingSegment.
Variable side : string.

Fixpoint attach_loop (kids : dict WingSegment)
  : result (option WingSegment) * dict WingSegment :=
  match kids with
  | [] => (Ok None, [])
  | (key, child) :: rest =>
      if negb (contains side key) then
        let '(r, rest') := attach_loop rest in (r, (key, child) :: rest')
      else
        let '(r, child') := attach child in
        match r with
        | Ok None =>
            let '(r', rest') := attach_loop rest in
            (r', (key, child') :: rest')
        | _ => (r, (key, child') :: rest)
        end
  end.

End AttachLoop.

Section Quadrature.

(** [scipy.integrate.quad(f, a, b)[0]], the numerical integral of [f]
    from [a] to [b]; a library routine, kept abstract. *)
Variable quad : (R -> R) -> R -> R -> R.

(** [_get_quarter_chord_loc] *)
Definition _get_quarter_chord_loc (self : WingSegment) (span : pyval)
  : result pyloc :=
  (g <- attr "get_sweep" (init_getters self) ;;
   p <- attr "b" (init_params self) ;;
   let ds :=
     map (fun span : R =>
            (quad (fun s => - tan (item (call_getter (get_sweep g) (PyFloat s))))
               0 span * b p,
             (if side_is self "left" then
                quad (fun s => - cos (item (call_getter (get_dihedral g) (PyFloat s))))
                  0 span * b p
              else
                quad (fun s => cos (item (call_getter (get_dihedral g) (PyFloat s))))
                  0 span * b p),
             quad (fun s => - sin (item (call_getter (get_dihedral g) (PyFloat s))))
               0 span * b p))
         (elements span) in
   root <- get_root_loc self ;;
   let qc_loc := map (vadd root) ds in
   Ok (match span with
       | PyFloat _ => Point (hd (0, 0, 0) qc_loc)
       | PyArray _ => Points qc_loc
       end))%py.

(** [get_tip_loc]; the location for the float 1.0 is a point. *)
Definition get_tip_loc (self : WingSegment) : result vec3 :=
  if ID_is self 0 then Ok (_origin self)
  else (loc <- _get_quarter_chord_loc self (PyFloat 1) ;; Ok (point_of loc))%py.

(** [_get_section_ac_loc]; the in-place addition needs the [(n, 3)]
    result of an array argument. *)
Definition _get_section_ac_loc (self : WingSegment) (span : pyval)
  : result (list vec3) :=
  (loc <- _get_quarter_chord_loc self span ;;
   g <- attr "_get_ac_offset" (init_getters self) ;;
   let ac_offset := elements (call_getter (_get_ac_offset g) span) in
   let chord := elements (call_getter (get_chord g) span) in
   axial <- _get_axial_vec self span ;;
   match loc with
   | Point _ => Raise (ValueError "non-broadcastable output operand")
   | Points qc =>
       Ok (map (fun r : vec3 * ((R * R) * vec3) =>
                  let '(q, ((ac, c), u_a)) := r in
                  vadd q (vscale (ac * c) u_a))
             (combine qc (combine (combine ac_offset chord) axial)))
   end)%py.

(** [_get_cp_avg_chord_lengths] *)
Definition _get_cp_avg_chord_lengths (self : WingSegment) : result (list R) :=
  (g <- attr "get_chord" (init_getters self) ;;
   p <- attr "_node_span_locs" (init_params self) ;;
   let node_chords :=
     elements (call_getter (get_chord g) (PyArray (of_list (_node_span_locs p)))) in
   Ok (map (fun c : R * R => (fst c + snd c) / 2)
         (combine (drop_first node_chords) (drop_last node_chords))))%py.

(** [_setup_cp_data] *)
Definition _setup_cp_data (self : WingSegment) : result WingSegment :=
  (p <- attr "_cp_span_locs" (init_params self) ;;
   let cp := PyArray (of_list (_cp_span_locs p)) in
   u_a <- _get_axial_vec self cp ;;
   u_n <- _get_normal_vec self cp ;;
   u_s <- _get_span_vec self cp ;;
   cps <- _get_section_ac_loc self cp ;;
   c_bar <- _get_cp_avg_chord_lengths self ;;
   g <- attr "get_twist" (init_getters self) ;;
   let node := _node_span_locs p in
   Ok (set_cp_data self
         {| u_a_cp := u_a;
            u_n_cp := u_n;
            u_s_cp := u_s;
            control_points := cps;
            c_bar_cp := c_bar;
            dS := map (fun r : (R * R) * R =>
                         let '((n1, n0), c) := r in Rabs (n1 - n0) * b p * c)
                    (combine (combine (drop_first node) (drop_last node)) c_bar);
            twist_cp := call_getter (get_twist g) cp;
            dihedral_cp := call_getter (get_dihedral g) cp;
            sweep_cp := call_getter (get_sweep g) cp |}))%py.

(** [_setup_node_data] *)
Definition _setup_node_data (self : WingSegment) : result WingSegment :=
  (p <- attr "_node_span_locs" (init_params self) ;;
   ns <- _get_section_ac_loc self (PyArray (of_list (_node_span_locs p))) ;;
   Ok (set_nodes self ns))%py.

(** [WingSegment.__init__] *)
Definition WingSegment_init (name : string) (input : input_dict)
    (side unit_sys : string) (airfoil_dict : dict Airfoil) (origin : vec3)
  : result WingSegment :=
  let self := new_object name input side unit_sys origin in
  if ID_is self 0 && negb (String.eqb name "origin") then
    Raise (IOError ("Wing segment ID for " ++ name ++ " may not be 0."))
  else if negb (ID_is self 0) then
    (self <- _initialize_params self ;;
     let self := _initialize_getters self in
     self <- _initialize_airfoils self airfoil_dict ;;
     self <- _setup_control_surface self (in_control_surface input) ;;
     self <- _setup_cp_data self ;;
     _setup_node_data self)%py
  else Ok self.

(** ** The tree of segments *)

(** [input_dict.get("connect_to", {}).get("ID", 0)] *)
Definition parent_ID_of (input : input_dict) : Z :=
  match in_connect_to input with
  | Some c => opt_default (connect_ID c) 0%Z
  | None => 0%Z
  end.

(** [input_dict.get("connect_to", {}).get("location", "tip")] *)
Definition location_of (input : input_dict) : string :=
  match in_connect_to input with
  | Some c => opt_default (connect_location c) "tip"%string
  | None => "tip"%string
  end.

(** The exception of the origin segment when no parent is found. *)
Definition could_not_attach (wing_segment_name : string) : exn :=
  RuntimeError ("Could not attach wing segment " ++ wing_segment_name
                ++ ". Check ID of parent is valid.").

(** [_attach_wing_segment]: the result is the new segment, or [None] for
    [False]; the second component is [self] afterwards.  The loop over
    the attached segments is [attach_loop], with the recursive call on
    each child whose key contains [side]. *)
Fixpoint _attach_wing_segment (self : WingSegment)
    (wing_segment_name : string) (input : input_dict)
    (side unit_sys : string) (airfoil_dict : dict Airfoil) {struct self}
  : result (option WingSegment) * WingSegment :=
  if ID_is self (parent_ID_of input) then
    let attachment_point :=
      if String.eqb (location_of input) "root" then get_root_loc self
      else get_tip_loc self in
    match (pt <- attachment_point ;;
           WingSegment_init wing_segment_name input side unit_sys
             airfoil_dict pt)%py with
    | Raise e => (Raise e, self)
    | Ok new =>
        (Ok (Some new),
         set_attached self
           (setitem (_attached_segments self) wing_segment_name new))
    end
  else
    let '(result, kids') :=
      attach_loop
        (fun child =>
           _attach_wing_segment child wing_segment_name input side unit_sys
             airfoil_dict)
        side (_attached_segments self) in
    let self' := set_attached self kids' in
    match result with
    | Ok None =>
        if ID_is self 0 then (Raise (could_not_attach wing_segment_name), self')
        else (Ok None, self')
    | _ => (result, self')
    end.

(** [attach_wing_segment] *)
Definition attach_wing_segment (self : WingSegment)
    (wing_segment_name : string) (input : input_dict)
    (side unit_sys : string) (airfoil_dict : dict Airfoil)
  : result (option WingSegment) * WingSegment :=
  if negb (ID_is self 0) then
    (Raise (RuntimeError "Please add segments only at the origin segment."),
     self)
  else
    _attach_wing_segment self wing_segment_name input side unit_sys
      airfoil_dict.

End Quadrature.

(** ** Methods on a constructed segment

    A method takes the object and returns its result, or the exception it
    raises, together with the object as the call leaves it. *)
Definition method (A : Type) : Type := WingSegment -> result A * WingSegment.

(** A method body that assigns nothing. *)
Definition reading {A} (body : WingSegment -> result A) : method A :=
  fun self => (body self, self).

(** *** Airfoil coefficients *)

(** The parameter argument: a 2-D array, by rows. *)
Definition matrix : Type := list (list R).

(** [new_params[:,:3] = params], one row: three columns are copied, a
    single column is broadcast, any other width is refused. *)
Definition first_three (row : list R) : result (list R) :=
  match row with
  | [p0; p1; p2] => Ok [p0; p1; p2]
  | [p0] => Ok [p0; p0; p0]
  | _ => Raise (ValueError "could not broadcast input array")
  end.

(** [new_params[:,k] = v]: a float fills the column, an array must have
    one entry per row (or a single entry). *)
Definition column (N : nat) (v : pyval) : result (list R) :=
  match v with
  | PyFloat x => Ok (repeat x N)
  | PyArray a =>
      if (List.length (data a) =? N)%nat then Ok (data a)
      else match data a with
           | [x] => Ok (repeat x N)
           | _ => Raise (ValueError "could not broadcast input array")
           end
  end.

(** [_airfoil_interpolator] at one control point: [coefs] is the row of
    the coefficient table that belongs to it. *)
Definition interpolate_at (sample_spans : list R) (interp_span : R)
    (coefs : list R) : result R :=
  let j := Nat.pred (searchsorted sample_spans interp_span) in
  match nth_error sample_spans j, nth_error sample_spans (j + 1),
        nth_error coefs j, nth_error coefs (j + 1) with
  | Some s0, Some s1, Some c0, Some c1 =>
      let d := (interp_span - s0) / (s1 - s0) in
      Ok ((1 - d) * c0 + d * c1)
  | _, _, _, _ => Raise IndexError
  end.

Definition _airfoil_interpolator (interp_spans sample_spans : list R)
    (coefs : matrix) : result (list R) :=
  mapM (fun sc : R * list R => interpolate_at sample_spans (fst sc) (snd sc))
    (combine interp_spans coefs).

(** The exception of the row-count check. *)
Definition params_mismatch : exn :=
  ValueError "params with shape does not match control points.".

(** The first lines of every coefficient query: the row-count check, then
    the five-column array [new_params], its first three columns from
    [params], the other two from the flap state when there is a control
    surface and zero otherwise. *)
Definition new_params (fourth_column : control_attrs -> result pyval)
    (params : matrix) (self : WingSegment) : result matrix :=
  (p <- attr "_N" (init_params self) ;;
   if negb (List.length params =? _N p)%nat then Raise params_mismatch
   else
     first <- mapM first_three params ;;
     c <- attr "_has_control_surface" (init_control self) ;;
     col3 <- (if _has_control_surface c then
                v <- fourth_column c ;; column (_N p) v
              else Ok (repeat 0 (_N p))) ;;
     let col4 := repeat (if _has_control_surface c then _delta_flap c else 0)
                   (_N p) in
     Ok (map (fun r : list R * (R * R) => fst r ++ [fst (snd r); snd (snd r)])
           (combine first (combine col3 col4))))%py.

(** The body shared by the seven coefficient queries, which differ in the
    airfoil method they call and, for the moment coefficient, in the
    attribute written to the fourth column: every airfoil is evaluated at
    every row of [new_params], and the values are blended along the span. *)
Definition coefficient_query (coef : Airfoil -> list R -> R)
    (fourth_column : control_attrs -> result pyval) (params : matrix)
    (self : WingSegment) : result (list R) :=
  (rows <- new_params fourth_column params self ;;
   p <- attr "_cp_span_locs" (init_params self) ;;
   a <- attr "_num_airfoils" (init_airfoils self) ;;
   coefs <- mapM (fun row =>
                    mapM (fun j => match nth_error (_airfoils a) j with
                                   | Some af => Ok (coef af row)
                                   | None => Raise IndexError
                                   end)
                      (seq 0 (_num_airfoils a)))
              rows ;;
   _airfoil_interpolator (_cp_span_locs p) (_airfoil_spans a) coefs)%py.

Definition flap_eff_column (c : control_attrs) : result pyval :=
  (e <- attr "_flap_eff" (_flap_eff c) ;; Ok (PyArray (of_list e)))%py.

Definition Cm_delta_flap_column (c : control_attrs) : result pyval :=
  Ok (_Cm_delta_flap c).

Definition get_cp_CLa (params : matrix) : method (list R) :=
  reading (coefficient_query get_CLa flap_eff_column params).

Definition get_cp_aL0 (params : matrix) : method (list R) :=
  reading (coefficient_query get_aL0 flap_eff_column params).

Definition get_cp_CLRe (params : matrix) : method (list R) :=
  reading (coefficient_query get_CLRe flap_eff_column params).

Definition get_cp_CLM (params : matrix) : method (list R) :=
  reading (coefficient_query get_CLM flap_eff_column params).

Definition get_cp_CL (params : matrix) : method (list R) :=
  reading (coefficient_query get_CL flap_eff_column params).

Definition get_cp_CD (params : matrix) : method (list R) :=
  reading (coefficient_query get_CD flap_eff_column params).

Definition get_cp_Cm (params : matrix) : method (list R) :=
  reading (coefficient_query get_Cm Cm_delta_flap_column params).

(** The seven queries under one name. *)
Inductive coefficient : Type := CLa | aL0 | CLRe | CLM | CL | CD | Cm.

Definition get_cp (k : coefficient) : matrix -> method (list R) :=
  match k with
  | CLa => get_cp_CLa
  | aL0 => get_cp_aL0
  | CLRe => get_cp_CLRe
  | CLM => get_cp_CLM
  | CL => get_cp_CL
  | CD => get_cp_CD
  | Cm => get_cp_Cm
  end.

(** The attribute each query writes to the fourth column. *)
Definition fourth_column_of (k : coefficient) : control_attrs -> result pyval :=
  match k with
  | Cm => Cm_delta_flap_column
  | _ => flap_eff_column
  end.

(** The airfoil method behind each query. *)
Definition airfoil_coefficient (k : coefficient) : Airfoil -> list R -> R :=
  match k with
  | CLa => get_CLa
  | aL0 => get_aL0
  | CLRe => get_CLRe
  | CLM => get_CLM
  | CL => get_CL
  | CD => get_CD
  | Cm => get_Cm
  end.

(** *** Control deflection *)

(** Modelled from the spec: [helpers.import_value] is not part of this
    module.  The control state reaches the segment normalised, a deflection
    in degrees per control name, and the value stored under the key is
    returned, the default when the key is missing. *)
Definition import_value (key : string) (control_state : dict R)
    (unit_sys : string) (default_value : R) : R :=
  get_default control_state key default_value.

(** Assignments to the three attributes [apply_control] writes. *)
Definition with_delta_flap (c : control_attrs) (v : R) : control_attrs :=
  {| _delta_flap := v;
     _has_control_surface := _has_control_surface c;
     _Cm_delta_flap := _Cm_delta_flap c;
     _cp_flap_chord_frac := _cp_flap_chord_frac c;
     _control_mixing := _control_mixing c;
     _cp_in_control_surface := _cp_in_control_surface c;
     _eta_h_esp_f := _eta_h_esp_f c;
     _eta_defl := _eta_defl c;
     _flap_eff := _flap_eff c |}.

Definition with_eta_defl (c : control_attrs) (v : R) : control_attrs :=
  {| _delta_flap := _delta_flap c;
     _has_control_surface := _has_control_surface c;
     _Cm_delta_flap := _Cm_delta_flap c;
     _cp_flap_chord_frac := _cp_flap_chord_frac c;
     _control_mixing := _control_mixing c;
     _cp_in_control_surface := _cp_in_control_surface c;
     _eta_h_esp_f := _eta_h_esp_f c;
     _eta_defl := Some v;
     _flap_eff := _flap_eff c |}.

Definition with_flap_eff (c : control_attrs) (v : list R) : control_attrs :=
  {| _delta_flap := _delta_flap c;
     _has_control_surface := _has_control_surface c;
     _Cm_delta_flap := _Cm_delta_flap c;
     _cp_flap_chord_frac := _cp_flap_chord_frac c;
     _control_mixing := _control_mixing c;
     _cp_in_control_surface := _cp_in_control_surface c;
     _eta_h_esp_f := _eta_h_esp_f c;
     _eta_defl := _eta_defl c;
     _flap_eff := Some v |}.

(** The loop over the controls: [delta_flap] is [self._delta_flap] on
    entry; the result is its value when the loop ends or is left by an
    exception. *)
Fixpoint accumulate_deflection (side unit_sys : string)
    (control_mixing : option (dict R)) (control_state : dict R)
    (control_symmetry : dict bool) (keys : list string) (delta_flap : R)
  : result unit * R :=
  match keys with
  | [] => (Ok tt, delta_flap)
  | key :: keys' =>
      let deflection := import_value key control_state unit_sys 0 in
      let positive :=
        if String.eqb side "right" then Ok true
        else getitem control_symmetry key in
      match positive with
      | Raise e => (Raise e, delta_flap)
      | Ok sign =>
          match control_mixing with
          | None => (Raise (AttributeError "_control_mixing"), delta_flap)
          | Some mixing =>
              let gain := get_default mixing key 0 in
              accumulate_deflection side unit_sys control_mixing control_state
                control_symmetry keys'
                (if sign : bool then delta_flap + deflection * gain
                 else delta_flap - deflection * gain)
          end
      end
  end.

(** The fit of the deflection efficiency, on the deflection in degrees. *)
Definition deflection_efficiency (delta_flap : R) : R :=
  if Rlt_dec delta_flap 11 then 1
  else -8.71794871794872E-03 * delta_flap + 1.09589743589744.

(** [apply_control] *)
Definition apply_control (control_state : dict R)
    (control_symmetry : dict bool) : method unit :=
  fun self =>
    match init_control self with
    | None => (Raise (AttributeError "_has_control_surface"), self)
    | Some c =>
        if negb (_has_control_surface c) then (Ok tt, self)
        else
          let '(r, delta_flap) :=
            accumulate_deflection (_side self) (_unit_sys self)
              (_control_mixing c) control_state control_symmetry
              (keys control_state) 0 in
          let c := with_delta_flap c delta_flap in
          match r with
          | Raise e => (Raise e, set_control self c)
          | Ok _ =>
              let c := with_eta_defl c (deflection_efficiency delta_flap) in
              match _eta_h_esp_f c with
              | None => (Raise (AttributeError "_eta_h_esp_f"), set_control self c)
              | Some eta_h_esp_f =>
                  let c :=
                    with_flap_eff c
                      (map (fun e => e * deflection_efficiency delta_flap)
                         eta_h_esp_f) in
                  (Ok tt, set_control self (with_delta_flap c (radians delta_flap)))
              end
          end
    end.

(** [get_cp_flap] *)
Definition get_cp_flap : method pyval :=
  reading (fun self =>
    (c <- attr "_has_control_surface" (init_control self) ;;
     if _has_control_surface c then
       e <- attr "_flap_eff" (_flap_eff c) ;;
       Ok (PyArray (of_list (map (fun x => x * _delta_flap c) e)))
     else Ok (PyFloat 0))%py).

(** ** Predicates of the specification *)

Definition strictly_increasing (l : list R) : Prop :=
  forall i j : nat, (i < j < List.length l)%nat -> nth i l 0 < nth j l 0.



Definition within_unit_interval (l : list R) : Prop :=
  Forall (fun x => 0 <= x <= 1) l.

(** The four arrays of [span_locs] before the reversal, entry by entry. *)
Definition node_frac_linear (N i : nat) : R := INR i / INR N.
Definition cp_frac_linear (N i : nat) : R := (2 * INR i + 1) / (2 * INR N).
Definition node_theta (N i : nat) : R := INR i * PI / INR N.
Definition cp_theta (N i : nat) : R := (2 * INR i + 1) * PI / (2 * INR N).
Definition cosine_frac (theta : R) : R := (1 - cos theta) / 2.

(** ** Example inputs *)

(** A stand-in for the integrator, exact on constant integrands. *)
Definition rectangle_rule (f : R -> R) (a b : R) : R := f a * (b - a).

(** An airfoil whose coefficients are all its first parameter. *)
Definition first_parameter (row : list R) : R := hd 0 row.

Definition example_airfoil : Airfoil :=
  {| get_CLa := first_parameter;
     get_aL0 := first_parameter;
     get_CLRe := first_parameter;
     get_CLM := first_parameter;
     get_CL := first_parameter;
     get_CD := first_parameter;
     get_Cm := first_parameter |}.

Definition example_airfoils : dict Airfoil := [("NACA_0010"%string, example_airfoil)].

(** The input of a segment with [ID] 1 attached to the origin: one
    control point, semispan 4, the given dihedral in degrees, everything
    else left to its default. *)
Definition example_input (dihedral : option span_data)
    (control : option control_dict) : input_dict :=
  {| in_ID := Some 1%Z;
     in_is_main := None;
     in_semispan := 4;
     in_grid := Some 1%nat;
     in_use_clustering := None;
     in_connect_to := None;
     in_twist := None;
     in_dihedral := dihedral;
     in_sweep := None;
     in_chord := None;
     in_ac_offset := None;
     in_airfoil := None;
     in_control_surface := control |}.

(** A vertical fin on the right: dihedral 90 degrees. *)
Definition fin_input : input_dict := example_input (Some (Constant 90)) None.

(** A control surface over the whole span, moved by the aileron. *)
Definition aileron_control : control_dict :=
  {| ctl_root_span := None;
     ctl_tip_span := None;
     ctl_chord_fraction := None;
     ctl_is_sealed := None;
     ctl_control_mixing := Some [("aileron"%string, 1)] |}.

Definition aileron_input : input_dict := example_input None (Some aileron_control).

(** The control attributes with another flap state: deflection,
    deflection efficiency and flap efficiency. *)
Definition with_flap_state (c : control_attrs) (delta_flap : R)
    (eta_defl : option R) (flap_eff : option (list R)) : control_attrs :=
  {| _delta_flap := delta_flap;
     _has_control_surface := _has_control_surface c;
     _Cm_delta_flap := _Cm_delta_flap c;
     _cp_flap_chord_frac := _cp_flap_chord_frac c;
     _control_mixing := _control_mixing c;
     _cp_in_control_surface := _cp_in_control_surface c;
     _eta_h_esp_f := _eta_h_esp_f c;
     _eta_defl := eta_defl;
     _flap_eff := flap_eff |}.

(** The integrator returns the exact integral of a constant. *)
Definition exact_on_constants (quad : (R -> R) -> R -> R -> R) : Prop :=
  forall (f : R -> R) (c a b : R),
    (forall s : R, f s = c) -> quad f a b = c * (b - a).

(** ** Predicates on the tree of segments *)

Definition has_ID (i : Z) (t : WingSegment) : Prop := ID_is t i = true.

(** Some segment of the tree, at any depth and on any side, satisfies [P]. *)
Inductive anywhere (P : WingSegment -> Prop) : WingSegment -> Prop :=
| anywhere_here (t : WingSegment) : P t -> anywhere P t
| anywhere_below (t : WingSegment) (key : string) (child : WingSegment) :
    In (key, child) (_attached_segments t) ->
    anywhere P child ->
    anywhere P t.

(** Some segment satisfies [P] and is the root or is reached from it
    through attached segments whose keys all contain [side]. *)
Inductive on_side (side : string) (P : WingSegment -> Prop)
  : WingSegment -> Prop :=
| on_side_here (t : WingSegment) : P t -> on_side side P t
| on_side_below (t : WingSegment) (key : string) (child : WingSegment) :
    In (key, child) (_attached_segments t) ->
    contains side key = true ->
    on_side side P child ->
    on_side side P t.

(** No segment reached through keys that contain [side] has the [ID] 0 of
    the origin. *)
Inductive lifting_on_side (side : string) : WingSegment -> Prop :=
| lifting_node (t : WingSegment) :
    ID_is t 0 = false ->
    (forall (key : string) (child : WingSegment),
        In (key, child) (_attached_segments t) ->
        contains side key = true ->
        lifting_on_side side child) ->
    lifting_on_side side t.

(** Every attached segment whose [ID] is 0 is stored under the key
    ["origin"], the only name the constructor accepts with that [ID]. *)
Inductive well_named : WingSegment -> Prop :=
| well_named_node (t : WingSegment) :
    (forall (key : string) (child : WingSegment),
        In (key, child) (_attached_segments t) ->
        (ID_is child 0 = true -> key = "origin"%string) /\ well_named child) ->
    well_named t.

(** A result that is not a [RuntimeError]. *)
Definition never_RuntimeError {A} (r : result A) : Prop :=
  forall msg : string, r <> Raise (RuntimeError msg).

(** The origin segment, as the aircraft creates it, and the inputs of a
    left wing attached to it and of a right tail attached to that wing. *)
Definition origin_input : input_dict :=
  {| in_ID := Some 0%Z; in_is_main := Some false; in_semispan := 0;
     in_grid := None; in_use_clustering := None; in_connect_to := None;
     in_twist := None; in_dihedral := None; in_sweep := None;
     in_chord := None; in_ac_offset := None; in_airfoil := None;
     in_control_surface := None |}.

Definition origin_segment : WingSegment :=
  new_object "origin" origin_input "both" "English" (0, 0, 0).

Definition wing_input : input_dict := example_input None None.

Definition tail_input : input_dict :=
  {| in_ID := Some 2%Z; in_is_main := None; in_semispan := 1;
     in_grid := Some 1%nat; in_use_clustering := None;
     in_connect_to :=
       Some {| connect_ID := Some 1%Z; connect_location := None;
               connect_dx := None; connect_dy := None; connect_dz := None;
               connect_y_offset := None |};
     in_twist := None; in_dihedral := None; in_sweep := None;
     in_chord := None; in_ac_offset := None; in_airfoil := None;
     in_control_surface := None |}.

(** A segment satisfying [P] among the attached segments on the side. *)
Definition found_below (side : string) (P : WingSegment -> Prop)
    (kids : dict WingSegment) : Prop :=
  exists (key : string) (child : WingSegment),
    In (key, child) kids /\ contains side key = true /\ on_side side P child.

(** [t] has the parent's [ID] and holds [new] under the new name. *)
Definition is_parent_of (pid : Z) (wing_segment_name : string)
    (new t : WingSegment) : Prop :=
  has_ID pid t /\ get (_attached_segments t) wing_segment_name = Some new.

Section AttachOutcome.

Variable quad : (R -> R) -> R -> R -> R.
Variables (wing_segment_name : string) (input : input_dict).
Variables (side unit_sys : string) (airfoil_dict : dict Airfoil).

(** What a call of [_attach_wing_segment] below the origin may return:
    [False] ([None]), when no segment on the side has the parent's [ID];
    the new segment, constructed at some attachment point and registered
    under its name in a segment on the side that has the parent's [ID];
    or an exception other than a [RuntimeError], when there is such a
    parent. *)
Definition attach_outcome (found : Prop) (registered : WingSegment -> Prop)
    (r : result (option WingSegment)) : Prop :=
  match r with
  | Ok None => ~ found
  | Ok (Some new) =>
      found /\ registered new /\
      exists pt : vec3,
        WingSegment_init quad wing_segment_name input side unit_sys
          airfoil_dict pt = Ok new
  | Raise e => found /\ forall msg : string, e <> RuntimeError msg
  end.

(** The same at the origin, where [False] becomes the exception
    [could_not_attach]. *)
Definition origin_outcome (found : Prop) (registered : WingSegment -> Prop)
    (r : result (option WingSegment)) : Prop :=
  match r with
  | Ok None => False
  | Raise e =>
      (e = could_not_attach wing_segment_name /\ ~ found) \/
      (found /\ forall msg : string, e <> RuntimeError msg)
  | Ok (Some new) => attach_outcome found registered r
  end.

End AttachOutcome.

(** ** Further methods *)

(** The loop of [_get_attached_wing_segment] over the attached segments:
    it ends at the first child in which the name is found; [lookup] is
    the recursive call. *)
Section LookupLoop.

Variable lookup : WingSegment -> option WingSegment.

Fixpoint lookup_loop (kids : dict WingSegment) : option WingSegment :=
  match kids with
  | [] => None
  | (key, child) :: rest =>
      match lookup child with
      | Some found => Some found
      | None => lookup_loop rest
      end
  end.

End LookupLoop.

(** [_get_attached_wing_segment]: the segment stored under the name in
    this segment, or else what the first child that finds one returns;
    [None] is [False]. *)
Fixpoint _get_attached_wing_segment (self : WingSegment)
    (wing_segment_name : string) {struct self} : option WingSegment :=
  match get (_attached_segments self) wing_segment_name with
  | Some found => Some found
  | None =>
      lookup_loop
        (fun child => _get_attached_wing_segment child wing_segment_name)
        (_attached_segments self)
  end.

Definition vsub (u v : vec3) : vec3 :=
  let '(u0, u1, u2) := u in
  let '(v0, v1, v2) := v in
  (u0 - v0, u1 - v1, u2 - v2).

(** The rows of a location query. *)
Definition rows_of (loc : pyloc) : list vec3 :=
  match loc with
  | Point p => [p]
  | Points ps => ps
  end.

Section Outline.

Variable quad : (R -> R) -> R -> R -> R.

(** The connection point [_attach_wing_segment] reads on the parent. *)
Definition attachment_point (input : input_dict) (parent : WingSegment)
  : result vec3 :=
  if String.eqb (location_of input) "root" then get_root_loc parent
  else get_tip_loc quad parent.

(** [get_outline_points]: the leading edge from root to tip, the trailing
    edge back from tip to root (the slice [[-2:N-1:-1]]), and the first
    point again. *)
Definition get_outline_points (self : WingSegment) : result (list vec3) :=
  (p <- attr "_N" (init_params self) ;;
   let spans := PyArray (of_list (linspace 0 1 (_N p))) in
   qc <- _get_quarter_chord_loc quad self spans ;;
   g <- attr "get_chord" (init_getters self) ;;
   let chords := elements (call_getter (get_chord g) spans) in
   axial_vecs <- _get_axial_vec self spans ;;
   let stations := combine (rows_of qc) (combine axial_vecs chords) in
   let leading :=
     map (fun r : vec3 * (vec3 * R) =>
            vsub (fst r) (vscale 0.25 (vscale (snd (snd r)) (fst (snd r)))))
       stations in
   let trailing :=
     map (fun r : vec3 * (vec3 * R) =>
            vadd (fst r) (vscale 0.75 (vscale (snd (snd r)) (fst (snd r)))))
       stations in
   Ok (leading ++ rev trailing ++ [hd (0, 0, 0) leading]))%py.

End Outline.

(** The getters [_initialize_getters] builds from an input. *)
Definition getters_of_input (input : input_dict) : getter_attrs :=
  {| get_twist :=
       _build_getter_linear_f_of_span (opt_default (in_twist input) (Constant 0)) true;
     get_dihedral :=
       _build_getter_linear_f_of_span (opt_default (in_dihedral input) (Constant 0)) true;
     get_sweep :=
       _build_getter_linear_f_of_span (opt_default (in_sweep input) (Constant 0)) true;
     get_chord :=
       match opt_default (in_chord input) (ChordLinear (Constant 1)) with
       | ChordElliptic root_chord => _build_elliptic_chord_dist root_chord
       | ChordLinear chord_data => _build_getter_linear_f_of_span chord_data false
       end;
     _get_ac_offset :=
       _build_getter_linear_f_of_span (opt_default (in_ac_offset input) (Constant 0)) false |}.

(** ** Further predicates *)

Definition vdot (u v : vec3) : R :=
  let '(u0, u1, u2) := u in
  let '(v0, v1, v2) := v in
  u0 * v0 + u1 * v1 + u2 * v2.

Definition unit_vector (u : vec3) : Prop := vdot u u = 1.

Definition rsum (l : list R) : R := fold_right Rplus 0 l.

(** The sum of the distances between consecutive entries. *)
Fixpoint variation (l : list R) : R :=
  match l with
  | [] => 0
  | x :: l' =>
      match l' with
      | [] => 0
      | y :: _ => Rabs (y - x) + variation l'
      end
  end.

(** The sum over the controls of deflection times mixing gain. *)
Fixpoint net_deflection (mixing : dict R) (control_state : dict R)
    (keys : list string) : R :=
  match keys with
  | [] => 0
  | key :: keys' =>
      get_default control_state key 0 * get_default mixing key 0
      + net_deflection mixing control_state keys'
  end.

(** [s] is stored under the name in some segment of the tree. *)
Definition stored_under (wing_segment_name : string) (s t : WingSegment)
  : Prop :=
  anywhere (fun n => get (_attached_segments n) wing_segment_name = Some s) t.

(** A table whose spans increase strictly from row to row. *)
Fixpoint increasing_from (x0 : R) (rows : list (R * R)) : Prop :=
  match rows with
  | [] => True
  | (x1, _) :: rows' => x0 < x1 /\ increasing_from x1 rows'
  end.

(** The value of the last row of a table. *)
Fixpoint last_value (f0 : R) (rows : list (R * R)) : R :=
  match rows with
  | [] => f0
  | (_, f1) :: rows' => last_value f1 rows'
  end.

Fixpoint last_span (x0 : R) (rows : list (R * R)) : R :=
  match rows with
  | [] => x0
  | (x1, _) :: rows' => last_span x1 rows'
  end.

(** The stations of an airfoil table increase strictly. *)
Fixpoint increasing (a : list R) : Prop :=
  match a with
  | [] => True
  | x :: a' =>
      match a' with
      | [] => True
      | y :: _ => x < y /\ increasing a'
      end
  end.

(** * Properties *)

(** ** The model on small inputs *)

(** Equality of lists and pairs of reals, entry by entry. *)
Ltac entries :=
  repeat match goal with
         | |- @eq (list _) (_ :: _) (_ :: _) => apply f_equal2
         | |- @eq (_ * _)%type (_, _) (_, _) => apply f_equal2
         end;
  try reflexivity; try lra.

Example contains_right_key : contains "right" "main_wing_right" = true.
Proof. reflexivity. Qed.

Example contains_other_side : contains "right" "main_wing_left" = false.
Proof. reflexivity. Qed.

Example contains_origin :
  contains "left" "origin" = false /\ contains "right" "origin" = false.
Proof. split; reflexivity. Qed.

Example setitem_replaces :
  setitem [("a"%string, 1%nat); ("b"%string, 2%nat)] "a" 3%nat
  = [("a"%string, 3%nat); ("b"%string, 2%nat)].
Proof. reflexivity. Qed.

Example linspace_three : linspace 0 1 3 = [0; 1 / 2; 1].
Proof. unfold linspace. cbn. entries. Qed.

Example span_locs_linear_two :
  span_locs 2 false "right" = ([0; 1 / 2; 1], [1 / 4; 3 / 4]).
Proof. unfold span_locs, linspace. cbn. entries. Qed.

Example span_locs_linear_two_left :
  span_locs 2 false "left" = ([1; 1 / 2; 0], [3 / 4; 1 / 4]).
Proof. unfold span_locs, linspace. cbn. entries. Qed.

Example span_locs_cosine_one :
  span_locs 1 true "right" = ([0; 1], [1 / 2]).
Proof.
  unfold span_locs, linspace. cbn.
  replace (0 * (PI - PI / 1) + PI / 1 - PI / (1 + 1)) with (PI / 2) by field.
  replace (0 * ((PI - 0) / 1) + 0) with 0 by field.
  rewrite cos_0, cos_PI, cos_PI2. entries.
Qed.

Example searchsorted_inside : searchsorted [0; 1] (1 / 2) = 1%nat.
Proof.
  cbn. destruct (Rle_dec (1 / 2) 0); [lra |].
  destruct (Rle_dec (1 / 2) 1); [reflexivity | lra].
Qed.

Example interp_midpoint : interp (1 / 2) (0, 2) [(1, 4)] = 3.
Proof.
  unfold interp. cbn. destruct (Rle_dec (1 / 2) 0); [lra |].
  destruct (Rlt_dec (1 / 2) 1); [lra | lra].
Qed.

Example deflection_efficiency_at_20 :
  deflection_efficiency 20 = -8.71794871794872E-03 * 20 + 1.09589743589744.
Proof. unfold deflection_efficiency. destruct (Rlt_dec 20 11); [lra | reflexivity]. Qed.

Example constant_getter_on_float :
  call_getter (ConstantGetter 3) (PyFloat (1 / 2))
  = PyArray {| shape := [1%nat]; data := [3] |}.
Proof. reflexivity. Qed.

(** ** Span distribution *)

Lemma linspace_length (start stop : R) (num : nat) :
  List.length (linspace start stop num) = num.
Proof. unfold linspace. now rewrite length_map, length_seq. Qed.

(** The entries of [linspace] in closed form. *)
Lemma linspace_closed_form (start stop : R) (num : nat) :
  (1 < num)%nat ->
  linspace start stop num =
  map (fun i : nat => start + INR i * ((stop - start) / INR (num - 1)))
    (seq 0 num).
Proof.
  intros Hnum. unfold linspace. apply map_ext_in. intros i Hi.
  apply in_seq in Hi.
  assert (Hdiv : INR (num - 1) <> 0) by (apply not_0_INR; lia).
  destruct (Nat.ltb_spec 1 num) as [_ | ?]; [| lia]. cbn [andb].
  destruct (Nat.eqb_spec i (num - 1)) as [-> | Hne].
  - field. exact Hdiv.
  - destruct (Nat.ltb_spec 0 (num - 1)) as [_ | ?]; [| lia]. lra.
Qed.

Lemma linspace_one (start stop : R) : linspace start stop 1 = [start].
Proof. unfold linspace. cbn. f_equal. lra. Qed.

(** A list computed from its indices by a strictly increasing function. *)
Lemma strictly_increasing_map_seq (f : nat -> R) (n : nat) :
  (forall i j : nat, (i < j < n)%nat -> f i < f j) ->
  strictly_increasing (map f (seq 0 n)).
Proof.
  intros Hf i j Hij. rewrite length_map, length_seq in Hij.
  rewrite !(nth_indep _ 0 (f 0%nat)) by (rewrite length_map, length_seq; lia).
  rewrite !map_nth, !seq_nth by lia. cbn. apply Hf. lia.
Qed.

Lemma within_unit_map_seq (f : nat -> R) (n : nat) :
  (forall i : nat, (i < n)%nat -> 0 <= f i <= 1) ->
  within_unit_interval (map f (seq 0 n)).
Proof.
  intros Hf. apply Forall_forall. intros x Hx.
  apply in_map_iff in Hx as [i [<- Hi]]. apply in_seq in Hi. apply Hf. lia.
Qed.


Lemma within_unit_rev (l : list R) :
  within_unit_interval l -> within_unit_interval (rev l).
Proof.
  unfold within_unit_interval. rewrite !Forall_forall.
  intros Hl x Hx. apply Hl. now apply in_rev.
Qed.

Lemma INR_pred (N : nat) : (0 < N)%nat -> INR (N - 1) = INR N - 1.
Proof. intros HN. rewrite minus_INR by lia. reflexivity. Qed.

Lemma node_linspace (stop : R) (N : nat) :
  (0 < N)%nat ->
  linspace 0 stop (N + 1) = map (fun i : nat => INR i * stop / INR N) (seq 0 (N + 1)).
Proof.
  intros HN. rewrite linspace_closed_form by lia.
  apply map_ext. intros i. replace (N + 1 - 1)%nat with N by lia.
  assert (INR N <> 0) by (apply not_0_INR; lia). field. assumption.
Qed.

Lemma cp_linspace (start stop : R) (N : nat) (f : nat -> R) :
  (0 < N)%nat ->
  f 0%nat = start ->
  ((1 < N)%nat ->
   forall i : nat, f i = start + INR i * ((stop - start) / (INR N - 1))) ->
  linspace start stop N = map f (seq 0 N).
Proof.
  intros HN H0 Hf. destruct (Nat.eq_dec N 1) as [-> | HN1].
  - rewrite linspace_one. cbn. now rewrite H0.
  - rewrite linspace_closed_form by lia. apply map_ext. intros i.
    rewrite Hf, INR_pred by lia. reflexivity.
Qed.

Lemma INR_gt_1 (N : nat) : (1 < N)%nat -> 1 < INR N.
Proof. intros HN. change 1 with (INR 1). apply lt_INR. assumption. Qed.

Lemma span_locs_right_linear (N : nat) :
  (0 < N)%nat ->
  span_locs N false "right" =
  (map (node_frac_linear N) (seq 0 (N + 1)), map (cp_frac_linear N) (seq 0 N)).
Proof.
  intros HN. unfold span_locs. cbn [String.eqb Ascii.eqb Bool.eqb].
  assert (HN0 : INR N <> 0) by (apply not_0_INR; lia).
  f_equal.
  - rewrite node_linspace by assumption. apply map_ext. intros i.
    unfold node_frac_linear. field. assumption.
  - apply cp_linspace; [assumption | |].
    + unfold cp_frac_linear. rewrite mult_INR. cbn [INR]. field. assumption.
    + intros HN1 i. apply INR_gt_1 in HN1.
      unfold cp_frac_linear. rewrite mult_INR. cbn [INR]. field. split; lra.
Qed.

Lemma span_locs_right_cosine (N : nat) :
  (0 < N)%nat ->
  span_locs N true "right" =
  (map (fun i => cosine_frac (node_theta N i)) (seq 0 (N + 1)),
   map (fun i => cosine_frac (cp_theta N i)) (seq 0 N)).
Proof.
  intros HN. unfold span_locs. cbn [String.eqb Ascii.eqb Bool.eqb].
  assert (HN0 : INR N <> 0) by (apply not_0_INR; lia).
  f_equal.
  - rewrite node_linspace by assumption. rewrite map_map. reflexivity.
  - rewrite (cp_linspace (PI / INR N) PI N (fun i => (INR i + 1) * PI / INR N));
      [| assumption | |].
    + rewrite !map_map. apply map_ext. intros i.
      unfold cosine_frac, cp_theta. rewrite mult_INR. cbn [INR].
      do 2 f_equal. f_equal. field. assumption.
    + cbn [INR]. field. assumption.
    + intros HN1 i. apply INR_gt_1 in HN1. field. split; lra.
Qed.

Lemma span_locs_left (N : nat) (use_clustering : bool) :
  span_locs N use_clustering "left" =
  (rev (fst (span_locs N use_clustering "right")),
   rev (snd (span_locs N use_clustering "right"))).
Proof.
  unfold span_locs. cbn [String.eqb Ascii.eqb Bool.eqb].
  destruct use_clustering; reflexivity.
Qed.

Lemma node_frac_linear_increasing (N i j : nat) :
  (0 < N)%nat -> (i < j)%nat -> node_frac_linear N i < node_frac_linear N j.
Proof.
  intros HN Hij. unfold node_frac_linear, Rdiv.
  apply Rmult_lt_compat_r; [| now apply lt_INR].
  apply Rinv_0_lt_compat, lt_0_INR. assumption.
Qed.

Lemma node_frac_linear_bounds (N i : nat) :
  (0 < N)%nat -> (i <= N)%nat -> 0 <= node_frac_linear N i <= 1.
Proof.
  intros HN Hi. unfold node_frac_linear.
  assert (H0 : 0 < INR N) by now apply lt_0_INR.
  assert (H1 : 0 <= INR i) by apply pos_INR.
  assert (H2 : INR i <= INR N) by now apply le_INR.
  split.
  - apply Rmult_le_pos; [assumption | left; now apply Rinv_0_lt_compat].
  - apply (Rmult_le_reg_r (INR N)); [assumption |]. field_simplify; lra.
Qed.

Lemma cp_frac_linear_increasing (N i j : nat) :
  (0 < N)%nat -> (i < j)%nat -> cp_frac_linear N i < cp_frac_linear N j.
Proof.
  intros HN Hij. unfold cp_frac_linear, Rdiv.
  assert (H0 : 0 < INR N) by now apply lt_0_INR.
  apply Rmult_lt_compat_r; [apply Rinv_0_lt_compat; lra |].
  apply lt_INR in Hij. lra.
Qed.

Lemma cp_frac_linear_bounds (N i : nat) :
  (i < N)%nat -> 0 < cp_frac_linear N i < 1.
Proof.
  intros Hi. unfold cp_frac_linear.
  assert (H1 : 0 <= INR i) by apply pos_INR.
  assert (H2 : INR i + 1 <= INR N).
  { rewrite <- S_INR. apply le_INR. lia. }
  split.
  - apply Rdiv_lt_0_compat; lra.
  - apply (Rmult_lt_reg_r (2 * INR N)); [lra |]. field_simplify; lra.
Qed.

Lemma node_theta_eq (N i : nat) : node_theta N i = PI * node_frac_linear N i.
Proof. unfold node_theta, node_frac_linear. unfold Rdiv. ring. Qed.

Lemma cp_theta_eq (N i : nat) : cp_theta N i = PI * cp_frac_linear N i.
Proof. unfold cp_theta, cp_frac_linear. unfold Rdiv. ring. Qed.

(** The cosine map is increasing on [[0, PI]] and lands in [[0, 1]]. *)
Lemma cosine_frac_increasing (x y : R) :
  0 <= x -> y <= PI -> x < y -> cosine_frac x < cosine_frac y.
Proof.
  intros Hx Hy Hxy. unfold cosine_frac.
  assert (cos y < cos x) by (apply cos_decreasing_1; lra). lra.
Qed.

Lemma cosine_frac_bounds (x : R) : 0 <= cosine_frac x <= 1.
Proof. unfold cosine_frac. pose proof (COS_bound x). lra. Qed.

Lemma scaled_by_PI (u : R) : 0 <= u <= 1 -> 0 <= PI * u <= PI.
Proof. intros Hu. pose proof PI_RGT_0. nra. Qed.

(** The arrays on the right side: lengths, range and order. *)
Lemma span_locs_right_spec (N : nat) (use_clustering : bool) :
  (0 < N)%nat ->
  let arrays := span_locs N use_clustering "right" in
  List.length (fst arrays) = (N + 1)%nat /\
  List.length (snd arrays) = N /\
  within_unit_interval (fst arrays) /\
  within_unit_interval (snd arrays) /\
  strictly_increasing (fst arrays) /\
  strictly_increasing (snd arrays).
Proof.
  intros HN. pose proof PI_RGT_0 as HPI. destruct use_clustering; cbv zeta.
  - rewrite span_locs_right_cosine by assumption. cbn [fst snd].
    rewrite !length_map, !length_seq. repeat split.
    + apply within_unit_map_seq. intros. apply cosine_frac_bounds.
    + apply within_unit_map_seq. intros. apply cosine_frac_bounds.
    + apply strictly_increasing_map_seq. intros i j Hij.
      rewrite !node_theta_eq.
      pose proof (node_frac_linear_bounds N i HN ltac:(lia)).
      pose proof (node_frac_linear_bounds N j HN ltac:(lia)).
      pose proof (node_frac_linear_increasing N i j HN ltac:(lia)).
      apply cosine_frac_increasing; nra.
    + apply strictly_increasing_map_seq. intros i j Hij.
      rewrite !cp_theta_eq.
      pose proof (cp_frac_linear_bounds N i ltac:(lia)).
      pose proof (cp_frac_linear_bounds N j ltac:(lia)).
      pose proof (cp_frac_linear_increasing N i j HN ltac:(lia)).
      apply cosine_frac_increasing; nra.
  - rewrite span_locs_right_linear by assumption. cbn [fst snd].
    rewrite !length_map, !length_seq. repeat split.
    + apply within_unit_map_seq. intros.
      apply node_frac_linear_bounds; [assumption | lia].
    + apply within_unit_map_seq. intros i Hi.
      pose proof (cp_frac_linear_bounds N i Hi). lra.
    + apply strictly_increasing_map_seq. intros.
      apply node_frac_linear_increasing; [assumption | lia].
    + apply strictly_increasing_map_seq. intros.
      apply cp_frac_linear_increasing; [assumption | lia].
Qed.


(** ** Span-value getters *)

(** The elements a getter returns for a 1-D array are the values it takes
    at the entries. *)
Lemma call_getter_elements (g : getter) (l : list R) :
  elements (call_getter g (PyArray (of_list l))) =
  map (fun s => item (call_getter g (PyFloat s))) l.
Proof.
  destruct g as [stored | angular row0 rows | root_chord]; cbn.
  - rewrite Nat.mul_1_r. induction l as [| x l IH]; cbn; [reflexivity |].
    now rewrite IH.
  - destruct angular; reflexivity.
  - reflexivity.
Qed.

(** An array argument gives an array of the same shape. *)
Lemma call_getter_array_shape (g : getter) (a : ndarray) :
  exists a' : ndarray,
    call_getter g (PyArray a) = PyArray a' /\ shape a' = shape a.
Proof.
  destruct g as [stored | angular row0 rows | root_chord]; cbn.
  - eexists. split; reflexivity.
  - destruct angular; eexists; split; reflexivity.
  - eexists. split; reflexivity.
Qed.

(** C2.  A getter built by [_build_getter_linear_f_of_span], constant or
    table, angular or not, returns for a float span fraction an array of
    shape [(1,)], not a float. *)
Theorem linear_getter_of_float_is_array (data : span_data)
    (angular_data : bool) (x : R) :
  exists v : R,
    call_getter (_build_getter_linear_f_of_span data angular_data) (PyFloat x)
    = PyArray {| shape := [1%nat]; data := [v] |}.
Proof.
  destruct data as [v | row0 rows]; cbn.
  - eexists. reflexivity.
  - destruct angular_data; eexists; reflexivity.
Qed.

(** ** The constructor, step by step *)

Lemma bind_Ok {A B} (r : result A) (k : A -> result B) (y : B) :
  Py.bind r k = Ok y -> exists x : A, r = Ok x /\ k x = Ok y.
Proof. destruct r as [x | e]; cbn; [eauto | discriminate]. Qed.

Ltac bind_inv H :=
  let x := fresh "x" in
  let Hx := fresh "Hx" in
  apply bind_Ok in H as (x & Hx & H).

Lemma _initialize_params_Ok (self self' : WingSegment) :
  _initialize_params self = Ok self' ->
  exists p : params_attrs,
    self' = set_params self p /\
    _N p = opt_default (in_grid (_input_dict self)) 40%nat /\
    (0 < _N p)%nat /\
    b p = in_semispan (_input_dict self) /\
    (_node_span_locs p, _cp_span_locs p) =
      span_locs (_N p) (_use_clustering p) (_side self).
Proof.
  unfold _initialize_params. intros H.
  destruct (Nat.eqb_spec (opt_default (in_grid (_input_dict self)) 40%nat) 0)
    as [? | HN]; [discriminate |].
  destruct (span_locs _ _ _) as [node cp] eqn:Hlocs.
  injection H as <-. eexists. split; [reflexivity |]. cbn.
  repeat split; try reflexivity; [lia | now rewrite Hlocs].
Qed.

Lemma _initialize_airfoils_Ok (self self' : WingSegment) (ad : dict Airfoil) :
  _initialize_airfoils self ad = Ok self' ->
  exists a : airfoil_attrs,
    self' = set_airfoils self a /\ select_airfoils (_input_dict self) ad = Ok a.
Proof.
  unfold _initialize_airfoils. intros H. bind_inv H. injection H as <-. eauto.
Qed.

(** An airfoil given by name is stored twice, at the spans 0 and 1. *)
Lemma select_airfoils_constant (input : input_dict) (k nm : string)
    (af0 : Airfoil) (ad : dict Airfoil) (a : airfoil_attrs) :
  opt_default (in_airfoil input) (AirfoilName k) = AirfoilName nm ->
  select_airfoils input ((k, af0) :: ad) = Ok a ->
  exists af : Airfoil,
    get ((k, af0) :: ad) nm = Some af /\
    a = {| _airfoils := [af; af]; _airfoil_spans := [0; 1];
           _num_airfoils := 2 |}.
Proof.
  intros Hnm. unfold select_airfoils. cbn [keys map fst]. rewrite Hnm.
  destruct (get ((k, af0) :: ad) nm) as [af |]; [| discriminate].
  intros H. injection H as <-. eauto.
Qed.

Lemma _setup_control_surface_Ok (self self' : WingSegment)
    (cd : option control_dict) :
  _setup_control_surface self cd = Ok self' ->
  exists c : control_attrs,
    self' = set_control self c /\
    _has_control_surface c = (match cd with Some _ => true | None => false end) /\
    _delta_flap c = 0 /\ _eta_defl c = None /\ _flap_eff c = None /\
    (forall d : control_dict,
        cd = Some d ->
        _control_mixing c = Some (opt_default (ctl_control_mixing d) []) /\
        exists eta : list R, _eta_h_esp_f c = Some eta).
Proof.
  unfold _setup_control_surface. intros H. destruct cd as [cd |].
  - bind_inv H. injection H as <-. eexists. split; [reflexivity |].
    cbn. repeat split; try reflexivity.
    + injection H as <-. reflexivity.
    + eauto.
  - injection H as <-. eexists. split; [reflexivity |]. cbn.
    repeat split; discriminate.
Qed.

Section ConstructorSteps.

Variable quad : (R -> R) -> R -> R -> R.

Lemma _setup_cp_data_Ok (self self' : WingSegment) :
  _setup_cp_data quad self = Ok self' ->
  exists c : cp_attrs, self' = set_cp_data self c.
Proof.
  unfold _setup_cp_data. intros H. repeat bind_inv H.
  injection H as <-. eauto.
Qed.

Lemma _setup_node_data_Ok (self self' : WingSegment) :
  _setup_node_data quad self = Ok self' ->
  exists n : list vec3, self' = set_nodes self n.
Proof.
  unfold _setup_node_data. intros H. repeat bind_inv H.
  injection H as <-. eauto.
Qed.

(** A segment whose [ID] is not 0, as the constructor returns it. *)
Lemma WingSegment_init_Ok (name : string) (input : input_dict)
    (side unit_sys : string) (ad : dict Airfoil) (origin : vec3)
    (self : WingSegment) :
  WingSegment_init quad name input side unit_sys ad origin = Ok self ->
  in_ID input <> Some 0%Z ->
  exists (p : params_attrs) (a : airfoil_attrs) (c : control_attrs)
         (cp : cp_attrs) (n : list vec3),
    self =
      mkWingSegment name input unit_sys side origin [] (in_ID input)
        (Some p)
        (init_getters
           (_initialize_getters (new_object name input side unit_sys origin)))
        (Some a) (Some c) (Some cp) (Some n) /\
    select_airfoils input ad = Ok a /\
    _N p = opt_default (in_grid input) 40%nat /\
    (0 < _N p)%nat /\
    b p = in_semispan input /\
    (_node_span_locs p, _cp_span_locs p) =
      span_locs (_N p) (_use_clustering p) side /\
    _has_control_surface c =
      (match in_control_surface input with Some _ => true | None => false end) /\
    _delta_flap c = 0 /\ _eta_defl c = None /\ _flap_eff c = None /\
    (forall d : control_dict,
        in_control_surface input = Some d ->
        _control_mixing c = Some (opt_default (ctl_control_mixing d) []) /\
        exists eta : list R, _eta_h_esp_f c = Some eta).
Proof.
  unfold WingSegment_init. intros H HID.
  assert (Hid : ID_is (new_object name input side unit_sys origin) 0 = false).
  { unfold ID_is, new_object. cbn. destruct (in_ID input) as [i |]; [| reflexivity].
    destruct (Z.eqb_spec i 0) as [-> | ?]; [congruence | reflexivity]. }
  rewrite Hid in H. cbn [andb negb] in H.
  bind_inv H. bind_inv H. bind_inv H. bind_inv H.
  apply _initialize_params_Ok in Hx as (p & -> & HNeq & HN & Hb & Hlocs).
  apply _initialize_airfoils_Ok in Hx0 as (a & -> & Ha).
  apply _setup_control_surface_Ok in Hx1 as (c & -> & Hc).
  apply _setup_cp_data_Ok in Hx2 as (cp & ->).
  apply _setup_node_data_Ok in H as (n & ->).
  exists p, a, c, cp, n. split; [reflexivity |]. cbn in HNeq, Hb, Hlocs, Ha. auto 10.
Qed.

End ConstructorSteps.

(** ** Orientation vectors *)

Lemma combine_map_same {A B C} (f : A -> B) (g : A -> C) (l : list A) :
  combine (map f l) (map g l) = map (fun x => (f x, g x)) l.
Proof. induction l as [| x l IH]; cbn; [reflexivity | now rewrite IH]. Qed.

Lemma normal_vec_rows (self : WingSegment) (g : getter_attrs) (span : pyval) :
  init_getters self = Some g ->
  _get_normal_vec self span =
  Ok (map (fun s : R =>
             let t := item (call_getter (get_twist g) (PyFloat s)) in
             let d := item (call_getter (get_dihedral g) (PyFloat s)) in
             (- sin t * cos d,
              (if String.eqb (_side self) "left" then sin d else - sin d),
              - cos t * cos d))
        (elements span)).
Proof.
  intros Hg. unfold _get_normal_vec. rewrite Hg. cbn [attr Py.bind].
  rewrite !call_getter_elements, combine_map_same, map_map.
  unfold side_is. f_equal. apply map_ext. intros s. cbn [fst snd].
  destruct (String.eqb (_side self) "left"); reflexivity.
Qed.

(** C4, as the code has it.  At every span fraction [s] the normal vector
    is [(- sin t * cos d, sin d, - cos t * cos d)] on the left side and
    [(- sin t * cos d, - sin d, - cos t * cos d)] otherwise, for the
    twist [t] and the dihedral [d] at [s]: the middle component is positive
    on the left and negative on the right. *)
Theorem normal_vec_components (self : WingSegment) (g : getter_attrs)
    (span : pyval) :
  init_getters self = Some g ->
  _get_normal_vec self span =
  Ok (map (fun s : R =>
             let t := item (call_getter (get_twist g) (PyFloat s)) in
             let d := item (call_getter (get_dihedral g) (PyFloat s)) in
             (- sin t * cos d,
              (if String.eqb (_side self) "left" then sin d else - sin d),
              - cos t * cos d))
        (elements span)).
Proof. exact (normal_vec_rows self g span). Qed.

(** ** The constructor succeeds *)

Lemma span_locs_length (N : nat) (use_clustering : bool) (side : string) :
  List.length (fst (span_locs N use_clustering side)) = (N + 1)%nat /\
  List.length (snd (span_locs N use_clustering side)) = N.
Proof.
  unfold span_locs.
  destruct use_clustering, (String.eqb side "left"); cbn [fst snd];
    rewrite ?length_rev, ?length_map, !linspace_length; auto.
Qed.

Lemma call_getter_length (g : getter) (l : list R) :
  List.length (elements (call_getter g (PyArray (of_list l)))) = List.length l.
Proof. rewrite call_getter_elements. apply length_map. Qed.

Section ConstructorTotal.

Variable quad : (R -> R) -> R -> R -> R.

Lemma get_root_loc_total (self : WingSegment) (p : params_attrs) :
  init_params self = Some p -> exists v : vec3, get_root_loc self = Ok v.
Proof.
  intros Hp. unfold get_root_loc. rewrite Hp.
  destruct (ID_is self 0); cbn; eauto.
Qed.

Lemma _get_section_ac_loc_total (self : WingSegment) (p : params_attrs)
    (g : getter_attrs) (l : list R) :
  init_params self = Some p -> init_getters self = Some g ->
  exists rows : list vec3,
    _get_section_ac_loc quad self (PyArray (of_list l)) = Ok rows.
Proof.
  intros Hp Hg. unfold _get_section_ac_loc, _get_quarter_chord_loc, _get_axial_vec.
  destruct (get_root_loc_total self p Hp) as [root Hroot].
  rewrite Hg, Hp, Hroot. cbn. eauto.
Qed.

Lemma _setup_cp_data_total (self : WingSegment) (p : params_attrs)
    (g : getter_attrs) :
  init_params self = Some p -> init_getters self = Some g ->
  List.length (_cp_span_locs p) = _N p ->
  exists c : cp_attrs, _setup_cp_data quad self = Ok (set_cp_data self c).
Proof.
  intros Hp Hg Hlen. unfold _setup_cp_data.
  destruct (_get_section_ac_loc_total self p g (_cp_span_locs p) Hp Hg)
    as [rows Hrows].
  rewrite Hp. cbn [attr Py.bind]. rewrite Hrows.
  unfold _get_axial_vec, _get_normal_vec, _get_span_vec,
    _get_cp_avg_chord_lengths.
  rewrite Hg, Hp. cbn [attr Py.bind elements data of_list].
  rewrite call_getter_length, Hlen, Nat.eqb_refl. cbn [Py.bind]. eauto.
Qed.

Lemma _setup_node_data_total (self : WingSegment) (p : params_attrs)
    (g : getter_attrs) :
  init_params self = Some p -> init_getters self = Some g ->
  exists n : list vec3, _setup_node_data quad self = Ok (set_nodes self n).
Proof.
  intros Hp Hg. unfold _setup_node_data.
  destruct (_get_section_ac_loc_total self p g (_node_span_locs p) Hp Hg)
    as [rows Hrows].
  rewrite Hp. cbn [attr Py.bind]. rewrite Hrows. cbn. eauto.
Qed.

Lemma _initialize_params_total (self : WingSegment) :
  opt_default (in_grid (_input_dict self)) 40%nat <> 0%nat ->
  exists p : params_attrs,
    _initialize_params self = Ok (set_params self p) /\
    List.length (_cp_span_locs p) = _N p.
Proof.
  intros HN. unfold _initialize_params.
  destruct (Nat.eqb_spec (opt_default (in_grid (_input_dict self)) 40%nat) 0)
    as [? | _]; [contradiction |].
  pose proof (span_locs_length (opt_default (in_grid (_input_dict self)) 40%nat)
                (opt_default (in_use_clustering (_input_dict self)) true)
                (_side self)) as [_ Hlen].
  destruct (span_locs _ _ _) as [node cp]. cbn [snd] in Hlen.
  eexists. split; [reflexivity | exact Hlen].
Qed.

Lemma _initialize_airfoils_total (self : WingSegment) (k nm : string)
    (af0 af : Airfoil) (ad : dict Airfoil) :
  opt_default (in_airfoil (_input_dict self)) (AirfoilName k) = AirfoilName nm ->
  get ((k, af0) :: ad) nm = Some af ->
  _initialize_airfoils self ((k, af0) :: ad) =
  Ok (set_airfoils self
        {| _airfoils := [af; af]; _airfoil_spans := [0; 1];
           _num_airfoils := 2 |}).
Proof.
  intros Hairfoil Hget. unfold _initialize_airfoils, select_airfoils.
  cbn [keys map fst]. rewrite Hairfoil, Hget. reflexivity.
Qed.

Lemma _setup_control_surface_total (self : WingSegment) (p : params_attrs)
    (cd : option control_dict) :
  init_params self = Some p ->
  exists c : control_attrs,
    _setup_control_surface self cd = Ok (set_control self c).
Proof.
  intros Hp. unfold _setup_control_surface. rewrite Hp.
  destruct cd; cbn; eauto.
Qed.

(** The constructor returns a segment when the [ID] is not 0, the grid is
    not empty and the airfoil is a name found among the airfoils. *)
Lemma WingSegment_init_total (name : string) (input : input_dict)
    (side unit_sys : string) (origin : vec3)
    (k : string) (af0 af : Airfoil) (ad : dict Airfoil) (nm : string) :
  in_ID input <> Some 0%Z ->
  opt_default (in_grid input) 40%nat <> 0%nat ->
  opt_default (in_airfoil input) (AirfoilName k) = AirfoilName nm ->
  get ((k, af0) :: ad) nm = Some af ->
  exists self : WingSegment,
    WingSegment_init quad name input side unit_sys ((k, af0) :: ad) origin
    = Ok self.
Proof.
  intros HID HN Hairfoil Hget. unfold WingSegment_init.
  assert (Hid : ID_is (new_object name input side unit_sys origin) 0 = false).
  { unfold ID_is, new_object. cbn. destruct (in_ID input) as [i |]; [| reflexivity].
    destruct (Z.eqb_spec i 0) as [-> | ?]; [congruence | reflexivity]. }
  rewrite Hid. cbn [andb negb].
  destruct (_initialize_params_total (new_object name input side unit_sys origin) HN)
    as (p & -> & Hlen).
  cbn [Py.bind].
  match goal with
  | |- context [_initialize_airfoils ?s _] =>
      rewrite (_initialize_airfoils_total s k nm af0 af ad Hairfoil Hget)
  end.
  cbn [Py.bind].
  match goal with
  | |- context [_setup_control_surface ?s ?cd] =>
      destruct (_setup_control_surface_total s p cd eq_refl) as [c ->]
  end.
  cbn [Py.bind].
  match goal with
  | |- context [_setup_cp_data quad ?s] =>
      destruct (_setup_cp_data_total s p _ eq_refl eq_refl Hlen) as [cpd ->]
  end.
  cbn [Py.bind].
  match goal with
  | |- context [_setup_node_data quad ?s] =>
      destruct (_setup_node_data_total s p _ eq_refl eq_refl) as [n ->]
  end.
  eauto.
Qed.

End ConstructorTotal.

(** ** Control deflection *)

Lemma deflection_efficiency_below (delta_flap : R) :
  delta_flap < 11 -> deflection_efficiency delta_flap = 1.
Proof.
  intros H. unfold deflection_efficiency.
  destruct (Rlt_dec delta_flap 11); [reflexivity | contradiction].
Qed.

Lemma deflection_efficiency_above (delta_flap : R) :
  11 <= delta_flap ->
  deflection_efficiency delta_flap =
  -8.71794871794872E-03 * delta_flap + 1.09589743589744.
Proof.
  intros H. unfold deflection_efficiency.
  destruct (Rlt_dec delta_flap 11); [lra | reflexivity].
Qed.

(** A call that runs to its end: the three attributes it leaves behind. *)
Lemma apply_control_Ok (self : WingSegment) (c : control_attrs)
    (control_state : dict R) (control_symmetry : dict bool)
    (eta : list R) (delta : R) :
  init_control self = Some c ->
  _has_control_surface c = true ->
  _eta_h_esp_f c = Some eta ->
  accumulate_deflection (_side self) (_unit_sys self) (_control_mixing c)
    control_state control_symmetry (keys control_state) 0 = (Ok tt, delta) ->
  apply_control control_state control_symmetry self =
  (Ok tt,
   set_control self
     (with_flap_state c (radians delta) (Some (deflection_efficiency delta))
        (Some (map (fun e => e * deflection_efficiency delta) eta)))).
Proof.
  intros Hc Hcs Heta Hloop. unfold apply_control.
  rewrite Hc, Hcs. cbn [negb]. rewrite Hloop.
  cbn [with_eta_defl with_delta_flap _eta_h_esp_f]. rewrite Heta.
  reflexivity.
Qed.

(** With the control surface off, [get_cp_flap] is 0 and [apply_control]
    returns at once. *)
Lemma control_surface_off (self : WingSegment) (c : control_attrs) :
  init_control self = Some c ->
  _has_control_surface c = false ->
  get_cp_flap self = (Ok (PyFloat 0), self) /\
  forall (control_state : dict R) (control_symmetry : dict bool),
    apply_control control_state control_symmetry self = (Ok tt, self).
Proof.
  intros Hc Hoff. split.
  - unfold get_cp_flap, reading. rewrite Hc. cbn. rewrite Hoff. reflexivity.
  - intros control_state control_symmetry. unfold apply_control.
    rewrite Hc, Hoff. reflexivity.
Qed.

(** C7, as the code has it.  A segment other than the origin (whose [ID]
    is 0, and on which neither method returns) constructed from an input
    without a [control_surface] entry: its [get_cp_flap] returns the float
    0 and its [apply_control] returns leaving the object as it was,
    whatever the control state and the control symmetry. *)
Theorem no_control_surface_no_effect (quad : (R -> R) -> R -> R -> R)
    (name : string) (input : input_dict) (side unit_sys : string)
    (airfoil_dict : dict Airfoil) (origin : vec3) (self : WingSegment) :
  WingSegment_init quad name input side unit_sys airfoil_dict origin = Ok self ->
  in_ID input <> Some 0%Z ->
  in_control_surface input = None ->
  get_cp_flap self = (Ok (PyFloat 0), self) /\
  forall (control_state : dict R) (control_symmetry : dict bool),
    apply_control control_state control_symmetry self = (Ok tt, self).
Proof.
  intros Hinit HID Hnone.
  destruct (WingSegment_init_Ok quad _ _ _ _ _ _ _ Hinit HID)
    as (p & a & c & cp & n & -> & _ & _ & _ & _ & _ & Hcs & _).
  rewrite Hnone in Hcs. now apply (control_surface_off _ c).
Qed.

(** C10.  On a segment with a control surface, a second call of
    [apply_control] with the same arguments returns what the first
    returned and leaves the object as the first left it; and the object a
    completed call leaves does not depend on the deflection, deflection
    efficiency and flap efficiency stored before the call. *)
Theorem apply_control_does_not_accumulate (self : WingSegment)
    (c : control_attrs) (control_state : dict R) (control_symmetry : dict bool) :
  init_control self = Some c ->
  _has_control_surface c = true ->
  apply_control control_state control_symmetry
    (snd (apply_control control_state control_symmetry self))
  = apply_control control_state control_symmetry self /\
  forall (delta_flap : R) (eta_defl : option R) (flap_eff : option (list R)),
    fst (apply_control control_state control_symmetry self) = Ok tt ->
    apply_control control_state control_symmetry
      (set_control self (with_flap_state c delta_flap eta_defl flap_eff))
    = apply_control control_state control_symmetry self.
Proof.
  intros Hc Hcs. unfold apply_control. rewrite Hc, Hcs. cbn [negb].
  destruct (accumulate_deflection _ _ _ _ _ _ _) as [r delta] eqn:Hloop.
  split.
  - destruct r as [[] | e].
    + cbn [with_eta_defl with_delta_flap _eta_h_esp_f].
      destruct (_eta_h_esp_f c) as [eta |] eqn:Heta;
        cbn [snd init_control set_control _has_control_surface with_flap_eff
             with_delta_flap with_eta_defl _control_mixing _side _unit_sys
             _eta_h_esp_f negb];
        rewrite Hcs; cbn [negb]; rewrite Hloop, ?Heta; reflexivity.
    + cbn [snd init_control set_control _has_control_surface with_delta_flap
           _control_mixing _side _unit_sys negb].
      rewrite Hcs. cbn [negb]. rewrite Hloop. reflexivity.
  - intros delta_flap eta_defl flap_eff Hok.
    cbn [init_control set_control _has_control_surface with_flap_state
         _control_mixing _side _unit_sys].
    rewrite Hcs. cbn [negb]. rewrite Hloop.
    destruct r as [[] | e]; [| discriminate Hok].
    cbn [with_eta_defl with_delta_flap _eta_h_esp_f] in *.
    destruct (_eta_h_esp_f c) as [eta |] eqn:Heta; [| discriminate Hok].
    cbn [_eta_h_esp_f with_flap_state]. rewrite Heta. reflexivity.
Qed.

(** C3, on the code.  A right-side segment whose control surface follows
    the aileron with gain 1, and an aileron deflection of -20 degrees: the
    net deflection is -20 degrees, beyond 11 degrees in magnitude, and the
    deflection efficiency the call stores is 1, not the value of the linear
    fit at 20 degrees, which is below 1. *)
Theorem apply_control_upward_deflection :
  exists self : WingSegment,
    WingSegment_init rectangle_rule "wing_right" aileron_input "right"
      "English" example_airfoils (0, 0, 0) = Ok self /\
    exists (self' : WingSegment) (c' : control_attrs),
      apply_control [("aileron"%string, -20)] [("aileron"%string, false)] self
      = (Ok tt, self') /\
      init_control self' = Some c' /\
      _delta_flap c' = radians (-20) /\
      _eta_defl c' = Some 1 /\
      11 <= Rabs (-20) /\
      -8.71794871794872E-03 * Rabs (-20) + 1.09589743589744 < 1.
Proof.
  destruct (WingSegment_init_total rectangle_rule "wing_right" aileron_input
              "right" "English" (0, 0, 0) "NACA_0010" example_airfoil
              example_airfoil [] "NACA_0010") as [self Hself];
    [discriminate | discriminate | reflexivity | reflexivity |].
  exists self. split; [exact Hself |].
  destruct (WingSegment_init_Ok _ _ _ _ _ _ _ _ Hself ltac:(discriminate))
    as (p & a & c & cp & n & Heq & _ & _ & _ & _ & _ & Hcs & _ & _ & _ & Hsurf).
  destruct (Hsurf aileron_control eq_refl) as (Hmix & eta & Heta).
  cbn in Hcs, Hmix.
  assert (Hloop :
    accumulate_deflection (_side self) (_unit_sys self) (_control_mixing c)
      [("aileron"%string, -20)] [("aileron"%string, false)]
      (keys [("aileron"%string, -20)]) 0 = (Ok tt, -20)).
  { rewrite Heq, Hmix. cbn. f_equal. lra. }
  rewrite (apply_control_Ok self c _ _ eta (-20)
             ltac:(rewrite Heq; reflexivity) Hcs Heta Hloop).
  do 2 eexists. split; [reflexivity |].
  split; [reflexivity |]. cbn.
  rewrite deflection_efficiency_below by lra.
  repeat split.
  - rewrite Rabs_left by lra. lra.
  - rewrite Rabs_left by lra. lra.
Qed.

(** ** Coefficient queries *)

Lemma get_cp_unfold (k : coefficient) (params : matrix) (self : WingSegment) :
  get_cp k params self =
  (coefficient_query (airfoil_coefficient k) (fourth_column_of k) params self,
   self).
Proof. destruct k; reflexivity. Qed.

Lemma mapM_Raise {A B} (f : A -> result B) (l : list A) (e : exn) :
  mapM f l = Raise e -> exists x : A, In x l /\ f x = Raise e.
Proof.
  induction l as [| x l IH]; cbn; [discriminate |].
  destruct (f x) as [y | e'] eqn:Hfx.
  - destruct (mapM f l) as [ys | e'']; [discriminate |].
    intros H. injection H as ->. destruct (IH eq_refl) as (x' & Hin & Hx').
    eauto.
  - intros H. injection H as ->. eauto.
Qed.

Lemma mapM_Ok {A B} (f : A -> result B) (g : A -> B) (l : list A) :
  (forall x : A, In x l -> f x = Ok (g x)) -> mapM f l = Ok (map g l).
Proof.
  induction l as [| x l IH]; cbn; intros H; [reflexivity |].
  rewrite (H x) by auto. rewrite IH by auto. reflexivity.
Qed.

Lemma first_three_not_mismatch (row : list R) :
  first_three row <> Raise params_mismatch.
Proof.
  destruct row as [| p0 [| p1 [| p2 [| p3 row]]]]; cbn; discriminate.
Qed.

Lemma column_not_mismatch (N : nat) (v : pyval) :
  column N v <> Raise params_mismatch.
Proof.
  destruct v as [x | a]; cbn; [discriminate |].
  destruct (List.length (data a) =? N)%nat; [discriminate |].
  destruct (data a) as [| x [| y l]]; discriminate.
Qed.

Lemma interpolate_at_not_mismatch (sample : list R) (s : R) (coefs : list R) :
  interpolate_at sample s coefs <> Raise params_mismatch.
Proof.
  unfold interpolate_at.
  repeat match goal with
         | |- context [match nth_error ?l ?j with _ => _ end] =>
             destruct (nth_error l j)
         end; discriminate.
Qed.

Lemma new_params_not_mismatch (fourth_column : control_attrs -> result pyval)
    (params : matrix) (self : WingSegment) (p : params_attrs) :
  (forall c : control_attrs, fourth_column c <> Raise params_mismatch) ->
  init_params self = Some p ->
  List.length params = _N p ->
  new_params fourth_column params self <> Raise params_mismatch.
Proof.
  intros Hcol Hp Hlen. unfold new_params. rewrite Hp. cbn [attr Py.bind].
  rewrite Hlen, Nat.eqb_refl. cbn [negb].
  destruct (mapM first_three params) as [first | e] eqn:Hfirst; cbn [Py.bind].
  2:{ intros H. injection H as ->.
      apply mapM_Raise in Hfirst as (row & _ & Hrow).
      now apply first_three_not_mismatch in Hrow. }
  destruct (init_control self) as [c |]; cbn [attr Py.bind]; [| discriminate].
  destruct (_has_control_surface c); cbn [Py.bind]; [| discriminate].
  destruct (fourth_column c) as [v | e] eqn:Hv; cbn [Py.bind].
  2:{ intros H. injection H as ->. now apply Hcol in Hv. }
  destruct (column (_N p) v) as [col3 | e] eqn:Hcol3; cbn [Py.bind];
    [discriminate |].
  intros H. injection H as ->. now apply column_not_mismatch in Hcol3.
Qed.

Lemma fourth_column_not_mismatch (k : coefficient) (c : control_attrs) :
  fourth_column_of k c <> Raise params_mismatch.
Proof.
  destruct k; cbn; unfold flap_eff_column, Cm_delta_flap_column;
    try discriminate; destruct (_flap_eff c); discriminate.
Qed.

(** C5.  For each of the seven coefficient queries, on a segment with [N]
    control points: when the number of rows of [params] is not [N] the
    call raises the row-count error and returns nothing else; when it is
    [N] that error is not raised; and in every case the object is left as
    it was. *)
Theorem row_count_is_checked (k : coefficient) (params : matrix)
    (self : WingSegment) (p : params_attrs) :
  init_params self = Some p ->
  (List.length params <> _N p ->
   get_cp k params self = (Raise params_mismatch, self)) /\
  (List.length params = _N p ->
   fst (get_cp k params self) <> Raise params_mismatch) /\
  snd (get_cp k params self) = self.
Proof.
  intros Hp. rewrite get_cp_unfold. cbn [fst snd].
  split; [| split; [| reflexivity]].
  - intros Hlen. f_equal. unfold coefficient_query, new_params.
    rewrite Hp. cbn [attr Py.bind].
    destruct (Nat.eqb_spec (List.length params) (_N p)) as [? | _];
      [contradiction | reflexivity].
  - intros Hlen. unfold coefficient_query.
    pose proof (new_params_not_mismatch (fourth_column_of k) params self p
                  (fourth_column_not_mismatch k) Hp Hlen) as Hnew.
    destruct (new_params _ params self) as [rows | e]; cbn [Py.bind];
      [| congruence].
    rewrite Hp. cbn [attr Py.bind].
    destruct (init_airfoils self) as [a |]; cbn [attr Py.bind]; [| discriminate].
    match goal with
    | |- Py.bind ?m _ <> _ => destruct m as [coefs | e] eqn:Hcoefs
    end; cbn [Py.bind].
    + unfold _airfoil_interpolator. intros H.
      apply mapM_Raise in H as (sc & _ & H).
      now apply interpolate_at_not_mismatch in H.
    + intros H. injection H as ->.
      apply mapM_Raise in Hcoefs as (row & _ & Hrow).
      apply mapM_Raise in Hrow as (j & _ & Hj).
      destruct (nth_error (_airfoils a) j); discriminate.
Qed.

(** ** A single airfoil along the span *)

(** Between two stations that carry the same value the blend returns it. *)
Lemma interpolate_at_constant (s v : R) :
  0 <= s <= 1 -> interpolate_at [0; 1] s [v; v] = Ok v.
Proof.
  intros Hs. unfold interpolate_at. cbn [searchsorted].
  destruct (Rle_dec s 0) as [H0 | H0].
  - cbn. f_equal. field.
  - destruct (Rle_dec s 1) as [H1 | H1]; [| lra]. cbn. f_equal. field.
Qed.

Lemma _airfoil_interpolator_constant (g : list R -> R) (rows : matrix) :
  forall cp : list R,
    within_unit_interval cp ->
    List.length cp = List.length rows ->
    _airfoil_interpolator cp [0; 1] (map (fun row => [g row; g row]) rows)
    = Ok (map g rows).
Proof.
  unfold _airfoil_interpolator.
  induction rows as [| row rows IH]; intros cp Hcp Hlen.
  - destruct cp; [reflexivity | discriminate].
  - destruct cp as [| s cp]; [discriminate |].
    inversion Hcp as [| ? ? Hs Hcp']; subst.
    cbn [map combine mapM fst snd].
    rewrite interpolate_at_constant by assumption.
    rewrite IH by (auto; cbn in Hlen; lia). reflexivity.
Qed.

Lemma column_length (N : nat) (v : pyval) (col : list R) :
  column N v = Ok col -> List.length col = N.
Proof.
  destruct v as [x | a]; cbn.
  - intros H. injection H as <-. apply repeat_length.
  - destruct (Nat.eqb_spec (List.length (data a)) N) as [Hlen | _].
    + intros H. injection H as <-. exact Hlen.
    + destruct (data a) as [| x [| y l]]; try discriminate.
      intros H. injection H as <-. apply repeat_length.
Qed.

Lemma mapM_length {A B} (f : A -> result B) (l : list A) (l' : list B) :
  mapM f l = Ok l' -> List.length l' = List.length l.
Proof.
  revert l'. induction l as [| x l IH]; cbn; intros l' H.
  - injection H as <-. reflexivity.
  - destruct (f x); [| discriminate]. destruct (mapM f l); [| discriminate].
    injection H as <-. cbn. f_equal. now apply IH.
Qed.

(** [new_params] has one row per control point. *)
Lemma new_params_length (fourth_column : control_attrs -> result pyval)
    (params rows : matrix) (self : WingSegment) (p : params_attrs) :
  init_params self = Some p ->
  new_params fourth_column params self = Ok rows ->
  List.length rows = _N p.
Proof.
  intros Hp. unfold new_params. rewrite Hp. cbn [attr Py.bind].
  destruct (Nat.eqb_spec (List.length params) (_N p)) as [Hlen | _];
    cbn [negb]; [| discriminate].
  intros H. bind_inv H. bind_inv H. bind_inv H. injection H as <-.
  apply mapM_length in Hx. rewrite length_map, !length_combine, repeat_length.
  assert (List.length x1 = _N p).
  { destruct (_has_control_surface x0).
    - bind_inv Hx1. now apply column_length in Hx1.
    - injection Hx1 as <-. apply repeat_length. }
  lia.
Qed.

Lemma constant_airfoil_rows (coef : Airfoil -> list R -> R) (af : Airfoil)
    (rows : matrix) :
  mapM (fun row =>
          mapM (fun j => match nth_error [af; af] j with
                         | Some af' => Ok (coef af' row)
                         | None => Raise IndexError
                         end)
            (seq 0 2))
    rows
  = Ok (map (fun row => [coef af row; coef af row]) rows).
Proof. apply mapM_Ok. intros row _. reflexivity. Qed.

Lemma constant_airfoil_coefficient_query (coef : Airfoil -> list R -> R)
    (fourth_column : control_attrs -> result pyval) (self : WingSegment)
    (p : params_attrs) (af : Airfoil) (params rows : matrix) :
  init_params self = Some p ->
  init_airfoils self =
    Some {| _airfoils := [af; af]; _airfoil_spans := [0; 1];
            _num_airfoils := 2 |} ->
  within_unit_interval (_cp_span_locs p) ->
  List.length (_cp_span_locs p) = _N p ->
  new_params fourth_column params self = Ok rows ->
  coefficient_query coef fourth_column params self = Ok (map (coef af) rows).
Proof.
  intros Hp Ha Hcp Hlen Hrows. unfold coefficient_query.
  rewrite Hrows, Hp, Ha.
  cbn [attr Py.bind _airfoils _airfoil_spans _num_airfoils].
  rewrite constant_airfoil_rows. cbn [Py.bind].
  apply _airfoil_interpolator_constant; [assumption |].
  rewrite Hlen. symmetry. now apply (new_params_length fourth_column params _ self).
Qed.


(** The rows of [new_params] with a control surface, after
    [apply_control]: the flap efficiency and the deflection follow the
    three columns of [params]. *)
Lemma new_params_control_on (params : matrix) (self : WingSegment)
    (p : params_attrs) (c : control_attrs) (flap_eff : list R) :
  init_params self = Some p ->
  init_control self = Some c ->
  _has_control_surface c = true ->
  _flap_eff c = Some flap_eff ->
  List.length flap_eff = _N p ->
  List.length params = _N p ->
  Forall (fun row => List.length row = 3%nat) params ->
  new_params flap_eff_column params self
  = Ok (map (fun r : list R * R => fst r ++ [snd r; _delta_flap c])
          (combine params flap_eff)).
Proof.
  intros Hp Hc Hon Heff Hlen_eff Hlen Hrows. unfold new_params.
  rewrite Hp, Hc. cbn [attr Py.bind]. rewrite Hlen, Nat.eqb_refl. cbn [negb].
  rewrite (mapM_Ok first_three (fun row => row)).
  2:{ intros row Hin. rewrite Forall_forall in Hrows. specialize (Hrows row Hin).
      destruct row as [| p0 [| p1 [| p2 [| p3 row]]]]; try discriminate.
      reflexivity. }
  rewrite map_id. cbn [Py.bind]. rewrite Hon. unfold flap_eff_column.
  rewrite Heff. cbn [attr Py.bind column of_list data].
  rewrite Hlen_eff, Nat.eqb_refl. cbn [Py.bind]. f_equal.
  rewrite <- Hlen_eff. clear. revert params.
  induction flap_eff as [| e flap_eff IH]; intros [| row params]; cbn;
    try reflexivity. now rewrite IH.
Qed.

(** ** Quarter-chord line of a straight segment *)

(** A constant angle of zero degrees is stored as zero radians. *)
Lemma zero_angle_getter (s : R) :
  item (call_getter (_build_getter_linear_f_of_span (Constant 0) true) (PyFloat s))
  = 0.
Proof. cbn. unfold radians. lra. Qed.

Section StraightSegment.

Variable quad : (R -> R) -> R -> R -> R.
Hypothesis quad_exact : exact_on_constants quad.

Variables (self : WingSegment) (p : params_attrs) (g : getter_attrs).
Hypothesis Hp : init_params self = Some p.
Hypothesis Hg : init_getters self = Some g.
Hypothesis zero_sweep :
  forall s : R, item (call_getter (get_sweep g) (PyFloat s)) = 0.
Hypothesis zero_dihedral :
  forall s : R, item (call_getter (get_dihedral g) (PyFloat s)) = 0.

(** The displacement of the quarter chord at span fraction [s]. *)
Lemma straight_displacement (root : vec3) (s : R) :
  vadd root
    (quad (fun t => - tan (item (call_getter (get_sweep g) (PyFloat t)))) 0 s
     * b p,
     (if side_is self "left" then
        quad (fun t => - cos (item (call_getter (get_dihedral g) (PyFloat t))))
          0 s * b p
      else
        quad (fun t => cos (item (call_getter (get_dihedral g) (PyFloat t))))
          0 s * b p),
     quad (fun t => - sin (item (call_getter (get_dihedral g) (PyFloat t)))) 0 s
     * b p)
  = vadd root
      (vscale s (if side_is self "left" then (0, - b p, 0) else (0, b p, 0))).
Proof.
  rewrite (quad_exact _ 0 0 s)
    by (intros t; rewrite zero_sweep, tan_0; lra).
  rewrite (quad_exact (fun t => - sin _) 0 0 s)
    by (intros t; rewrite zero_dihedral, sin_0; lra).
  destruct root as [[r0 r1] r2]. destruct (side_is self "left").
  - rewrite (quad_exact _ (-1) 0 s)
      by (intros t; rewrite zero_dihedral, cos_0; lra).
    cbn [vadd vscale]. f_equal; [f_equal |]; ring.
  - rewrite (quad_exact _ 1 0 s)
      by (intros t; rewrite zero_dihedral, cos_0; lra).
    cbn [vadd vscale]. f_equal; [f_equal |]; ring.
Qed.

Lemma straight_quarter_chord (root : vec3) (span : pyval) :
  get_root_loc self = Ok root ->
  _get_quarter_chord_loc quad self span =
  let along (s : R) :=
    vadd root
      (vscale s (if side_is self "left" then (0, - b p, 0) else (0, b p, 0))) in
  Ok (match span with
      | PyFloat s => Point (along s)
      | PyArray a => Points (map along (data a))
      end).
Proof.
  intros Hroot. unfold _get_quarter_chord_loc.
  rewrite Hg, Hp, Hroot. cbn [attr Py.bind]. cbv zeta. f_equal.
  rewrite map_map.
  destruct span as [s | a]; cbn [elements map hd].
  - f_equal. apply straight_displacement.
  - f_equal. apply map_ext. intros s. apply straight_displacement.
Qed.

Lemma straight_tip (root : vec3) :
  ID_is self 0 = false ->
  get_root_loc self = Ok root ->
  get_tip_loc quad self =
  Ok (vadd root (if side_is self "left" then (0, - b p, 0) else (0, b p, 0))).
Proof.
  intros HID Hroot. unfold get_tip_loc. rewrite HID.
  rewrite (straight_quarter_chord root (PyFloat 1) Hroot).
  cbn [Py.bind point_of]. f_equal. destruct root as [[r0 r1] r2].
  destruct (side_is self "left"); cbn [vadd vscale]; (f_equal; [f_equal |]; ring).
Qed.

End StraightSegment.

(** C8.  A segment (not the origin) with semispan [b] whose sweep and
    dihedral are zero all along the span, with an integrator that is exact
    on constants: the tip is at the root plus [(0, b, 0)] on the right side
    and plus [(0, - b, 0)] on the left side, and the quarter chord at span
    fraction [s] is at the root plus [s] times that displacement, for a
    float and for every entry of an array. *)
Theorem straight_segment_geometry (quad : (R -> R) -> R -> R -> R)
    (self : WingSegment) (p : params_attrs) (g : getter_attrs) (root : vec3) :
  exact_on_constants quad ->
  init_params self = Some p ->
  init_getters self = Some g ->
  ID_is self 0 = false ->
  (forall s : R, item (call_getter (get_sweep g) (PyFloat s)) = 0) ->
  (forall s : R, item (call_getter (get_dihedral g) (PyFloat s)) = 0) ->
  get_root_loc self = Ok root ->
  let to_tip := if String.eqb (_side self) "left" then (0, - b p, 0)
                else (0, b p, 0) in
  (_side self = "right"%string -> to_tip = (0, b p, 0)) /\
  (_side self = "left"%string -> to_tip = (0, - b p, 0)) /\
  get_tip_loc quad self = Ok (vadd root to_tip) /\
  (forall s : R,
      _get_quarter_chord_loc quad self (PyFloat s)
      = Ok (Point (vadd root (vscale s to_tip)))) /\
  (forall a : ndarray,
      _get_quarter_chord_loc quad self (PyArray a)
      = Ok (Points (map (fun s => vadd root (vscale s to_tip)) (data a)))).
Proof.
  intros Hquad Hp Hg HID Hsweep Hdihedral Hroot to_tip.
  repeat split.
  - intros Hside. unfold to_tip. now rewrite Hside.
  - intros Hside. unfold to_tip. now rewrite Hside.
  - exact (straight_tip quad Hquad self p g Hp Hg Hsweep Hdihedral root HID Hroot).
  - intros s.
    exact (straight_quarter_chord quad Hquad self p g Hp Hg Hsweep Hdihedral
             root (PyFloat s) Hroot).
  - intros a.
    exact (straight_quarter_chord quad Hquad self p g Hp Hg Hsweep Hdihedral
             root (PyArray a) Hroot).
Qed.

(** ** The tree of segments *)

(** Induction on a segment with the attached segments as hypotheses. *)
Lemma WingSegment_tree_ind (P : WingSegment -> Prop) :
  (forall t : WingSegment,
      (forall (key : string) (child : WingSegment),
          In (key, child) (_attached_segments t) -> P child) ->
      P t) ->
  forall t : WingSegment, P t.
Proof.
  intros step.
  fix IH 1. intros [nm input us sd org kids id ip ig ia ic icp nd].
  apply step. cbn [_attached_segments].
  induction kids as [| [k c] kids IHkids]; intros key child Hin.
  - destruct Hin.
  - destruct Hin as [Heq | Hin].
    + injection Heq as _ <-. apply IH.
    + exact (IHkids key child Hin).
Qed.

Lemma get_setitem {V} (d : dict V) (k : string) (v : V) :
  get (setitem d k v) k = Some v.
Proof.
  induction d as [| [k' v'] d IH]; cbn.
  - now rewrite String.eqb_refl.
  - destruct (String.eqb k k') eqn:Hk; cbn; rewrite ?String.eqb_refl, ?Hk; auto.
Qed.

(** *** The constructor raises no [RuntimeError] *)

Lemma never_Ok {A} (x : A) : never_RuntimeError (Ok x).
Proof. intros msg. discriminate. Qed.

Lemma never_attr {A} (nm : string) (o : option A) :
  never_RuntimeError (attr nm o).
Proof. intros msg. destruct o; discriminate. Qed.

Lemma never_bind {A B} (r : result A) (k : A -> result B) :
  never_RuntimeError r ->
  (forall x : A, never_RuntimeError (k x)) ->
  never_RuntimeError (Py.bind r k).
Proof.
  intros Hr Hk msg. destruct r as [x | e]; cbn.
  - apply Hk.
  - intros H. injection H as ->. exact (Hr msg eq_refl).
Qed.

Ltac never_runtime :=
  repeat first
    [ apply never_Ok
    | apply never_attr
    | apply never_bind; [| intros ?]
    | match goal with
      | |- never_RuntimeError (if ?c then _ else _) => destruct c
      | |- never_RuntimeError (match ?x with _ => _ end) => destruct x
      | |- never_RuntimeError (Raise _) => intros ?; discriminate
      end ].

Lemma never_get_root_loc (self : WingSegment) :
  never_RuntimeError (get_root_loc self).
Proof. unfold get_root_loc. never_runtime. Qed.

Lemma never_airfoil_rows (ad : dict Airfoil) (rows : list (R * string)) :
  never_RuntimeError (airfoil_rows ad rows).
Proof.
  induction rows as [| [span nm] rows IH]; cbn [airfoil_rows].
  - never_runtime.
  - apply never_bind; [unfold getitem; never_runtime |].
    intros af. apply never_bind; [exact IH | intros ?; never_runtime].
Qed.

Lemma never_initialize_params (self : WingSegment) :
  never_RuntimeError (_initialize_params self).
Proof.
  unfold _initialize_params.
  destruct (_ =? 0)%nat; [intros ?; discriminate |].
  destruct (span_locs _ _ _). never_runtime.
Qed.

Lemma never_initialize_airfoils (self : WingSegment) (ad : dict Airfoil) :
  never_RuntimeError (_initialize_airfoils self ad).
Proof.
  unfold _initialize_airfoils, select_airfoils.
  apply never_bind; [| intros ?; never_runtime].
  destruct (keys ad); [never_runtime |].
  destruct (opt_default _ _); [never_runtime | | never_runtime].
  apply never_bind; [apply never_airfoil_rows | intros ?; never_runtime].
Qed.

Lemma never_setup_control_surface (self : WingSegment)
    (cd : option control_dict) :
  never_RuntimeError (_setup_control_surface self cd).
Proof. unfold _setup_control_surface. never_runtime. Qed.

Section AttachProperties.

Variable quad : (R -> R) -> R -> R -> R.

Lemma never_get_quarter_chord_loc (self : WingSegment) (span : pyval) :
  never_RuntimeError (_get_quarter_chord_loc quad self span).
Proof.
  unfold _get_quarter_chord_loc.
  apply never_bind; [apply never_attr | intros g].
  apply never_bind; [apply never_attr | intros p].
  apply never_bind; [apply never_get_root_loc | intros root].
  apply never_Ok.
Qed.

Lemma never_get_tip_loc (self : WingSegment) :
  never_RuntimeError (get_tip_loc quad self).
Proof.
  unfold get_tip_loc. destruct (ID_is self 0); [apply never_Ok |].
  apply never_bind; [apply never_get_quarter_chord_loc | intros loc].
  never_runtime.
Qed.

Lemma never_get_section_ac_loc (self : WingSegment) (span : pyval) :
  never_RuntimeError (_get_section_ac_loc quad self span).
Proof.
  unfold _get_section_ac_loc, _get_axial_vec.
  apply never_bind; [apply never_get_quarter_chord_loc | intros loc].
  never_runtime.
Qed.

Lemma never_setup_cp_data (self : WingSegment) :
  never_RuntimeError (_setup_cp_data quad self).
Proof.
  unfold _setup_cp_data, _get_axial_vec, _get_normal_vec, _get_span_vec,
    _get_cp_avg_chord_lengths.
  apply never_bind; [apply never_attr | intros p].
  apply never_bind; [never_runtime | intros u_a].
  apply never_bind; [never_runtime | intros u_n].
  apply never_bind; [never_runtime | intros u_s].
  apply never_bind; [apply never_get_section_ac_loc | intros cps].
  never_runtime.
Qed.

Lemma never_setup_node_data (self : WingSegment) :
  never_RuntimeError (_setup_node_data quad self).
Proof.
  unfold _setup_node_data.
  apply never_bind; [apply never_attr | intros p].
  apply never_bind; [apply never_get_section_ac_loc | intros ns].
  apply never_Ok.
Qed.

Lemma never_WingSegment_init (name : string) (input : input_dict)
    (side unit_sys : string) (ad : dict Airfoil) (origin : vec3) :
  never_RuntimeError (WingSegment_init quad name input side unit_sys ad origin).
Proof.
  unfold WingSegment_init.
  destruct (_ && _); [intros ?; discriminate |].
  destruct (negb _); [| apply never_Ok].
  apply never_bind; [apply never_initialize_params | intros s1].
  apply never_bind; [apply never_initialize_airfoils | intros s2].
  apply never_bind; [apply never_setup_control_surface | intros s3].
  apply never_bind; [apply never_setup_cp_data | intros s4].
  apply never_setup_node_data.
Qed.

(** *** Attachment *)

Variables (wing_segment_name : string) (input : input_dict).
Variables (side unit_sys : string) (airfoil_dict : dict Airfoil).

Let pid : Z := parent_ID_of input.
Let attach (t : WingSegment) : result (option WingSegment) * WingSegment :=
  _attach_wing_segment quad t wing_segment_name input side unit_sys
    airfoil_dict.
Let outcome := attach_outcome quad wing_segment_name input side unit_sys
                 airfoil_dict.
Let parent_of := is_parent_of pid wing_segment_name.

Lemma on_side_split (P : WingSegment -> Prop) (t : WingSegment) :
  on_side side P t <-> P t \/ found_below side P (_attached_segments t).
Proof.
  split.
  - intros H. destruct H as [t H | t key child Hin Hside H]; [now left |].
    right. exists key, child. auto.
  - intros [H | (key & child & Hin & Hside & H)].
    + now apply on_side_here.
    + now apply (on_side_below side P t key child).
Qed.

Lemma found_below_cons (P : WingSegment -> Prop) (key : string)
    (child : WingSegment) (kids : dict WingSegment) :
  found_below side P ((key, child) :: kids) <->
  (contains side key = true /\ on_side side P child) \/ found_below side P kids.
Proof.
  unfold found_below. split.
  - intros (k & c & [Heq | Hin] & Hside & H).
    + injection Heq as <- <-. auto.
    + right. exists k, c. auto.
  - intros [[Hside H] | (k & c & Hin & Hside & H)].
    + exists key, child. cbn. auto.
    + exists k, c. cbn. auto.
Qed.

(** The loop, given what the call returns on each child on the side. *)
Lemma attach_loop_outcome (kids : dict WingSegment) :
  (forall (key : string) (child : WingSegment),
      In (key, child) kids ->
      contains side key = true ->
      outcome (on_side side (has_ID pid) child)
        (fun new => on_side side (parent_of new) (snd (attach child)))
        (fst (attach child))) ->
  outcome (found_below side (has_ID pid) kids)
    (fun new =>
       found_below side (parent_of new) (snd (attach_loop attach side kids)))
    (fst (attach_loop attach side kids)).
Proof.
  induction kids as [| [key child] rest IH]; intros Hkids.
  - cbn. intros (k & c & [] & _).
  - assert (IHrest := IH (fun k c Hin => Hkids k c (or_intror Hin))).
    clear IH. cbn [attach_loop].
    destruct (contains side key) eqn:Hside; cbn [negb].
    + specialize (Hkids key child (or_introl eq_refl) Hside).
      destruct (attach child) as [r child'] eqn:Hchild. cbn [fst snd] in Hkids.
      destruct r as [[new |] | e].
      * cbn [fst snd]. destruct Hkids as (Hfound & Hreg & Hpt).
        repeat split; [| | exact Hpt].
        -- apply found_below_cons. auto.
        -- apply found_below_cons. auto.
      * destruct (attach_loop attach side rest) as [r' rest'] eqn:Hrest.
        cbn [fst snd] in *. cbn in Hkids.
        destruct r' as [[new |] | e]; cbn in IHrest |- *.
        -- destruct IHrest as (Hfound & Hreg & Hpt).
           repeat split; [| | exact Hpt]; apply found_below_cons; auto.
        -- intros H. apply found_below_cons in H as [[_ H] | H]; auto.
        -- destruct IHrest as (Hfound & Hne).
           split; [apply found_below_cons; auto | exact Hne].
      * cbn [fst snd]. destruct Hkids as (Hfound & Hne).
        split; [apply found_below_cons; auto | exact Hne].
    + destruct (attach_loop attach side rest) as [r' rest'] eqn:Hrest.
      cbn [fst snd] in *.
      destruct r' as [[new |] | e]; cbn in IHrest |- *.
      * destruct IHrest as (Hfound & Hreg & Hpt).
        repeat split; [| | exact Hpt]; apply found_below_cons; auto.
      * intros H. apply found_below_cons in H as [[Hc _] | H]; [congruence | auto].
      * destruct IHrest as (Hfound & Hne).
        split; [apply found_below_cons; auto | exact Hne].
Qed.

Lemma attach_unfold (t : WingSegment) :
  attach t =
  if ID_is t pid then
    match (pt <- (if String.eqb (location_of input) "root"
                  then get_root_loc t else get_tip_loc quad t) ;;
           WingSegment_init quad wing_segment_name input side unit_sys
             airfoil_dict pt)%py with
    | Raise e => (Raise e, t)
    | Ok new =>
        (Ok (Some new),
         set_attached t (setitem (_attached_segments t) wing_segment_name new))
    end
  else
    let '(result, kids') := attach_loop attach side (_attached_segments t) in
    match result with
    | Ok None =>
        if ID_is t 0 then
          (Raise (could_not_attach wing_segment_name), set_attached t kids')
        else (Ok None, set_attached t kids')
    | _ => (result, set_attached t kids')
    end.
Proof. destruct t. reflexivity. Qed.

(** The segment that has the parent's [ID]: construction and
    registration. *)
Lemma attach_here (t : WingSegment) :
  ID_is t pid = true ->
  match fst (attach t) with
  | Ok None => False
  | r =>
      outcome (on_side side (has_ID pid) t)
        (fun new => on_side side (parent_of new) (snd (attach t))) r
  end.
Proof.
  intros Hid. rewrite attach_unfold, Hid.
  assert (Hfound : on_side side (has_ID pid) t) by now apply on_side_here.
  match goal with
  | |- context [Py.bind ?r ?k] =>
      assert (Hnever : never_RuntimeError (Py.bind r k));
        [| destruct (Py.bind r k) as [new | e] eqn:Hnew]
  end.
  - apply never_bind; [| intros pt; apply never_WingSegment_init].
    destruct (String.eqb _ _);
      [apply never_get_root_loc | apply never_get_tip_loc].
  - cbn [fst snd outcome attach_outcome]. split; [exact Hfound |]. split.
    + apply on_side_here. split; [exact Hid | apply get_setitem].
    + apply bind_Ok in Hnew as (pt & _ & Hpt). eauto.
  - cbn [fst snd outcome attach_outcome]. split; [exact Hfound |].
    intros msg ->. exact (Hnever msg eq_refl).
Qed.

(** Below the origin. *)
Lemma attach_below_origin (t : WingSegment) :
  lifting_on_side side t ->
  outcome (on_side side (has_ID pid) t)
    (fun new => on_side side (parent_of new) (snd (attach t)))
    (fst (attach t)).
Proof.
  induction t as [t IH] using WingSegment_tree_ind. intros Hlift.
  destruct Hlift as [t Hnot0 Hkids].
  destruct (ID_is t pid) eqn:Hid.
  - pose proof (attach_here t Hid) as H.
    destruct (fst (attach t)) as [[new |] | e]; [exact H | destruct H | exact H].
  - pose proof (attach_loop_outcome (_attached_segments t)
                  (fun key child Hin Hside =>
                     IH key child Hin (Hkids key child Hin Hside))) as Hloop.
    rewrite attach_unfold, Hid, Hnot0.
    destruct (attach_loop attach side (_attached_segments t)) as [r kids'].
    cbn [fst snd] in Hloop.
    assert (Hhere : ~ has_ID pid t) by (unfold has_ID; congruence).
    destruct r as [[new |] | e]; cbn [fst snd] in *; cbn in Hloop |- *.
    + destruct Hloop as (Hfound & Hreg & Hpt).
      repeat split; [| | exact Hpt]; apply on_side_split; right; assumption.
    + intros H. apply on_side_split in H as [H | H]; auto.
    + destruct Hloop as (Hfound & Hne).
      split; [apply on_side_split; right; assumption | exact Hne].
Qed.

(** At the origin. *)
Lemma attach_at_origin (root : WingSegment) :
  ID_is root 0 = true ->
  (forall (key : string) (child : WingSegment),
      In (key, child) (_attached_segments root) ->
      contains side key = true ->
      lifting_on_side side child) ->
  origin_outcome quad wing_segment_name input side unit_sys airfoil_dict
    (on_side side (has_ID pid) root)
    (fun new => on_side side (parent_of new) (snd (attach root)))
    (fst (attach root)).
Proof.
  intros Hroot Hkids. destruct (ID_is root pid) eqn:Hid.
  - pose proof (attach_here root Hid) as H.
    destruct (fst (attach root)) as [[new |] | e];
      [exact H | destruct H | right; exact H].
  - pose proof (attach_loop_outcome (_attached_segments root)
                  (fun key child Hin Hside =>
                     attach_below_origin child (Hkids key child Hin Hside)))
      as Hloop.
    rewrite attach_unfold, Hid, Hroot.
    destruct (attach_loop attach side (_attached_segments root)) as [r kids'].
    cbn [fst snd] in Hloop.
    assert (Hhere : ~ has_ID pid root) by (unfold has_ID; congruence).
    destruct r as [[new |] | e]; cbn [fst snd] in *; cbn in Hloop |- *.
    + destruct Hloop as (Hfound & Hreg & Hpt).
      repeat split; [| | exact Hpt]; apply on_side_split; right; assumption.
    + left. split; [reflexivity |].
      intros H. apply on_side_split in H as [H | H]; auto.
    + right. destruct Hloop as (Hfound & Hne).
      split; [apply on_side_split; right; assumption | exact Hne].
Qed.

End AttachProperties.

(** *** Trees built by attachment *)

Lemma In_setitem {V} (d : dict V) (k k' : string) (v v' : V) :
  In (k', v') (setitem d k v) -> (k', v') = (k, v) \/ In (k', v') d.
Proof.
  induction d as [| [k0 v0] d IH]; cbn.
  - intros [H | []]. now left.
  - destruct (String.eqb k k0); cbn.
    + intros [H | H]; auto.
    + intros [H | H]; [auto |]. destruct (IH H); auto.
Qed.

Section BuiltTrees.

Variable quad : (R -> R) -> R -> R -> R.
Variables (wing_segment_name : string) (input : input_dict).
Variables (side unit_sys : string) (airfoil_dict : dict Airfoil).

Let attach (t : WingSegment) : result (option WingSegment) * WingSegment :=
  _attach_wing_segment quad t wing_segment_name input side unit_sys
    airfoil_dict.

(** The constructor returns a segment without attached segments, and one
    with [ID] 0 only under the name ["origin"]. *)
Lemma WingSegment_init_fresh (pt : vec3) (new : WingSegment) :
  WingSegment_init quad wing_segment_name input side unit_sys airfoil_dict pt
  = Ok new ->
  _attached_segments new = [] /\
  (ID_is new 0 = true -> wing_segment_name = "origin"%string).
Proof.
  unfold WingSegment_init.
  set (fresh := new_object wing_segment_name input side unit_sys pt).
  destruct (ID_is fresh 0) eqn:Hid; cbn [andb negb].
  - destruct (String.eqb_spec wing_segment_name "origin") as [Hnm | Hnm];
      cbn [negb]; [| discriminate].
    intros H. injection H as <-. auto.
  - intros H. bind_inv H. bind_inv H. bind_inv H. bind_inv H.
    apply _initialize_params_Ok in Hx as (p & -> & _).
    apply _initialize_airfoils_Ok in Hx0 as (a & -> & _).
    apply _setup_control_surface_Ok in Hx1 as (c & -> & _).
    apply _setup_cp_data_Ok in Hx2 as (cp & ->).
    apply _setup_node_data_Ok in H as (n & ->).
    split; [reflexivity |]. unfold ID_is in *. cbn in *. congruence.
Qed.

Lemma attach_keeps_ID (t : WingSegment) : ID (snd (attach t)) = ID t.
Proof.
  unfold attach. rewrite attach_unfold. fold attach. destruct (ID_is t _).
  - destruct (Py.bind _ _); reflexivity.
  - destruct (attach_loop _ side (_attached_segments t)) as [[[new |] | e] kids'];
      [reflexivity | destruct (ID_is t 0); reflexivity | reflexivity].
Qed.

(** Each entry the loop leaves is an entry it found, as it was or as the
    recursive call left it. *)
Lemma attach_loop_entries (kids : dict WingSegment) (key : string)
    (child' : WingSegment) :
  In (key, child') (snd (attach_loop attach side kids)) ->
  exists child : WingSegment,
    In (key, child) kids /\ (child' = child \/ child' = snd (attach child)).
Proof.
  induction kids as [| [k c] rest IH]; cbn [attach_loop]; [intros [] |].
  destruct (contains side k); cbn [negb].
  - destruct (attach c) as [r c'] eqn:Hc.
    assert (Hc' : c' = snd (attach c)) by now rewrite Hc.
    destruct r as [[new |] | e].
    + cbn. intros [H | H]; [injection H as <- <- | ]; eauto.
    + destruct (attach_loop attach side rest) as [r' rest']. cbn in *.
      intros [H | H]; [injection H as <- <-; eauto |].
      destruct (IH H) as (child & Hin & Hchild). eauto.
    + cbn. intros [H | H]; [injection H as <- <- | ]; eauto.
  - destruct (attach_loop attach side rest) as [r' rest']. cbn in *.
    intros [H | H]; [injection H as <- <-; eauto |].
    destruct (IH H) as (child & Hin & Hchild). eauto.
Qed.

(** Attachment keeps the tree well named. *)
Lemma attach_well_named (t : WingSegment) :
  well_named t -> well_named (snd (attach t)).
Proof.
  induction t as [t IH] using WingSegment_tree_ind. intros Hwn.
  inversion Hwn as [t' Hkids]; subst t'.
  unfold attach. rewrite attach_unfold. fold attach. destruct (ID_is t _).
  - destruct (Py.bind _ _) as [new | e] eqn:Hnew; cbn [snd]; [| exact Hwn].
    apply bind_Ok in Hnew as (pt & _ & Hnew).
    apply WingSegment_init_fresh in Hnew as [Hfresh Hname].
    constructor. cbn [_attached_segments set_attached]. intros key child Hin.
    apply In_setitem in Hin as [Heq | Hin]; [| now apply Hkids].
    injection Heq as -> ->. split; [exact Hname |].
    constructor. rewrite Hfresh. intros ? ? [].
  - assert (Hkids' : well_named
                       (set_attached t
                          (snd (attach_loop attach side (_attached_segments t))))).
    { constructor. cbn [_attached_segments set_attached]. intros key child' Hin.
      apply attach_loop_entries in Hin as (child & Hin & [-> | ->]).
      - now apply Hkids.
      - destruct (Hkids key child Hin) as [Hname Hchild]. split.
        + unfold ID_is. rewrite attach_keeps_ID. exact Hname.
        + now apply (IH key child). }
    destruct (attach_loop attach side (_attached_segments t))
      as [[[new |] | e] kids'];
      [exact Hkids' | destruct (ID_is t 0); exact Hkids' | exact Hkids'].
Qed.

End BuiltTrees.

Lemma origin_segment_well_named : well_named origin_segment.
Proof. constructor. intros key child []. Qed.

(** In a well-named tree, on a side that is not part of the word
    ["origin"], no attached segment reached on that side has [ID] 0. *)
Lemma well_named_lifting (side : string) (t : WingSegment) :
  contains side "origin" = false ->
  well_named t ->
  forall (key : string) (child : WingSegment),
    In (key, child) (_attached_segments t) ->
    contains side key = true ->
    lifting_on_side side child.
Proof.
  intros Hside. induction t as [t IH] using WingSegment_tree_ind.
  intros Hwn key child Hin Hkey. inversion Hwn as [t' Hkids]; subst t'.
  destruct (Hkids key child Hin) as [Hname Hchild].
  constructor.
  - destruct (ID_is child 0) eqn:Hid; [| reflexivity].
    rewrite (Hname eq_refl) in Hkey. congruence.
  - now apply (IH key child).
Qed.

(** ** Control points of a constructed segment *)

Lemma span_locs_other_side (N : nat) (use_clustering : bool) (side : string) :
  String.eqb side "left" = false ->
  span_locs N use_clustering side = span_locs N use_clustering "right".
Proof. intros Hside. unfold span_locs. rewrite Hside. reflexivity. Qed.

Lemma span_locs_cp_within_unit (N : nat) (use_clustering : bool) (side : string) :
  (0 < N)%nat ->
  within_unit_interval (snd (span_locs N use_clustering side)).
Proof.
  intros HN.
  destruct (span_locs_right_spec N use_clustering HN) as (_ & _ & _ & Hcp & _).
  destruct (String.eqb side "left") eqn:Hside.
  - apply String.eqb_eq in Hside as ->. rewrite span_locs_left. cbn [snd].
    now apply within_unit_rev.
  - now rewrite span_locs_other_side.
Qed.

(** The control points the constructor stores: [N] of them, in [[0, 1]]. *)
Lemma constructed_control_points (p : params_attrs) (side : string) :
  (0 < _N p)%nat ->
  (_node_span_locs p, _cp_span_locs p) =
    span_locs (_N p) (_use_clustering p) side ->
  within_unit_interval (_cp_span_locs p) /\
  List.length (_cp_span_locs p) = _N p.
Proof.
  intros HN Hlocs.
  replace (_cp_span_locs p) with (snd (span_locs (_N p) (_use_clustering p) side))
    by now rewrite <- Hlocs.
  split; [now apply span_locs_cp_within_unit | apply span_locs_length].
Qed.


(** ** Closed instances *)


(** C4, as the claim states it, fails on a right-side fin with a dihedral of
    90 degrees and no twist: at the root the middle component of the normal
    vector is [- sin d = -1], where the claim has [+ sin d = 1]. *)
Lemma normal_vec_right_sign_counterexample :
  exists (self : WingSegment) (g : getter_attrs),
    WingSegment_init rectangle_rule "fin_right" fin_input "right" "English"
      example_airfoils (0, 0, 0) = Ok self /\
    _side self = "right"%string /\
    init_getters self = Some g /\
    let t := item (call_getter (get_twist g) (PyFloat 0)) in
    let d := item (call_getter (get_dihedral g) (PyFloat 0)) in
    sin d = 1 /\
    _get_normal_vec self (PyFloat 0) <>
    Ok [(- sin t * cos d, sin d, - cos t * cos d)].
Proof.
  destruct (WingSegment_init_total rectangle_rule "fin_right" fin_input "right"
              "English" (0, 0, 0) "NACA_0010" example_airfoil example_airfoil
              [] "NACA_0010") as [self Hself];
    [discriminate | discriminate | reflexivity | reflexivity |].
  exists self.
  destruct (WingSegment_init_Ok _ _ _ _ _ _ _ _ Hself ltac:(discriminate))
    as (p & a & c & cp & n & Heq & _).
  eexists. split; [exact Hself |].
  split; [rewrite Heq; reflexivity |].
  split; [rewrite Heq; reflexivity |].
  cbv zeta. erewrite normal_vec_rows by (rewrite Heq; reflexivity).
  rewrite Heq. cbn. unfold radians.
  replace (90 * (PI / 180)) with (PI / 2) by field.
  rewrite sin_PI2. split; [reflexivity |].
  intros H. injection H as H. lra.
Qed.

Lemma normal_vec_components_witness :
  let self :=
    _initialize_getters (new_object "fin_left" fin_input "left" "English" (0, 0, 0)) in
  exists g : getter_attrs,
    init_getters self = Some g /\
    _get_normal_vec self (PyFloat 0) =
    Ok (map (fun s : R =>
               let t := item (call_getter (get_twist g) (PyFloat s)) in
               let d := item (call_getter (get_dihedral g) (PyFloat s)) in
               (- sin t * cos d,
                (if String.eqb (_side self) "left" then sin d else - sin d),
                - cos t * cos d))
          (elements (PyFloat 0))).
Proof.
  intros self. eexists. split; [reflexivity |].
  apply normal_vec_components. reflexivity.
Defined.

(** The example inputs are accepted by the constructor. *)
Lemma example_segment_exists (name : string) (dihedral : option span_data)
    (control : option control_dict) (side : string) (origin : vec3) :
  exists self : WingSegment,
    WingSegment_init rectangle_rule name (example_input dihedral control) side
      "English" example_airfoils origin = Ok self.
Proof.
  apply (WingSegment_init_total rectangle_rule name _ side "English" origin
           "NACA_0010" example_airfoil example_airfoil [] "NACA_0010");
    [discriminate | discriminate | reflexivity | reflexivity].
Qed.

Lemma rectangle_rule_exact : exact_on_constants rectangle_rule.
Proof. intros f c a b' Hf. unfold rectangle_rule. now rewrite Hf. Qed.

Lemma row_count_is_checked_witness :
  exists (self : WingSegment) (p : params_attrs),
    init_params self = Some p /\
    get_cp CL [] self = (Raise params_mismatch, self).
Proof.
  destruct (example_segment_exists "wing_right" None None "right" (0, 0, 0))
    as [self Hself].
  destruct (WingSegment_init_Ok _ _ _ _ _ _ _ _ Hself ltac:(discriminate))
    as (p & a & c & cp & n & Heq & _ & _ & HN & _).
  assert (Hp : init_params self = Some p) by (rewrite Heq; reflexivity).
  exists self, p. split; [exact Hp |].
  apply (proj1 (row_count_is_checked CL [] self p Hp)). cbn. lia.
Defined.

Lemma no_control_surface_no_effect_witness :
  exists self : WingSegment,
    WingSegment_init rectangle_rule "wing_right" wing_input "right" "English"
      example_airfoils (0, 0, 0) = Ok self /\
    get_cp_flap self = (Ok (PyFloat 0), self) /\
    apply_control [("aileron"%string, 5)] [("aileron"%string, false)] self
    = (Ok tt, self).
Proof.
  destruct (example_segment_exists "wing_right" None None "right" (0, 0, 0))
    as [self Hself].
  exists self. split; [exact Hself |].
  destruct (no_control_surface_no_effect _ _ _ _ _ _ _ _ Hself
              ltac:(discriminate) eq_refl) as [Hflap Hcontrol].
  split; [exact Hflap | apply Hcontrol].
Defined.

Lemma apply_control_does_not_accumulate_witness :
  exists (self : WingSegment) (c : control_attrs),
    init_control self = Some c /\
    _has_control_surface c = true /\
    apply_control [("aileron"%string, 5)] [("aileron"%string, false)]
      (snd (apply_control [("aileron"%string, 5)] [("aileron"%string, false)] self))
    = apply_control [("aileron"%string, 5)] [("aileron"%string, false)] self.
Proof.
  destruct (example_segment_exists "wing_right" None (Some aileron_control)
              "right" (0, 0, 0)) as [self Hself].
  destruct (WingSegment_init_Ok _ _ _ _ _ _ _ _ Hself ltac:(discriminate))
    as (p & a & c & cp & n & Heq & _ & _ & _ & _ & _ & Hcs & _).
  assert (Hc : init_control self = Some c) by (rewrite Heq; reflexivity).
  exists self, c. split; [exact Hc |]. split; [exact Hcs |].
  exact (proj1 (apply_control_does_not_accumulate self c _ _ Hc Hcs)).
Defined.

Lemma straight_segment_geometry_witness :
  exists (self : WingSegment) (root : vec3),
    WingSegment_init rectangle_rule "wing_right" wing_input "right" "English"
      example_airfoils (0, 0, 0) = Ok self /\
    get_root_loc self = Ok root /\
    get_tip_loc rectangle_rule self = Ok (vadd root (0, 4, 0)).
Proof.
  destruct (example_segment_exists "wing_right" None None "right" (0, 0, 0))
    as [self Hself].
  destruct (WingSegment_init_Ok _ _ _ _ _ _ _ _ Hself ltac:(discriminate))
    as (p & a & c & cp & n & Heq & _ & _ & _ & Hb & _).
  assert (Hp : init_params self = Some p) by (rewrite Heq; reflexivity).
  assert (HID : ID_is self 0 = false) by (rewrite Heq; reflexivity).
  assert (Hroot : get_root_loc self = Ok (vadd (0, 0, 0) (_delta_origin p))).
  { unfold get_root_loc. rewrite HID, Hp. rewrite Heq. reflexivity. }
  exists self, (vadd (0, 0, 0) (_delta_origin p)).
  split; [exact Hself |]. split; [exact Hroot |].
  pose proof (straight_segment_geometry rectangle_rule self p
                {| get_twist := ConstantGetter (radians 0);
                   get_dihedral := ConstantGetter (radians 0);
                   get_sweep := ConstantGetter (radians 0);
                   get_chord := ConstantGetter 1;
                   _get_ac_offset := ConstantGetter 0 |}
                (vadd (0, 0, 0) (_delta_origin p))
                rectangle_rule_exact Hp ltac:(rewrite Heq; reflexivity) HID
                zero_angle_getter zero_angle_getter Hroot) as H.
  cbv zeta in H. destruct H as (_ & _ & Htip & _).
  rewrite Htip. rewrite Heq. cbn [_side String.eqb Ascii.eqb Bool.eqb].
  rewrite Hb. reflexivity.
Defined.

(** C6, as the claim states it, fails when the only segment with the
    parent's [ID] is on the other side: with a left wing of [ID] 1 attached
    to the origin, attaching a right tail that connects to [ID] 1 raises
    [could_not_attach], although a segment of the tree has [ID] 1. *)
Lemma attach_other_side_counterexample :
  exists root wing : WingSegment,
    attach_wing_segment rectangle_rule origin_segment "wing_left" wing_input
      "left" "English" example_airfoils = (Ok (Some wing), root) /\
    ID_is root 0 = true /\
    parent_ID_of tail_input = 1%Z /\
    anywhere (has_ID 1) root /\
    fst (attach_wing_segment rectangle_rule root "tail_right" tail_input
           "right" "English" example_airfoils)
    = Raise (could_not_attach "tail_right").
Proof.
  destruct (example_segment_exists "wing_left" None None "left" (0, 0, 0))
    as [wing Hwing].
  destruct (WingSegment_init_Ok _ _ _ _ _ _ _ _ Hwing ltac:(discriminate))
    as (p & a & c & cp & n & Heq & _).
  exists (set_attached origin_segment [("wing_left"%string, wing)]), wing.
  assert (Hfirst :
    attach_wing_segment rectangle_rule origin_segment "wing_left" wing_input
      "left" "English" example_airfoils
    = (Ok (Some wing), set_attached origin_segment [("wing_left"%string, wing)])).
  { unfold attach_wing_segment.
    change (ID_is origin_segment 0) with true. cbn [negb].
    rewrite attach_unfold.
    change (ID_is origin_segment (parent_ID_of wing_input)) with true.
    change (String.eqb (location_of wing_input) "root") with false.
    change (get_tip_loc rectangle_rule origin_segment) with (@Ok vec3 (0, 0, 0)).
    cbn [Py.bind]. fold wing_input in Hwing. rewrite Hwing. reflexivity. }
  split; [exact Hfirst |].
  split; [reflexivity |]. split; [reflexivity |]. split.
  - apply (anywhere_below _ _ "wing_left" wing); [left; reflexivity |].
    apply anywhere_here. unfold has_ID. rewrite Heq. reflexivity.
  - unfold attach_wing_segment.
    change (ID_is (set_attached origin_segment [("wing_left"%string, wing)]) 0)
      with true.
    cbn [negb]. rewrite attach_unfold.
    change (ID_is (set_attached origin_segment [("wing_left"%string, wing)])
              (parent_ID_of tail_input)) with false.
    change (ID_is (set_attached origin_segment [("wing_left"%string, wing)]) 0)
      with true.
    reflexivity.
Qed.

(** * Further properties *)

(** ** The constructor in detail *)

Lemma ID_is_new_object (name : string) (input : input_dict)
    (side unit_sys : string) (origin : vec3) :
  in_ID input <> Some 0%Z ->
  ID_is (new_object name input side unit_sys origin) 0 = false.
Proof.
  intros HID. unfold ID_is, new_object. cbn.
  destruct (in_ID input) as [i |]; [| reflexivity].
  destruct (Z.eqb_spec i 0) as [-> | ?]; [congruence | reflexivity].
Qed.

(** The attributes [_initialize_params] stores, field by field. *)
Lemma _initialize_params_fields (self self' : WingSegment) :
  _initialize_params self = Ok self' ->
  exists p : params_attrs,
    self' = set_params self p /\
    _N p = opt_default (in_grid (_input_dict self)) 40%nat /\
    (0 < _N p)%nat /\
    b p = in_semispan (_input_dict self) /\
    _use_clustering p = opt_default (in_use_clustering (_input_dict self)) true /\
    _node_span_locs p = fst (span_locs (_N p) (_use_clustering p) (_side self)) /\
    _cp_span_locs p = snd (span_locs (_N p) (_use_clustering p) (_side self)) /\
    _delta_origin p =
      (let connect_get (f : connect_dict -> option R) : R :=
         match in_connect_to (_input_dict self) with
         | Some c => opt_default (f c) 0
         | None => 0
         end in
       (connect_get connect_dx,
        (if String.eqb (_side self) "left"
         then connect_get connect_dy - connect_get connect_y_offset
         else connect_get connect_dy + connect_get connect_y_offset),
        connect_get connect_dz)).
Proof.
  unfold _initialize_params. intros H.
  destruct (Nat.eqb_spec (opt_default (in_grid (_input_dict self)) 40%nat) 0)
    as [? | HN]; [discriminate |].
  destruct (span_locs _ _ _) as [node cp] eqn:Hlocs.
  injection H as <-. eexists. split; [reflexivity |]. cbn.
  rewrite Hlocs. repeat split; try reflexivity. lia.
Qed.

(** The attributes [_setup_cp_data] stores, for the control points [cp]
    and the nodes [node] of the segment. *)
Lemma _setup_cp_data_fields (quad : (R -> R) -> R -> R -> R)
    (self self' : WingSegment) (p : params_attrs) (g : getter_attrs) :
  init_params self = Some p ->
  init_getters self = Some g ->
  _setup_cp_data quad self = Ok self' ->
  exists c : cp_attrs,
    self' = set_cp_data self c /\
    _get_axial_vec self (PyArray (of_list (_cp_span_locs p))) = Ok (u_a_cp c) /\
    _get_normal_vec self (PyArray (of_list (_cp_span_locs p))) = Ok (u_n_cp c) /\
    _get_span_vec self (PyArray (of_list (_cp_span_locs p))) = Ok (u_s_cp c) /\
    _get_section_ac_loc quad self (PyArray (of_list (_cp_span_locs p)))
      = Ok (control_points c) /\
    _get_cp_avg_chord_lengths self = Ok (c_bar_cp c) /\
    dS c =
      map (fun r : (R * R) * R =>
             let '((n1, n0), ch) := r in Rabs (n1 - n0) * b p * ch)
        (combine (combine (drop_first (_node_span_locs p))
                    (drop_last (_node_span_locs p)))
           (c_bar_cp c)).
Proof.
  intros Hp Hg. unfold _setup_cp_data. rewrite Hp. cbn [attr Py.bind].
  intros H. repeat bind_inv H.
  injection H as <-. eexists. split; [reflexivity |]. cbn. auto 10.
Qed.

Lemma _setup_node_data_fields (quad : (R -> R) -> R -> R -> R)
    (self self' : WingSegment) (p : params_attrs) :
  init_params self = Some p ->
  _setup_node_data quad self = Ok self' ->
  exists n : list vec3,
    self' = set_nodes self n /\
    _get_section_ac_loc quad self (PyArray (of_list (_node_span_locs p))) = Ok n.
Proof.
  intros Hp. unfold _setup_node_data. rewrite Hp. cbn [attr Py.bind].
  intros H. bind_inv H. injection H as <-. eauto.
Qed.

(** A segment whose [ID] is not 0, as the constructor returns it: the
    arguments, the parameters, the getters and the cached arrays. *)
Lemma constructed_fields (quad : (R -> R) -> R -> R -> R) (name : string)
    (input : input_dict) (side unit_sys : string) (ad : dict Airfoil)
    (origin : vec3) (self : WingSegment) :
  WingSegment_init quad name input side unit_sys ad origin = Ok self ->
  in_ID input <> Some 0%Z ->
  exists (p : params_attrs) (a : airfoil_attrs) (c : control_attrs)
         (cpd : cp_attrs) (n : list vec3),
    self =
      mkWingSegment name input unit_sys side origin [] (in_ID input)
        (Some p) (Some (getters_of_input input)) (Some a) (Some c) (Some cpd)
        (Some n) /\
    _N p = opt_default (in_grid input) 40%nat /\
    (0 < _N p)%nat /\
    b p = in_semispan input /\
    _use_clustering p = opt_default (in_use_clustering input) true /\
    _node_span_locs p = fst (span_locs (_N p) (_use_clustering p) side) /\
    _cp_span_locs p = snd (span_locs (_N p) (_use_clustering p) side) /\
    _delta_origin p =
      (let connect_get (f : connect_dict -> option R) : R :=
         match in_connect_to input with
         | Some c => opt_default (f c) 0
         | None => 0
         end in
       (connect_get connect_dx,
        (if String.eqb side "left"
         then connect_get connect_dy - connect_get connect_y_offset
         else connect_get connect_dy + connect_get connect_y_offset),
        connect_get connect_dz)) /\
    _get_axial_vec self (PyArray (of_list (_cp_span_locs p))) = Ok (u_a_cp cpd) /\
    _get_normal_vec self (PyArray (of_list (_cp_span_locs p))) = Ok (u_n_cp cpd) /\
    _get_span_vec self (PyArray (of_list (_cp_span_locs p))) = Ok (u_s_cp cpd) /\
    _get_section_ac_loc quad self (PyArray (of_list (_cp_span_locs p)))
      = Ok (control_points cpd) /\
    _get_cp_avg_chord_lengths self = Ok (c_bar_cp cpd) /\
    dS cpd =
      map (fun r : (R * R) * R =>
             let '((n1, n0), ch) := r in Rabs (n1 - n0) * b p * ch)
        (combine (combine (drop_first (_node_span_locs p))
                    (drop_last (_node_span_locs p)))
           (c_bar_cp cpd)) /\
    _get_section_ac_loc quad self (PyArray (of_list (_node_span_locs p))) = Ok n.
Proof.
  unfold WingSegment_init. intros H HID.
  rewrite (ID_is_new_object name input side unit_sys origin HID) in H.
  cbn [andb negb] in H.
  bind_inv H. bind_inv H. bind_inv H. bind_inv H.
  apply _initialize_params_fields in Hx
    as (p & -> & HNeq & HN & Hb & Hclu & Hnode & Hcp & Hdelta).
  apply _initialize_airfoils_Ok in Hx0 as (a & -> & _).
  apply _setup_control_surface_Ok in Hx1 as (c & -> & _).
  match type of Hx2 with
  | _setup_cp_data _ ?s = _ =>
      destruct (_setup_cp_data_fields quad s _ p (getters_of_input input)
                  eq_refl eq_refl Hx2)
        as (cpd & -> & Hua & Hun & Hus & Hcps & Hcbar & HdS)
  end.
  match type of H with
  | _setup_node_data _ ?s = _ =>
      destruct (_setup_node_data_fields quad s _ p eq_refl H) as (n & -> & Hn)
  end.
  exists p, a, c, cpd, n. split; [reflexivity |].
  cbn in HNeq, Hb, Hclu, Hnode, Hcp, Hdelta.
  repeat split; assumption.
Qed.

(** X1.  The constructor with [ID] 0 refuses every name but ["origin"]
    with an [IOError]; with [ID] 0 and the name ["origin"] it returns the
    object with no attribute group assigned, whatever else the input and
    the airfoils hold; and a segment it returns with another [ID] has
    every attribute group assigned and no segment attached. *)
Theorem constructor_origin_or_initialised (quad : (R -> R) -> R -> R -> R)
    (name : string) (input : input_dict) (side unit_sys : string)
    (ad : dict Airfoil) (origin : vec3) :
  (in_ID input = Some 0%Z -> name <> "origin"%string ->
   WingSegment_init quad name input side unit_sys ad origin
   = Raise (IOError ("Wing segment ID for " ++ name ++ " may not be 0."))) /\
  (in_ID input = Some 0%Z -> name = "origin"%string ->
   WingSegment_init quad name input side unit_sys ad origin
   = Ok (new_object name input side unit_sys origin)) /\
  (forall self : WingSegment,
      WingSegment_init quad name input side unit_sys ad origin = Ok self ->
      in_ID input <> Some 0%Z ->
      init_params self <> None /\ init_getters self <> None /\
      init_airfoils self <> None /\ init_control self <> None /\
      init_cp_data self <> None /\ nodes self <> None /\
      _attached_segments self = []).
Proof.
  split; [| split].
  - intros HID Hname. unfold WingSegment_init, ID_is, new_object.
    cbn [ID]. rewrite HID. cbn [Z.eqb andb].
    destruct (String.eqb_spec name "origin"); [contradiction | reflexivity].
  - intros HID Hname. unfold WingSegment_init, ID_is, new_object.
    cbn [ID]. rewrite HID. cbn [Z.eqb andb negb].
    destruct (String.eqb_spec name "origin"); [reflexivity | contradiction].
  - intros self Hself HID.
    destruct (constructed_fields quad _ _ _ _ _ _ _ Hself HID)
      as (p & a & c & cpd & n & -> & _).
    cbn. repeat split; discriminate.
Qed.

(** ** Lengths of the cached arrays *)

Lemma _get_axial_vec_length (self : WingSegment) (span : pyval)
    (rows : list vec3) :
  _get_axial_vec self span = Ok rows ->
  List.length rows = List.length (elements span).
Proof.
  unfold _get_axial_vec. intros H. bind_inv H. injection H as <-.
  now rewrite length_map, call_getter_length.
Qed.

Lemma _get_normal_vec_length (self : WingSegment) (span : pyval)
    (rows : list vec3) :
  _get_normal_vec self span = Ok rows ->
  List.length rows = List.length (elements span).
Proof.
  unfold _get_normal_vec. intros H. bind_inv H. injection H as <-.
  rewrite length_map, length_combine, !call_getter_length. lia.
Qed.

Lemma _get_span_vec_length (self : WingSegment) (span : pyval)
    (rows : list vec3) :
  _get_span_vec self span = Ok rows ->
  List.length rows = List.length (elements span).
Proof.
  unfold _get_span_vec. intros H. bind_inv H. bind_inv H.
  destruct (_ =? _)%nat; [| discriminate]. injection H as <-.
  now rewrite length_map, call_getter_length.
Qed.

Lemma _get_section_ac_loc_length (quad : (R -> R) -> R -> R -> R)
    (self : WingSegment) (l : list R) (rows : list vec3) :
  _get_section_ac_loc quad self (PyArray (of_list l)) = Ok rows ->
  List.length rows = List.length l.
Proof.
  unfold _get_section_ac_loc. intros H. bind_inv H. bind_inv H. bind_inv H.
  apply _get_axial_vec_length in Hx1. cbn [elements data of_list] in Hx1.
  unfold _get_quarter_chord_loc in Hx. repeat bind_inv Hx.
  injection Hx as <-. injection H as <-.
  rewrite length_map, !length_combine, !call_getter_length, !length_map, Hx1.
  cbn [elements data of_list]. lia.
Qed.

Lemma tl_length {A} (l : list A) : List.length (tl l) = (List.length l - 1)%nat.
Proof. destruct l; cbn; lia. Qed.

Lemma removelast_length {A} (l : list A) :
  List.length (removelast l) = (List.length l - 1)%nat.
Proof. rewrite removelast_firstn_len, length_firstn. lia. Qed.

Lemma _get_cp_avg_chord_lengths_length (self : WingSegment)
    (p : params_attrs) (c_bar : list R) :
  init_params self = Some p ->
  _get_cp_avg_chord_lengths self = Ok c_bar ->
  List.length c_bar = (List.length (_node_span_locs p) - 1)%nat.
Proof.
  intros Hp. unfold _get_cp_avg_chord_lengths. intros H. bind_inv H.
  rewrite Hp in H. cbn in H. injection H as <-.
  unfold drop_first, drop_last.
  rewrite length_map, length_combine, tl_length, removelast_length,
    call_getter_length.
  lia.
Qed.

(** X2.  In a segment the constructor returns (with an [ID] other than 0)
    every cached control-point array has one entry per control point and
    the node array one per node: [N] and [N + 1] for the grid size [N]. *)
Theorem cached_arrays_have_grid_size (quad : (R -> R) -> R -> R -> R)
    (name : string) (input : input_dict) (side unit_sys : string)
    (ad : dict Airfoil) (origin : vec3) (self : WingSegment) :
  WingSegment_init quad name input side unit_sys ad origin = Ok self ->
  in_ID input <> Some 0%Z ->
  exists (p : params_attrs) (cpd : cp_attrs) (n : list vec3),
    init_params self = Some p /\ init_cp_data self = Some cpd /\
    nodes self = Some n /\
    _N p = opt_default (in_grid input) 40%nat /\
    List.length (_node_span_locs p) = (_N p + 1)%nat /\
    List.length (_cp_span_locs p) = _N p /\
    List.length (u_a_cp cpd) = _N p /\
    List.length (u_n_cp cpd) = _N p /\
    List.length (u_s_cp cpd) = _N p /\
    List.length (control_points cpd) = _N p /\
    List.length (c_bar_cp cpd) = _N p /\
    List.length (dS cpd) = _N p /\
    List.length n = (_N p + 1)%nat.
Proof.
  intros Hself HID.
  destruct (constructed_fields quad _ _ _ _ _ _ _ Hself HID)
    as (p & a & c & cpd & n & Heq & HNeq & HN & _ & _ & Hnode & Hcp & _
        & Hua & Hun & Hus & Hcps & Hcbar & HdS & Hn).
  destruct (span_locs_length (_N p) (_use_clustering p) side) as [Hlen1 Hlen2].
  rewrite <- Hnode in Hlen1. rewrite <- Hcp in Hlen2.
  assert (Hp : init_params self = Some p) by (rewrite Heq; reflexivity).
  exists p, cpd, n.
  apply _get_axial_vec_length in Hua. apply _get_normal_vec_length in Hun.
  apply _get_span_vec_length in Hus.
  apply _get_section_ac_loc_length in Hcps.
  apply _get_section_ac_loc_length in Hn.
  apply (_get_cp_avg_chord_lengths_length self p _ Hp) in Hcbar.
  cbn [elements data of_list] in Hua, Hun, Hus.
  assert (HdSlen : List.length (dS cpd) = _N p).
  { rewrite HdS. unfold drop_first, drop_last.
    rewrite length_map, !length_combine, tl_length, removelast_length. lia. }
  rewrite Heq. cbn [init_params init_cp_data nodes].
  repeat split; try reflexivity; try assumption; try congruence; lia.
Qed.

(** ** Orientation vectors *)

Lemma sin_cos_square (x : R) : sin x * sin x + cos x * cos x = 1.
Proof. pose proof (sin2_cos2 x) as H. unfold Rsqr in H. exact H. Qed.

(** X3.  At every station the axial, normal and span vectors have unit
    length, and the axial vector is perpendicular to the normal vector, on
    either side and for every twist and dihedral. *)
Theorem orientation_vectors_orthonormal (self : WingSegment) (span : pyval)
    (u_a u_n u_s : list vec3) :
  _get_axial_vec self span = Ok u_a ->
  _get_normal_vec self span = Ok u_n ->
  _get_span_vec self span = Ok u_s ->
  Forall unit_vector u_a /\ Forall unit_vector u_n /\ Forall unit_vector u_s /\
  Forall (fun an : vec3 * vec3 => vdot (fst an) (snd an) = 0) (combine u_a u_n).
Proof.
  unfold _get_axial_vec, _get_span_vec. intros Ha Hn Hs.
  bind_inv Ha. injection Ha as <-.
  destruct (init_getters self) as [g |] eqn:Hg; [| discriminate].
  cbn in Hx. injection Hx as <-.
  rewrite (normal_vec_rows self g span Hg) in Hn. injection Hn as <-.
  cbn [attr Py.bind] in Hs. bind_inv Hs.
  destruct (_ =? _)%nat; [| discriminate]. injection Hs as <-.
  rewrite !call_getter_elements, !map_map.
  repeat split.
  - apply Forall_map, Forall_forall. intros s _. unfold unit_vector, vdot.
    pose proof (sin_cos_square (item (call_getter (get_twist g) (PyFloat s)))).
    nra.
  - apply Forall_map, Forall_forall. intros s _. unfold unit_vector, vdot.
    cbv zeta.
    pose proof (sin_cos_square (item (call_getter (get_twist g) (PyFloat s)))).
    pose proof (sin_cos_square (item (call_getter (get_dihedral g) (PyFloat s)))).
    destruct (String.eqb (_side self) "left"); nra.
  - apply Forall_map, Forall_forall. intros s _. unfold unit_vector.
    pose proof (sin_cos_square (item (call_getter (get_dihedral g) (PyFloat s)))).
    destruct (side_is self "left"); cbn [vdot]; nra.
  - rewrite combine_map_same. apply Forall_map, Forall_forall. intros s _.
    cbn [fst snd]. cbv zeta.
    destruct (String.eqb (_side self) "left"); cbn [vdot]; ring.
Qed.

(** ** Span-value getters *)

Lemma increasing_from_last (x0 : R) (rows : list (R * R)) :
  increasing_from x0 rows -> x0 <= last_span x0 rows.
Proof.
  revert x0. induction rows as [| [x1 f1] rows IH]; intros x0; cbn.
  - intros _. lra.
  - intros [H01 Hinc]. specialize (IH x1 Hinc). lra.
Qed.

Lemma interp_from_right (x x0 f0 : R) (rows : list (R * R)) :
  increasing_from x0 rows ->
  last_span x0 rows <= x ->
  interp_from x x0 f0 rows = last_value f0 rows.
Proof.
  revert x0 f0. induction rows as [| [x1 f1] rows IH]; intros x0 f0; cbn.
  - reflexivity.
  - intros [H01 Hinc] Hlast.
    pose proof (increasing_from_last x1 rows Hinc).
    destruct (Rlt_dec x x1); [lra |]. now apply IH.
Qed.

Lemma interp_from_at_start (x0 f0 : R) (rows : list (R * R)) :
  increasing_from x0 rows -> interp_from x0 x0 f0 rows = f0.
Proof.
  destruct rows as [| [x1 f1] rows]; cbn; [reflexivity |].
  intros [H01 _]. destruct (Rlt_dec x0 x1); [| lra]. field. lra.
Qed.

Lemma increasing_from_lt (x0 : R) (rows : list (R * R)) (row : R * R) :
  increasing_from x0 rows -> In row rows -> x0 < fst row.
Proof.
  revert x0. induction rows as [| [x1 f1] rows IH]; intros x0; cbn;
    [intros _ [] |].
  intros [H01 Hinc] [<- | Hin]; [exact H01 |].
  specialize (IH x1 Hinc Hin). lra.
Qed.

Lemma interp_from_at_row (x0 f0 : R) (rows : list (R * R)) (row : R * R) :
  increasing_from x0 rows ->
  In row rows ->
  interp_from (fst row) x0 f0 rows = snd row.
Proof.
  revert x0 f0. induction rows as [| [x1 f1] rows IH]; intros x0 f0;
    cbn [In increasing_from interp_from]; [intros _ [] |].
  intros [H01 Hinc] [<- | Hin]; cbn [fst snd].
  - destruct (Rlt_dec x1 x1); [lra |]. now apply interp_from_at_start.
  - pose proof (increasing_from_lt x1 rows row Hinc Hin).
    destruct (Rlt_dec (fst row) x1); [lra |]. now apply IH.
Qed.

(** X5.  A table getter whose spans increase strictly takes at each row's
    span that row's value (in radians for an angular table), and holds the
    first value at and left of the first span and the last value at and
    right of the last span. *)
Theorem table_getter_hits_rows_and_clamps (angular_data : bool)
    (row0 : R * R) (rows : list (R * R)) :
  increasing_from (fst row0) rows ->
  let value (x : R) :=
    item (call_getter (TableGetter angular_data row0 rows) (PyFloat x)) in
  let stored (v : R) := if angular_data then radians v else v in
  (forall row : R * R, In row (row0 :: rows) -> value (fst row) = stored (snd row)) /\
  (forall x : R, x <= fst row0 -> value x = stored (snd row0)) /\
  (forall x : R,
      last_span (fst row0) rows <= x ->
      value x = stored (last_value (snd row0) rows)).
Proof.
  intros Hinc value stored.
  assert (Hconv : forall x,
            value x =
            interp x (fst row0, stored (snd row0))
              (map (fun r => (fst r, stored (snd r))) rows)).
  { intros x. unfold value, stored. destruct angular_data; cbn; [reflexivity |].
    destruct row0 as [x0 f0]. cbn. f_equal. rewrite <- (map_id rows) at 1.
    apply map_ext. now intros []. }
  assert (Hinc' : increasing_from (fst row0)
                    (map (fun r => (fst r, stored (snd r))) rows)).
  { clear Hconv. revert Hinc. generalize (fst row0).
    induction rows as [| [x1 f1] rows IH]; intros x0; cbn; [auto |].
    intros [H01 Hinc]. split; [exact H01 | now apply IH]. }
  assert (Hlast_span : forall x0,
            last_span x0 (map (fun r => (fst r, stored (snd r))) rows)
            = last_span x0 rows).
  { clear. induction rows as [| [x1 f1] rows IH]; intros x0; cbn; auto. }
  assert (Hlast_value : forall f0,
            last_value (stored f0) (map (fun r => (fst r, stored (snd r))) rows)
            = stored (last_value f0 rows)).
  { clear. induction rows as [| [x1 f1] rows IH]; intros f0; cbn; auto. }
  split; [| split].
  - intros row [<- | Hin]; rewrite Hconv; unfold interp; cbn [fst snd].
    + destruct (Rle_dec (fst row0) (fst row0)); [reflexivity | lra].
    + assert (Hin' : In (fst row, stored (snd row))
                       (map (fun r => (fst r, stored (snd r))) rows))
        by (apply in_map_iff; eauto).
      pose proof (interp_from_at_row (fst row0) (stored (snd row0)) _ _
                    Hinc' Hin') as Hrow.
      cbn [fst snd] in Hrow.
      destruct (Rle_dec (fst row) (fst row0)) as [Hle | _]; [| exact Hrow].
      pose proof (increasing_from_lt _ _ _ Hinc Hin). lra.
  - intros x Hx. rewrite Hconv. unfold interp. cbn [fst snd].
    destruct (Rle_dec x (fst row0)); [reflexivity | contradiction].
  - intros x Hx. rewrite Hconv. unfold interp. cbn [fst snd].
    pose proof (increasing_from_last _ _ Hinc) as Hfirst.
    destruct (Rle_dec x (fst row0)) as [Hle | _].
    + assert (Hrows : rows = []).
      { destruct rows as [| [x1 f1] rows]; [reflexivity |]. exfalso.
        destruct Hinc as [H01 Hinc].
        pose proof (increasing_from_last _ _ Hinc). cbn in Hx. lra. }
      subst rows. reflexivity.
    + rewrite interp_from_right; [apply Hlast_value | exact Hinc' |].
      now rewrite Hlast_span.
Qed.

(** X6.  The elliptic chord getter returns a float for a float; for a
    root chord that is not negative and a span fraction in [[0, 1]] the
    chord lies between 0 and the root chord, which it equals at the root,
    and it vanishes at the tip. *)
Theorem elliptic_chord_bounds (root_chord s : R) :
  0 <= root_chord ->
  0 <= s <= 1 ->
  exists chord : R,
    call_getter (_build_elliptic_chord_dist root_chord) (PyFloat s)
    = PyFloat chord /\
    0 <= chord <= root_chord /\
    call_getter (_build_elliptic_chord_dist root_chord) (PyFloat 0)
    = PyFloat root_chord /\
    call_getter (_build_elliptic_chord_dist root_chord) (PyFloat 1) = PyFloat 0.
Proof.
  intros Hroot Hs. eexists. split; [reflexivity |].
  assert (H0 : 0 <= sqrt (1 - s ^ 2)) by apply sqrt_pos.
  assert (H1 : sqrt (1 - s ^ 2) <= 1).
  { rewrite <- sqrt_1 at 2. apply sqrt_le_1_alt. nra. }
  split; [nra |]. split; cbn; f_equal.
  - replace (1 - 0 * (0 * 1)) with 1 by ring. rewrite sqrt_1. ring.
  - replace (1 - 1 * (1 * 1)) with 0 by ring. rewrite sqrt_0. ring.
Qed.

(** ** Control surface set-up *)

Lemma flap_terms_without_flap :
  let theta_f := acos (2 * 0 - 1) in
  1 - (theta_f - sin theta_f) / PI = 0 /\
  (sin (2 * theta_f) - 2 * sin theta_f) / 4 = 0.
Proof.
  cbv zeta. replace (2 * 0 - 1) with (- (1)) by ring.
  rewrite acos_opp, acos_1. replace (PI - 0) with PI by ring.
  rewrite sin_PI, sin_2PI. pose proof PI_RGT_0. split; field; lra.
Qed.

Lemma within_control_surface_false (root_span tip_span cp : R) :
  cp < root_span \/ tip_span < cp ->
  within_control_surface root_span tip_span cp = false.
Proof.
  intros H. unfold within_control_surface.
  destruct (Rle_dec root_span cp), (Rle_dec cp tip_span); try reflexivity; lra.
Qed.

(** X7.  Setting up a control surface gives every control point a flap
    chord fraction, a flap efficiency and a moment term, and at a control
    point outside the span range of the surface all three are zero. *)
Theorem control_surface_is_local (self self' : WingSegment)
    (p : params_attrs) (cd : control_dict) :
  init_params self = Some p ->
  _setup_control_surface self (Some cd) = Ok self' ->
  exists (c : control_attrs) (frac eta cm : list R),
    init_control self' = Some c /\
    _has_control_surface c = true /\
    _cp_flap_chord_frac c = Some frac /\
    _eta_h_esp_f c = Some eta /\
    _Cm_delta_flap c = PyArray (of_list cm) /\
    List.length frac = List.length (_cp_span_locs p) /\
    List.length eta = List.length (_cp_span_locs p) /\
    List.length cm = List.length (_cp_span_locs p) /\
    forall i : nat,
      (i < List.length (_cp_span_locs p))%nat ->
      nth i (_cp_span_locs p) 0 < opt_default (ctl_root_span cd) 0 \/
      opt_default (ctl_tip_span cd) 1 < nth i (_cp_span_locs p) 0 ->
      nth i frac 0 = 0 /\ nth i eta 0 = 0 /\ nth i cm 0 = 0.
Proof.
  intros Hp. unfold _setup_control_surface. rewrite Hp. cbn [attr Py.bind].
  intros H. injection H as <-. do 4 eexists.
  cbn [init_control set_control _has_control_surface _cp_flap_chord_frac
       _eta_h_esp_f _Cm_delta_flap].
  repeat (split; [reflexivity |]).
  rewrite !map_map, combine_map_same, !map_map, !length_map.
  repeat (split; [reflexivity |]).
  intros i Hi Hout.
  destruct flap_terms_without_flap as [Heps Hcm]. cbv zeta in Heps, Hcm.
  assert (Hnth : forall f : R -> R,
            nth i (map f (_cp_span_locs p)) 0 = f (nth i (_cp_span_locs p) 0)).
  { intros f. rewrite (nth_indep _ 0 (f 0)) by (rewrite length_map; exact Hi).
    apply map_nth. }
  rewrite !Hnth. cbn [fst snd].
  rewrite !within_control_surface_false by exact Hout.
  rewrite Heps. repeat split; [ring | exact Hcm].
Qed.

(** ** Panel areas *)

Lemma strictly_increasing_cons (x y : R) (l : list R) :
  strictly_increasing (x :: y :: l) -> x < y /\ strictly_increasing (y :: l).
Proof.
  intros H. split.
  - apply (H 0%nat 1%nat). cbn. lia.
  - intros i j Hij. apply (H (S i) (S j)). cbn in *. lia.
Qed.

Lemma variation_increasing (l : list R) (x : R) :
  strictly_increasing (x :: l) -> variation (x :: l) = last (x :: l) 0 - x.
Proof.
  revert x. induction l as [| y l IH]; intros x H.
  - cbn. ring.
  - apply strictly_increasing_cons in H as [Hxy H].
    change (variation (x :: y :: l)) with (Rabs (y - x) + variation (y :: l)).
    change (last (x :: y :: l) 0) with (last (y :: l) 0).
    rewrite (IH y H), Rabs_pos_eq by lra. ring.
Qed.

Lemma variation_snoc (l : list R) (x a : R) :
  variation ((x :: l) ++ [a]) = variation (x :: l) + Rabs (a - last (x :: l) 0).
Proof.
  revert x. induction l as [| y l IH]; intros x.
  - cbn. ring.
  - change (variation ((x :: y :: l) ++ [a]))
      with (Rabs (y - x) + variation ((y :: l) ++ [a])).
    change (variation (x :: y :: l)) with (Rabs (y - x) + variation (y :: l)).
    change (last (x :: y :: l) 0) with (last (y :: l) 0).
    rewrite IH. ring.
Qed.

Lemma variation_rev (l : list R) : variation (rev l) = variation l.
Proof.
  induction l as [| x l IH]; [reflexivity |].
  destruct l as [| y l]; [reflexivity |].
  change (variation (x :: y :: l)) with (Rabs (y - x) + variation (y :: l)).
  rewrite <- IH. cbn [rev].
  destruct (rev l ++ [y]) as [| z r] eqn:Hrev.
  - destruct (rev l); discriminate.
  - rewrite variation_snoc.
    assert (Hlast : last (z :: r) 0 = y).
    { rewrite <- Hrev. apply last_last. }
    rewrite Hlast, (Rabs_minus_sym x y). ring.
Qed.

(** The nodes run from 0 to 1, or from 1 to 0 on the left. *)
Lemma node_span_locs_variation (N : nat) (use_clustering : bool)
    (side : string) :
  (0 < N)%nat -> variation (fst (span_locs N use_clustering side)) = 1.
Proof.
  intros HN.
  assert (Hright : variation (fst (span_locs N use_clustering "right")) = 1).
  { destruct (span_locs_right_spec N use_clustering HN)
      as (_ & _ & _ & _ & Hinc & _).
    assert (HN0 : INR N <> 0) by (apply not_0_INR; lia).
    assert (Hmap : forall f : nat -> R,
               f 0%nat = 0 -> f N = 1 ->
               exists l, map f (seq 0 (N + 1)) = 0 :: l /\ last (0 :: l) 0 = 1).
    { intros f Hf0 HfN. exists (map f (seq 1 N)). split.
      - rewrite Nat.add_1_r. cbn [seq map]. now rewrite Hf0.
      - rewrite <- Hf0. change (f 0%nat :: map f (seq 1 N))
          with (map f (seq 0 (S N))).
        rewrite seq_S, map_app. cbn [map Nat.add]. now rewrite last_last. }
    assert (Hends : exists l,
               fst (span_locs N use_clustering "right") = 0 :: l /\
               last (0 :: l) 0 = 1).
    { destruct use_clustering.
      - rewrite span_locs_right_cosine by assumption. cbn [fst].
        apply Hmap; unfold cosine_frac, node_theta.
        + change (INR 0) with 0. replace (0 * PI / INR N) with 0
            by (field; exact HN0).
          rewrite cos_0. lra.
        + replace (INR N * PI / INR N) with PI by (field; exact HN0).
          rewrite cos_PI. lra.
      - rewrite span_locs_right_linear by assumption. cbn [fst].
        apply Hmap; unfold node_frac_linear.
        + change (INR 0) with 0. field. exact HN0.
        + field. exact HN0. }
    destruct Hends as (l & Heq & Hlast). rewrite Heq in Hinc |- *.
    rewrite variation_increasing by exact Hinc. lra. }
  destruct (String.eqb side "left") eqn:Hside.
  - apply String.eqb_eq in Hside as ->. rewrite span_locs_left. cbn [fst].
    now rewrite variation_rev.
  - now rewrite span_locs_other_side.
Qed.

(** The averages of a constant chord, and the panel areas they give. *)
Lemma constant_chord_averages (c : R) (l : list R) :
  map (fun ch : R * R => (fst ch + snd ch) / 2)
    (combine (drop_first (map (fun _ => c) l)) (drop_last (map (fun _ => c) l)))
  = map (fun _ => c) (drop_first l).
Proof.
  unfold drop_first, drop_last.
  destruct l as [| x l]; [reflexivity |]. cbn [map tl].
  revert x. induction l as [| y l IH]; intros x; [reflexivity |].
  cbn [map combine removelast fst snd] in *. rewrite (IH y). f_equal. field.
Qed.

Lemma constant_chord_areas (semispan c : R) (l : list R) :
  rsum (map (fun r : (R * R) * R =>
               let '((n1, n0), ch) := r in Rabs (n1 - n0) * semispan * ch)
          (combine (combine (drop_first l) (drop_last l))
             (map (fun _ => c) (drop_first l))))
  = variation l * semispan * c.
Proof.
  unfold drop_first, drop_last, rsum.
  destruct l as [| x l]; [cbn; ring |]. cbn [tl].
  revert x. induction l as [| y l IH]; intros x; [cbn; ring |].
  change (variation (x :: y :: l)) with (Rabs (y - x) + variation (y :: l)).
  cbn [map combine removelast fold_right] in *. rewrite (IH y). ring.
Qed.

(** X4.  In a constructed segment with a constant chord [c] the average
    chord at every control point is [c], and the panel areas add up to the
    planform area, the semispan times [c], with either spacing and on
    either side. *)
Theorem constant_chord_panel_areas (quad : (R -> R) -> R -> R -> R)
    (name : string) (input : input_dict) (side unit_sys : string)
    (ad : dict Airfoil) (origin : vec3) (self : WingSegment) (c : R) :
  WingSegment_init quad name input side unit_sys ad origin = Ok self ->
  in_ID input <> Some 0%Z ->
  opt_default (in_chord input) (ChordLinear (Constant 1))
  = ChordLinear (Constant c) ->
  exists cpd : cp_attrs,
    init_cp_data self = Some cpd /\
    Forall (fun ch => ch = c) (c_bar_cp cpd) /\
    rsum (dS cpd) = in_semispan input * c.
Proof.
  intros Hself HID Hchord.
  destruct (constructed_fields quad _ _ _ _ _ _ _ Hself HID)
    as (p & a & ctl & cpd & n & Heq & _ & HN & Hb & _ & Hnode & _ & _
        & _ & _ & _ & _ & Hcbar & HdS & _).
  exists cpd. split; [rewrite Heq; reflexivity |].
  assert (Hc_bar : c_bar_cp cpd = map (fun _ => c) (drop_first (_node_span_locs p))).
  { rewrite Heq in Hcbar. unfold _get_cp_avg_chord_lengths in Hcbar.
    cbn [init_getters init_params attr Py.bind getters_of_input get_chord]
      in Hcbar.
    rewrite Hchord in Hcbar. cbn [_build_getter_linear_f_of_span] in Hcbar.
    rewrite call_getter_elements in Hcbar.
    change (map (fun s : R => item (call_getter (ConstantGetter c) (PyFloat s)))
              (_node_span_locs p))
      with (map (fun _ : R => c) (_node_span_locs p)) in Hcbar.
    rewrite constant_chord_averages in Hcbar. now injection Hcbar as <-. }
  split.
  - rewrite Hc_bar. apply Forall_forall. intros ch Hin.
    apply in_map_iff in Hin as (s & <- & _). reflexivity.
  - rewrite HdS, Hc_bar, constant_chord_areas, Hnode.
    rewrite node_span_locs_variation by exact HN. rewrite Hb. ring.
Qed.

(** ** Net deflection *)

Lemma accumulate_positive (side unit_sys : string) (mixing : dict R)
    (control_state : dict R) (control_symmetry : dict bool)
    (keys : list string) (delta_flap : R) :
  side = "right"%string \/
  (forall key : string, In key keys -> get control_symmetry key = Some true) ->
  accumulate_deflection side unit_sys (Some mixing) control_state
    control_symmetry keys delta_flap
  = (Ok tt, delta_flap + net_deflection mixing control_state keys).
Proof.
  intros Hsign. revert delta_flap.
  induction keys as [| key keys IH]; intros delta_flap; cbn.
  - f_equal. ring.
  - assert (Hpos : (if String.eqb side "right" then Ok true
                    else getitem control_symmetry key) = Ok true).
    { destruct Hsign as [-> | Hsym]; [reflexivity |].
      destruct (String.eqb side "right"); [reflexivity |].
      unfold getitem. now rewrite (Hsym key (or_introl eq_refl)). }
    rewrite Hpos, IH.
    + f_equal. unfold import_value. ring.
    + destruct Hsign as [-> | Hsym]; [now left | right]. intros k Hk.
      apply Hsym. now right.
Qed.

Lemma accumulate_negative (side unit_sys : string) (mixing : dict R)
    (control_state : dict R) (control_symmetry : dict bool)
    (keys : list string) (delta_flap : R) :
  side <> "right"%string ->
  (forall key : string, In key keys -> get control_symmetry key = Some false) ->
  accumulate_deflection side unit_sys (Some mixing) control_state
    control_symmetry keys delta_flap
  = (Ok tt, delta_flap - net_deflection mixing control_state keys).
Proof.
  intros Hside Hsym. revert delta_flap.
  induction keys as [| key keys IH]; intros delta_flap; cbn.
  - f_equal. ring.
  - destruct (String.eqb_spec side "right") as [? | _]; [contradiction |].
    unfold getitem. rewrite (Hsym key (or_introl eq_refl)).
    rewrite IH by (intros k Hk; apply Hsym; now right).
    f_equal. unfold import_value. ring.
Qed.

(** X8.  On a segment with a control surface the stored deflection is, in
    radians, the sum over the controls of deflection times mixing gain when
    the segment is on the right or every control is symmetric, and the
    negative of that sum when the segment is not on the right and every
    control is antisymmetric; controls without a gain add nothing. *)
Theorem net_deflection_by_side (self : WingSegment) (c : control_attrs)
    (mixing : dict R) (eta : list R) (control_state : dict R)
    (control_symmetry : dict bool) :
  init_control self = Some c ->
  _has_control_surface c = true ->
  _control_mixing c = Some mixing ->
  _eta_h_esp_f c = Some eta ->
  let net := net_deflection mixing control_state (keys control_state) in
  let state_after (delta : R) :=
    set_control self
      (with_flap_state c (radians delta) (Some (deflection_efficiency delta))
         (Some (map (fun e => e * deflection_efficiency delta) eta))) in
  (_side self = "right"%string \/
   (forall key : string,
       In key (keys control_state) -> get control_symmetry key = Some true) ->
   apply_control control_state control_symmetry self = (Ok tt, state_after net)) /\
  (_side self <> "right"%string ->
   (forall key : string,
       In key (keys control_state) -> get control_symmetry key = Some false) ->
   apply_control control_state control_symmetry self = (Ok tt, state_after (- net))).
Proof.
  intros Hc Hcs Hmix Heta net state_after. split.
  - intros Hsign.
    apply (apply_control_Ok self c _ _ eta net Hc Hcs Heta).
    rewrite Hmix, accumulate_positive by exact Hsign. f_equal. unfold net. ring.
  - intros Hside Hsym.
    apply (apply_control_Ok self c _ _ eta (- net) Hc Hcs Heta).
    rewrite Hmix, accumulate_negative by assumption. f_equal. unfold net. ring.
Qed.

(** ** Missing symmetry entries *)

Lemma accumulate_KeyError (side unit_sys : string) (mixing : dict R)
    (control_state : dict R) (control_symmetry : dict bool)
    (keys : list string) (delta_flap : R) :
  side <> "right"%string ->
  (exists key : string, In key keys /\ get control_symmetry key = None) ->
  exists (key : string) (delta : R),
    In key keys /\ get control_symmetry key = None /\
    accumulate_deflection side unit_sys (Some mixing) control_state
      control_symmetry keys delta_flap
    = (Raise (KeyError key), delta).
Proof.
  intros Hside. revert delta_flap.
  induction keys as [| key keys IH]; intros delta_flap (k & Hin & Hk);
    [destruct Hin |].
  cbn [accumulate_deflection].
  destruct (String.eqb_spec side "right") as [? | _]; [contradiction |].
  unfold getitem.
  destruct (get control_symmetry key) as [sign |] eqn:Hkey.
  - assert (Hrest : exists k', In k' keys /\ get control_symmetry k' = None).
    { destruct Hin as [-> | Hin]; [congruence | eauto]. }
    destruct (IH (if sign
                  then delta_flap + import_value key control_state unit_sys 0
                                    * get_default mixing key 0
                  else delta_flap - import_value key control_state unit_sys 0
                                    * get_default mixing key 0) Hrest)
      as (k' & delta & Hin' & Hk' & Hacc).
    exists k', delta. cbn [In]. auto.
  - exists key, delta_flap. cbn [In]. auto.
Qed.

Lemma accumulate_complete (side unit_sys : string) (mixing : dict R)
    (control_state : dict R) (control_symmetry : dict bool)
    (keys : list string) (delta_flap : R) :
  side = "right"%string \/
  (forall key : string, In key keys -> get control_symmetry key <> None) ->
  exists delta : R,
    accumulate_deflection side unit_sys (Some mixing) control_state
      control_symmetry keys delta_flap
    = (Ok tt, delta).
Proof.
  intros Hsym. revert delta_flap.
  induction keys as [| key keys IH]; intros delta_flap; cbn; [eauto |].
  assert (Hrest : side = "right"%string \/
                  (forall k, In k keys -> get control_symmetry k <> None)).
  { destruct Hsym as [? | Hsym]; [now left | right]. intros k Hk.
    apply Hsym. now right. }
  destruct (String.eqb_spec side "right") as [_ | Hside].
  - apply IH. exact Hrest.
  - destruct Hsym as [? | Hsym]; [contradiction |].
    unfold getitem. specialize (Hsym key (or_introl eq_refl)).
    destruct (get control_symmetry key); [| contradiction]. apply IH. exact Hrest.
Qed.

(** X9.  On a segment with a control surface, [apply_control] on the right
    side completes whatever [control_symmetry] holds; on another side it
    completes exactly when every control of [control_state] has an entry
    in [control_symmetry], and otherwise raises the [KeyError] of a control
    without one. *)
Theorem apply_control_symmetry_lookup (self : WingSegment)
    (c : control_attrs) (mixing : dict R) (eta : list R)
    (control_state : dict R) (control_symmetry : dict bool) :
  init_control self = Some c ->
  _has_control_surface c = true ->
  _control_mixing c = Some mixing ->
  _eta_h_esp_f c = Some eta ->
  (_side self = "right"%string ->
   fst (apply_control control_state control_symmetry self) = Ok tt) /\
  (_side self <> "right"%string ->
   (fst (apply_control control_state control_symmetry self) = Ok tt <->
    forall key : string,
      In key (keys control_state) -> get control_symmetry key <> None) /\
   ((exists key : string,
        In key (keys control_state) /\ get control_symmetry key = None) ->
    exists key : string,
      In key (keys control_state) /\ get control_symmetry key = None /\
      fst (apply_control control_state control_symmetry self)
      = Raise (KeyError key))).
Proof.
  intros Hc Hcs Hmix Heta.
  assert (Hcomplete :
    _side self = "right"%string \/
    (forall key, In key (keys control_state) -> get control_symmetry key <> None) ->
    fst (apply_control control_state control_symmetry self) = Ok tt).
  { intros Hsym.
    destruct (accumulate_complete (_side self) (_unit_sys self) mixing
                control_state control_symmetry (keys control_state) 0 Hsym)
      as [delta Hacc].
    rewrite <- Hmix in Hacc.
    now rewrite (apply_control_Ok self c _ _ eta delta Hc Hcs Heta Hacc). }
  assert (Hraise :
    _side self <> "right"%string ->
    (exists key, In key (keys control_state) /\ get control_symmetry key = None) ->
    exists key, In key (keys control_state) /\ get control_symmetry key = None /\
      fst (apply_control control_state control_symmetry self)
      = Raise (KeyError key)).
  { intros Hside Hmissing.
    destruct (accumulate_KeyError (_side self) (_unit_sys self) mixing
                control_state control_symmetry (keys control_state) 0 Hside
                Hmissing) as (key & delta & Hin & Hkey & Hacc).
    exists key. split; [exact Hin |]. split; [exact Hkey |].
    unfold apply_control. rewrite Hc, Hcs. cbn [negb].
    rewrite Hmix, Hacc. reflexivity. }
  split; [auto |]. intros Hside. split; [| auto].
  split; [| auto]. intros Hok key Hin Hnone.
  destruct (Hraise Hside (ex_intro _ key (conj Hin Hnone)))
    as (k & _ & _ & Hk).
  rewrite Hk in Hok. discriminate.
Qed.

(** ** Coefficient queries and the flap state *)

(** The steps of the constructor on a segment whose [ID] is not 0. *)
Lemma WingSegment_init_steps (quad : (R -> R) -> R -> R -> R) (name : string)
    (input : input_dict) (side unit_sys : string) (ad : dict Airfoil)
    (origin : vec3) (self : WingSegment) :
  WingSegment_init quad name input side unit_sys ad origin = Ok self ->
  in_ID input <> Some 0%Z ->
  exists (p : params_attrs) (a : airfoil_attrs) (c : control_attrs)
         (cpd : cp_attrs) (n : list vec3),
    let new := new_object name input side unit_sys origin in
    let s2 := set_airfoils (_initialize_getters (set_params new p)) a in
    _initialize_params new = Ok (set_params new p) /\
    select_airfoils input ad = Ok a /\
    _setup_control_surface s2 (in_control_surface input) = Ok (set_control s2 c) /\
    self = set_nodes (set_cp_data (set_control s2 c) cpd) n.
Proof.
  unfold WingSegment_init. intros H HID.
  rewrite (ID_is_new_object name input side unit_sys origin HID) in H.
  cbn [andb negb] in H.
  bind_inv H. bind_inv H. bind_inv H. bind_inv H.
  pose proof Hx as Hparams.
  apply _initialize_params_Ok in Hx as (p & -> & _).
  apply _initialize_airfoils_Ok in Hx0 as (a & -> & Ha).
  pose proof Hx1 as Hcontrol.
  apply _setup_control_surface_Ok in Hx1 as (c & -> & _).
  apply _setup_cp_data_Ok in Hx2 as (cpd & ->).
  apply _setup_node_data_Ok in H as (n & ->).
  exists p, a, c, cpd, n. cbv zeta. auto.
Qed.

Lemma _setup_control_surface_attrs (self self' : WingSegment)
    (p : params_attrs) (cd : control_dict) :
  init_params self = Some p ->
  _setup_control_surface self (Some cd) = Ok self' ->
  exists (c : control_attrs) (eta cm : list R),
    self' = set_control self c /\
    _has_control_surface c = true /\
    _delta_flap c = 0 /\ _eta_defl c = None /\ _flap_eff c = None /\
    _control_mixing c = Some (opt_default (ctl_control_mixing cd) []) /\
    _eta_h_esp_f c = Some eta /\
    List.length eta = List.length (_cp_span_locs p) /\
    _Cm_delta_flap c = PyArray (of_list cm) /\
    List.length cm = List.length (_cp_span_locs p).
Proof.
  intros Hp. unfold _setup_control_surface. rewrite Hp. cbn [attr Py.bind].
  intros H. injection H as <-. do 3 eexists.
  cbn [_has_control_surface _delta_flap _eta_defl _flap_eff _control_mixing
       _eta_h_esp_f _Cm_delta_flap].
  do 7 (split; [reflexivity |]).
  split; [| split; [reflexivity |]].
  - rewrite !length_map, length_combine, !length_map. lia.
  - now rewrite !length_map.
Qed.

(** The rows of [new_params] when the fourth column is an array with one
    entry per control point. *)
Lemma new_params_with_column (fourth_column : control_attrs -> result pyval)
    (params : matrix) (self : WingSegment) (p : params_attrs)
    (c : control_attrs) (col : list R) :
  init_params self = Some p ->
  init_control self = Some c ->
  _has_control_surface c = true ->
  fourth_column c = Ok (PyArray (of_list col)) ->
  List.length col = _N p ->
  List.length params = _N p ->
  Forall (fun row => List.length row = 3%nat) params ->
  new_params fourth_column params self
  = Ok (map (fun r : list R * R => fst r ++ [snd r; _delta_flap c])
          (combine params col)).
Proof.
  intros Hp Hc Hon Hcol Hlen_col Hlen Hrows. unfold new_params.
  rewrite Hp, Hc. cbn [attr Py.bind]. rewrite Hlen, Nat.eqb_refl. cbn [negb].
  rewrite (mapM_Ok first_three (fun row => row)).
  2:{ intros row Hin. rewrite Forall_forall in Hrows. specialize (Hrows row Hin).
      destruct row as [| p0 [| p1 [| p2 [| p3 row]]]]; try discriminate.
      reflexivity. }
  rewrite map_id. cbn [Py.bind]. rewrite Hon, Hcol.
  cbn [Py.bind column of_list data].
  rewrite Hlen_col, Nat.eqb_refl. cbn [Py.bind]. f_equal.
  rewrite <- Hlen_col. clear. revert params.
  induction col as [| e col IH]; intros [| row params]; cbn;
    try reflexivity. now rewrite IH.
Qed.

(** Without the flap efficiency the six queries that read it raise. *)
Lemma new_params_without_flap_eff (params : matrix) (self : WingSegment)
    (p : params_attrs) (c : control_attrs) :
  init_params self = Some p ->
  init_control self = Some c ->
  _has_control_surface c = true ->
  _flap_eff c = None ->
  List.length params = _N p ->
  Forall (fun row => List.length row = 3%nat) params ->
  new_params flap_eff_column params self = Raise (AttributeError "_flap_eff").
Proof.
  intros Hp Hc Hon Heff Hlen Hrows. unfold new_params.
  rewrite Hp, Hc. cbn [attr Py.bind]. rewrite Hlen, Nat.eqb_refl. cbn [negb].
  rewrite (mapM_Ok first_three (fun row => row)).
  2:{ intros row Hin. rewrite Forall_forall in Hrows. specialize (Hrows row Hin).
      destruct row as [| p0 [| p1 [| p2 [| p3 row]]]]; try discriminate.
      reflexivity. }
  cbn [Py.bind]. rewrite Hon. unfold flap_eff_column. rewrite Heff. reflexivity.
Qed.

(** A constructed segment with a control surface and one airfoil, before
    any call of [apply_control]. *)
Lemma constructed_with_control_surface (quad : (R -> R) -> R -> R -> R)
    (name : string) (input : input_dict) (side unit_sys : string)
    (key : string) (af0 : Airfoil) (ad : dict Airfoil) (origin : vec3)
    (self : WingSegment) (cd : control_dict) (nm : string) :
  WingSegment_init quad name input side unit_sys ((key, af0) :: ad) origin
  = Ok self ->
  in_ID input <> Some 0%Z ->
  in_control_surface input = Some cd ->
  opt_default (in_airfoil input) (AirfoilName key) = AirfoilName nm ->
  exists (p : params_attrs) (af : Airfoil) (c : control_attrs)
         (eta cm : list R),
    init_params self = Some p /\
    init_airfoils self =
      Some {| _airfoils := [af; af]; _airfoil_spans := [0; 1];
              _num_airfoils := 2 |} /\
    init_control self = Some c /\
    _side self = side /\
    _N p = opt_default (in_grid input) 40%nat /\
    within_unit_interval (_cp_span_locs p) /\
    List.length (_cp_span_locs p) = _N p /\
    _has_control_surface c = true /\
    _delta_flap c = 0 /\ _flap_eff c = None /\
    _control_mixing c = Some (opt_default (ctl_control_mixing cd) []) /\
    _eta_h_esp_f c = Some eta /\ List.length eta = _N p /\
    _Cm_delta_flap c = PyArray (of_list cm) /\ List.length cm = _N p.
Proof.
  intros Hself HID Hcd Hnm.
  destruct (WingSegment_init_steps quad _ _ _ _ _ _ _ Hself HID)
    as (p & a & c & cpd & n & Hparams & Ha & Hcontrol & Heq).
  cbv zeta in Hparams, Hcontrol, Heq.
  apply _initialize_params_Ok in Hparams as (p' & Hp' & HNeq & HN & _ & Hlocs).
  assert (p' = p) as ->.
  { apply (f_equal init_params) in Hp'. cbn in Hp'. congruence. }
  cbn [_input_dict _side new_object] in HNeq, Hlocs.
  destruct (constructed_control_points p side HN Hlocs) as [Hunit Hlen].
  destruct (select_airfoils_constant input key nm af0 ad a Hnm Ha)
    as (af & _ & ->).
  rewrite Hcd in Hcontrol.
  match type of Hcontrol with
  | _setup_control_surface ?s _ = _ =>
      destruct (_setup_control_surface_attrs s _ p cd eq_refl Hcontrol)
        as (c' & eta & cm & Hc' & Hon & Hdelta & _ & Heff & Hmix & Heta
            & Hlen_eta & Hcm & Hlen_cm)
  end.
  assert (c' = c) as ->.
  { apply (f_equal init_control) in Hc'. cbn in Hc'. congruence. }
  exists p, af, c, eta, cm. rewrite Heq.
  cbn [init_params init_airfoils init_control _side set_nodes set_cp_data
       set_control set_airfoils _initialize_getters set_getters set_params
       new_object].
  repeat split; try reflexivity; try assumption; congruence.
Qed.

Lemma constant_airfoil_values (coef : Airfoil -> list R -> R)
    (fourth_column : control_attrs -> result pyval) (self : WingSegment)
    (p : params_attrs) (af : Airfoil) (params rows : matrix) :
  init_params self = Some p ->
  init_airfoils self =
    Some {| _airfoils := [af; af]; _airfoil_spans := [0; 1];
            _num_airfoils := 2 |} ->
  within_unit_interval (_cp_span_locs p) ->
  List.length (_cp_span_locs p) = _N p ->
  new_params fourth_column params self = Ok rows ->
  exists values : list R,
    coefficient_query coef fourth_column params self = Ok values /\
    List.length values = _N p.
Proof.
  intros Hp Ha Hunit Hlen Hrows. exists (map (coef af) rows). split.
  - now apply (constant_airfoil_coefficient_query _ _ self p).
  - rewrite length_map. now apply (new_params_length fourth_column params _ self).
Qed.

(** X11.  On a constructed segment with a control surface and one airfoil,
    for parameters of [N] rows and three columns: before any call of
    [apply_control] the six queries that read the flap efficiency raise
    [AttributeError], while the moment query returns [N] values; after a
    call of [apply_control] that completes, all seven queries return [N]
    values. *)
Theorem queries_need_the_flap_state (quad : (R -> R) -> R -> R -> R)
    (name : string) (input : input_dict) (side unit_sys : string)
    (key : string) (af0 : Airfoil) (ad : dict Airfoil) (origin : vec3)
    (self : WingSegment) (cd : control_dict) (nm : string) (params : matrix) :
  WingSegment_init quad name input side unit_sys ((key, af0) :: ad) origin
  = Ok self ->
  in_ID input <> Some 0%Z ->
  in_control_surface input = Some cd ->
  opt_default (in_airfoil input) (AirfoilName key) = AirfoilName nm ->
  List.length params = opt_default (in_grid input) 40%nat ->
  Forall (fun row => List.length row = 3%nat) params ->
  (forall k : coefficient,
      k <> Cm ->
      get_cp k params self = (Raise (AttributeError "_flap_eff"), self)) /\
  (exists values : list R,
      get_cp Cm params self = (Ok values, self) /\
      List.length values = List.length params) /\
  (forall (control_state : dict R) (control_symmetry : dict bool)
          (self' : WingSegment),
      apply_control control_state control_symmetry self = (Ok tt, self') ->
      forall k : coefficient,
      exists values : list R,
        get_cp k params self' = (Ok values, self') /\
        List.length values = List.length params).
Proof.
  intros Hself HID Hcd Hnm Hlen Hrows.
  destruct (constructed_with_control_surface quad _ _ _ _ _ _ _ _ _ _ _
              Hself HID Hcd Hnm)
    as (p & af & c & eta & cm & Hp & Ha & Hc & _ & HN & Hunit & Hcp & Hon
        & Hdelta & Heff & Hmix & Heta & Hlen_eta & Hcm & Hlen_cm).
  rewrite <- HN in Hlen.
  split; [| split].
  - intros k Hk. rewrite get_cp_unfold. f_equal. unfold coefficient_query.
    assert (Hcol : fourth_column_of k = flap_eff_column)
      by (destruct k; [reflexivity .. | contradiction]).
    rewrite Hcol.
    now rewrite (new_params_without_flap_eff params self p c Hp Hc Hon Heff
                   Hlen Hrows).
  - rewrite get_cp_unfold.
    assert (Hcol : fourth_column_of Cm c = Ok (PyArray (of_list cm))).
    { change (Ok (_Cm_delta_flap c) = Ok (PyArray (of_list cm))).
      now rewrite Hcm. }
    destruct (constant_airfoil_values (airfoil_coefficient Cm)
                (fourth_column_of Cm) self p af params _ Hp Ha Hunit Hcp
                (new_params_with_column _ params self p c cm Hp Hc Hon
                   Hcol Hlen_cm Hlen Hrows))
      as (values & Hvalues & Hlen_values).
    exists values. rewrite Hvalues. split; [reflexivity | congruence].
  - intros control_state control_symmetry self' Happly k.
    destruct (accumulate_deflection (_side self) (_unit_sys self)
                (_control_mixing c) control_state control_symmetry
                (keys control_state) 0) as [r delta] eqn:Hacc.
    assert (Hr : r = Ok tt).
    { unfold apply_control in Happly. rewrite Hc, Hon in Happly.
      cbn [negb] in Happly. rewrite Hacc in Happly.
      destruct r as [[] | e]; [reflexivity | discriminate]. }
    subst r.
    rewrite (apply_control_Ok self c _ _ eta delta Hc Hon Heta Hacc) in Happly.
    injection Happly as <-.
    set (c' := with_flap_state c (radians delta)
                 (Some (deflection_efficiency delta))
                 (Some (map (fun e => e * deflection_efficiency delta) eta))).
    assert (Hcol : exists col,
               fourth_column_of k c' = Ok (PyArray (of_list col)) /\
               List.length col = _N p).
    { destruct k;
        try (exists (map (fun e => e * deflection_efficiency delta) eta);
             split; [reflexivity | now rewrite length_map]).
      exists cm. split; [| exact Hlen_cm].
      change (Ok (_Cm_delta_flap c) = Ok (PyArray (of_list cm))).
      now rewrite Hcm. }
    destruct Hcol as (col & Hcol & Hlen_col).
    rewrite get_cp_unfold.
    destruct (constant_airfoil_values (airfoil_coefficient k)
                (fourth_column_of k) (set_control self c') p af params _
                Hp Ha Hunit Hcp
                (new_params_with_column _ params (set_control self c') p c'
                   col Hp eq_refl Hon Hcol Hlen_col Hlen Hrows))
      as (values & Hvalues & Hlen_values).
    exists values. rewrite Hvalues. split; [reflexivity | congruence].
Qed.

(** X10.  On a segment with a control surface, [get_cp_flap] raises
    [AttributeError] as long as no flap efficiency is stored; after a call
    of [apply_control] that completes, with net deflection [delta] in
    degrees, it returns at every control point the hinge efficiency times
    the deflection efficiency times [delta] in radians, and leaves the
    segment as it is. *)
Theorem flap_angle_after_apply_control (self : WingSegment)
    (c : control_attrs) (eta : list R) :
  init_control self = Some c ->
  _has_control_surface c = true ->
  _eta_h_esp_f c = Some eta ->
  (_flap_eff c = None ->
   get_cp_flap self = (Raise (AttributeError "_flap_eff"), self)) /\
  (forall (control_state : dict R) (control_symmetry : dict bool)
          (self' : WingSegment),
      apply_control control_state control_symmetry self = (Ok tt, self') ->
      exists (delta : R) (c' : control_attrs),
        init_control self' = Some c' /\
        _delta_flap c' = radians delta /\
        _eta_defl c' = Some (deflection_efficiency delta) /\
        get_cp_flap self'
        = (Ok (PyArray
                 (of_list
                    (map (fun e => e * deflection_efficiency delta
                                   * radians delta) eta))),
           self')).
Proof.
  intros Hc Hon Heta. split.
  - intros Heff. unfold get_cp_flap, reading. rewrite Hc. cbn.
    now rewrite Hon, Heff.
  - intros control_state control_symmetry self' Happly.
    destruct (accumulate_deflection (_side self) (_unit_sys self)
                (_control_mixing c) control_state control_symmetry
                (keys control_state) 0) as [r delta] eqn:Hacc.
    assert (Hr : r = Ok tt).
    { unfold apply_control in Happly. rewrite Hc, Hon in Happly.
      cbn [negb] in Happly. rewrite Hacc in Happly.
      destruct r as [[] | e]; [reflexivity | discriminate]. }
    subst r.
    rewrite (apply_control_Ok self c _ _ eta delta Hc Hon Heta Hacc) in Happly.
    injection Happly as <-.
    exists delta. eexists. split; [reflexivity |].
    split; [reflexivity |]. split; [reflexivity |].
    unfold get_cp_flap, reading. cbn. rewrite Hon. cbn.
    now rewrite map_map.
Qed.

(** ** Airfoil selection *)

Lemma airfoil_rows_Ok (ad : dict Airfoil) (rows : list (R * string))
    (r : list Airfoil * list R) :
  airfoil_rows ad rows = Ok r ->
  List.length (fst r) = List.length rows /\
  snd r = map fst rows /\
  forall af : Airfoil,
    In af (fst r) ->
    exists nm : string, In nm (map snd rows) /\ get ad nm = Some af.
Proof.
  revert r. induction rows as [| [span nm] rows IH]; intros r H.
  - injection H as <-. cbn. repeat split. intros af [].
  - cbn [airfoil_rows] in H. unfold getitem in H.
    destruct (get ad nm) as [af0 |] eqn:Hget; [| discriminate].
    cbn [Py.bind] in H.
    destruct (airfoil_rows ad rows) as [rest | e]; [| discriminate].
    injection H as <-. destruct (IH rest eq_refl) as (Hlen & Hspans & Hin).
    cbn [fst snd List.length map]. split; [congruence |].
    split; [congruence |].
    intros af [<- | Haf].
    + exists nm. split; [now left | exact Hget].
    + destruct (Hin af Haf) as (nm' & Hnm' & Hget').
      exists nm'. split; [now right | exact Hget'].
Qed.

Lemma airfoil_rows_missing (ad : dict Airfoil) (rows : list (R * string)) :
  (exists nm : string, In nm (map snd rows) /\ get ad nm = None) ->
  exists nm : string,
    In nm (map snd rows) /\ get ad nm = None /\
    airfoil_rows ad rows = Raise (KeyError nm).
Proof.
  induction rows as [| [span nm] rows IH]; intros (nm0 & Hin & Hnone).
  - destruct Hin.
  - cbn [airfoil_rows]. unfold getitem.
    destruct (get ad nm) as [af0 |] eqn:Hget.
    + destruct Hin as [Heq | Hin]; [cbn in Heq; congruence |].
      destruct IH as (nm1 & Hin1 & Hnone1 & Hrows); [now exists nm0 |].
      exists nm1. split; [now right |]. split; [exact Hnone1 |].
      cbn [Py.bind]. now rewrite Hrows.
    + exists nm. split; [now left |]. split; [exact Hget | reflexivity].
Qed.

(** X12.  What [_initialize_airfoils] does with the airfoil setting: with
    no airfoil at hand the default cannot be taken ([IndexError]); a named
    airfoil that is not at hand is an [IOError]; a table row that names an
    airfoil not at hand is a [KeyError] of that name, not an [IOError]; and
    when the method completes, the stored airfoils and spans are as many as
    [_num_airfoils] and every stored airfoil is one of those at hand. *)
Theorem airfoil_selection_outcomes (self : WingSegment)
    (airfoil_dict : dict Airfoil) :
  (airfoil_dict = [] ->
   _initialize_airfoils self airfoil_dict = Raise IndexError) /\
  (forall (k : string) (af0 : Airfoil) (ad : dict Airfoil) (nm : string),
      airfoil_dict = (k, af0) :: ad ->
      opt_default (in_airfoil (_input_dict self)) (AirfoilName k)
      = AirfoilName nm ->
      get airfoil_dict nm = None ->
      _initialize_airfoils self airfoil_dict
      = Raise (IOError ("'" ++ nm ++ "' must be specified in 'airfoils'."))) /\
  (forall rows : list (R * string),
      airfoil_dict <> [] ->
      in_airfoil (_input_dict self) = Some (AirfoilTable rows) ->
      (exists nm : string, In nm (map snd rows) /\ get airfoil_dict nm = None) ->
      exists nm : string,
        In nm (map snd rows) /\ get airfoil_dict nm = None /\
        _initialize_airfoils self airfoil_dict = Raise (KeyError nm)) /\
  (forall self' : WingSegment,
      _initialize_airfoils self airfoil_dict = Ok self' ->
      exists a : airfoil_attrs,
        self' = set_airfoils self a /\
        List.length (_airfoils a) = _num_airfoils a /\
        List.length (_airfoil_spans a) = _num_airfoils a /\
        forall af : Airfoil,
          In af (_airfoils a) ->
          exists nm : string, get airfoil_dict nm = Some af).
Proof.
  split; [| split; [| split]].
  - intros ->. reflexivity.
  - intros k af0 ad nm -> Hnm Hnone.
    unfold _initialize_airfoils, select_airfoils. cbn [keys map fst].
    rewrite Hnm, Hnone. reflexivity.
  - intros rows Hne Hrows Hmissing.
    destruct (airfoil_rows_missing airfoil_dict rows Hmissing)
      as (nm & Hin & Hnone & Hraise).
    exists nm. split; [exact Hin |]. split; [exact Hnone |].
    unfold _initialize_airfoils, select_airfoils.
    destruct airfoil_dict as [| [k af0] ad]; [contradiction |].
    cbn [keys map fst]. rewrite Hrows. cbn [opt_default].
    rewrite Hraise. reflexivity.
  - intros self' H. unfold _initialize_airfoils in H.
    destruct (select_airfoils (_input_dict self) airfoil_dict) as [a | e]
      eqn:Hsel; [| discriminate].
    injection H as <-. exists a. split; [reflexivity |].
    unfold select_airfoils in Hsel.
    destruct (keys airfoil_dict) as [| k ks]; [discriminate |].
    destruct (opt_default (in_airfoil (_input_dict self)) (AirfoilName k))
      as [nm | rows |]; [| | discriminate].
    + destruct (get airfoil_dict nm) as [af |] eqn:Hget; [| discriminate].
      injection Hsel as <-. cbn. repeat split.
      intros af' [<- | [<- | []]]; now exists nm.
    + destruct (airfoil_rows airfoil_dict rows) as [r | e] eqn:Hrows;
        [| discriminate].
      injection Hsel as <-. cbn.
      destruct (airfoil_rows_Ok _ _ _ Hrows) as (Hlen & Hspans & Hin).
      split; [exact Hlen |]. split; [now rewrite Hspans, length_map |].
      intros af Haf. destruct (Hin af Haf) as (nm & _ & Hget).
      now exists nm.
Qed.

(** ** Blending along the span *)

Lemma mapM_Forall2 {A B} (f : A -> result B) (l : list A) (l' : list B) :
  mapM f l = Ok l' -> Forall2 (fun x y => f x = Ok y) l l'.
Proof.
  revert l'. induction l as [| x l IH]; intros l' H; cbn [mapM] in H.
  - injection H as <-. constructor.
  - destruct (f x) as [y | e] eqn:Hx; [| discriminate].
    destruct (mapM f l) as [ys | e]; [| discriminate].
    injection H as <-. constructor; [exact Hx | now apply IH].
Qed.

Lemma mapM_total {A B} (f : A -> result B) (l : list A) :
  (forall x : A, In x l -> exists y : B, f x = Ok y) ->
  exists l' : list B, mapM f l = Ok l'.
Proof.
  induction l as [| x l IH]; intros H; cbn [mapM].
  - now exists [].
  - destruct (H x (or_introl eq_refl)) as [y ->].
    destruct IH as [ys ->]; [intros x' Hx'; apply H; now right |].
    now exists (y :: ys).
Qed.

Lemma mapM_raises {A B} (f : A -> result B) (l : list A) (e : exn) :
  (forall (x : A) (e' : exn), In x l -> f x = Raise e' -> e' = e) ->
  (exists x : A, In x l /\ f x = Raise e) ->
  mapM f l = Raise e.
Proof.
  induction l as [| x l IH]; intros Honly (x0 & Hin & Hx0); [destruct Hin |].
  cbn [mapM]. destruct (f x) as [y | e'] eqn:Hx.
  - destruct Hin as [-> | Hin]; [congruence |].
    rewrite IH; [reflexivity | | now exists x0].
    intros x' e' Hx' Hraise. apply (Honly x' e'); [now right | exact Hraise].
  - f_equal. apply (Honly x e'); [now left | exact Hx].
Qed.

Lemma searchsorted_spec (a : list R) (v : R) :
  (searchsorted a v <= List.length a)%nat /\
  (forall i : nat, (i < searchsorted a v)%nat -> nth i a 0 < v) /\
  ((searchsorted a v < List.length a)%nat ->
   v <= nth (searchsorted a v) a 0).
Proof.
  induction a as [| x a (IHle & IHlt & IHge)]; cbn [searchsorted List.length].
  - split; [lia |]. split; intros; lia.
  - destruct (Rle_dec v x) as [Hle | Hgt].
    + split; [lia |]. split; [intros; lia | intros _; exact Hle].
    + split; [lia |]. split.
      * intros [| i] Hi; cbn [nth]; [lra | apply IHlt; lia].
      * intros Hlt. cbn [nth]. apply IHge. lia.
Qed.

Lemma increasing_head (x : R) (a : list R) (j : nat) :
  increasing (x :: a) -> (j < List.length a)%nat -> x < nth j a 0.
Proof.
  revert x j. induction a as [| y a IH]; intros x j Hinc Hj; [cbn in Hj; lia |].
  destruct Hinc as [Hxy Hinc]. destruct j as [| j]; cbn [nth]; [exact Hxy |].
  cbn [List.length] in Hj. pose proof (IH y j Hinc ltac:(lia)). lra.
Qed.

Lemma increasing_tail (x : R) (a : list R) :
  increasing (x :: a) -> increasing a.
Proof. destruct a as [| y a]; [intros _; exact I | intros [_ H]; exact H]. Qed.

Lemma increasing_nth (a : list R) (i j : nat) :
  increasing a -> (i < j)%nat -> (j < List.length a)%nat ->
  nth i a 0 < nth j a 0.
Proof.
  revert i j. induction a as [| x a IH]; intros i j Hinc Hij Hj;
    [cbn in Hj; lia |].
  cbn [List.length] in Hj. destruct j as [| j]; [lia |].
  destruct i as [| i]; cbn [nth].
  - apply increasing_head; [exact Hinc | lia].
  - apply IH; [now apply increasing_tail in Hinc | lia | lia].
Qed.

Lemma searchsorted_at_station (a : list R) (k : nat) :
  increasing a -> (k < List.length a)%nat ->
  searchsorted a (nth k a 0) = k.
Proof.
  intros Hinc Hk.
  destruct (searchsorted_spec a (nth k a 0)) as (_ & Hlt & Hge).
  destruct (Nat.lt_trichotomy (searchsorted a (nth k a 0)) k)
    as [Hm | [Hm | Hm]]; [| exact Hm |].
  - pose proof (increasing_nth a _ k Hinc Hm Hk).
    pose proof (Hge ltac:(lia)). lra.
  - pose proof (Hlt k Hm). lra.
Qed.

Lemma interpolate_at_bracket (sample_spans : list R) (x : R)
    (coefs : list R) (j : nat) :
  Nat.pred (searchsorted sample_spans x) = j ->
  (S j < List.length sample_spans)%nat ->
  List.length coefs = List.length sample_spans ->
  interpolate_at sample_spans x coefs
  = Ok ((1 - (x - nth j sample_spans 0)
             / (nth (S j) sample_spans 0 - nth j sample_spans 0))
        * nth j coefs 0
        + (x - nth j sample_spans 0)
          / (nth (S j) sample_spans 0 - nth j sample_spans 0)
          * nth (S j) coefs 0).
Proof.
  intros Hj Hlt Hlen. unfold interpolate_at. rewrite Hj.
  replace (j + 1)%nat with (S j) by lia.
  rewrite (nth_error_nth' sample_spans 0) by lia.
  rewrite (nth_error_nth' sample_spans 0 Hlt).
  rewrite (nth_error_nth' coefs 0) by lia.
  rewrite (nth_error_nth' coefs 0) by lia.
  reflexivity.
Qed.

Lemma interpolate_at_IndexError (sample_spans : list R) (x : R)
    (coefs : list R) (e : exn) :
  interpolate_at sample_spans x coefs = Raise e -> e = IndexError.
Proof.
  unfold interpolate_at.
  repeat match goal with
         | |- context [match ?o with Some _ => _ | None => _ end] =>
             destruct o
         end; congruence.
Qed.

Lemma interpolate_at_right (sample_spans : list R) (x : R) (coefs : list R) :
  (forall s : R, In s sample_spans -> s < x) ->
  interpolate_at sample_spans x coefs = Raise IndexError.
Proof.
  intros Hright.
  destruct (searchsorted_spec sample_spans x) as (Hle & _ & Hge).
  assert (Hall : searchsorted sample_spans x = List.length sample_spans).
  { destruct (Nat.eq_dec (searchsorted sample_spans x)
                (List.length sample_spans)) as [H | H]; [exact H |].
    assert (Hlt : (searchsorted sample_spans x < List.length sample_spans)%nat)
      by lia.
    pose proof (Hge Hlt).
    pose proof (Hright _ (nth_In sample_spans 0 Hlt)). lra. }
  unfold interpolate_at. rewrite Hall.
  destruct sample_spans as [| s0 rest].
  - cbn. reflexivity.
  - cbn [List.length Nat.pred].
    replace (nth_error (s0 :: rest) (List.length rest + 1)) with (@None R).
    + now destruct (nth_error (s0 :: rest) (List.length rest)).
    + symmetry. apply nth_error_None. cbn [List.length]. lia.
Qed.

Lemma last_is_nth (l : list R) :
  last l 0 = nth (List.length l - 1) l 0.
Proof.
  induction l as [| x [| y l] IH]; [reflexivity | reflexivity |].
  change (last (x :: y :: l) 0) with (last (y :: l) 0). rewrite IH.
  cbn [List.length nth]. replace (S (S (List.length l)) - 1)%nat
    with (S (List.length l)) by lia.
  cbn [nth]. now replace (S (List.length l) - 1)%nat with (List.length l) by lia.
Qed.

Lemma Forall2_at {A B} (P : A -> B -> Prop) (l : list A) (l' : list B)
    (a : A) (b : B) (i : nat) :
  Forall2 P l l' -> (i < List.length l)%nat -> P (nth i l a) (nth i l' b).
Proof.
  intros H. revert i. induction H as [| x y l l' Hxy _ IH]; intros i Hi.
  - cbn in Hi. lia.
  - destruct i as [| i]; cbn [nth]; [exact Hxy |].
    apply IH. cbn in Hi. lia.
Qed.

Lemma interpolate_at_inside (sample_spans : list R) (x : R) (coefs : list R) :
  increasing sample_spans ->
  (2 <= List.length sample_spans)%nat ->
  List.length coefs = List.length sample_spans ->
  nth 0 sample_spans 0 <= x <= last sample_spans 0 ->
  exists (j : nat) (d : R),
    (S j < List.length sample_spans)%nat /\ 0 <= d <= 1 /\
    x = (1 - d) * nth j sample_spans 0 + d * nth (S j) sample_spans 0 /\
    interpolate_at sample_spans x coefs
    = Ok ((1 - d) * nth j coefs 0 + d * nth (S j) coefs 0).
Proof.
  intros Hinc Hlen2 Hlen [Hfirst Hlast]. rewrite last_is_nth in Hlast.
  destruct (searchsorted_spec sample_spans x) as (Hle & Hlt & Hge).
  set (m := searchsorted sample_spans x) in *.
  assert (Hm : (m < List.length sample_spans)%nat).
  { destruct (Nat.eq_dec m (List.length sample_spans)) as [Heq | Hne];
      [| lia].
    pose proof (Hlt (List.length sample_spans - 1)%nat ltac:(lia)). lra. }
  specialize (Hge Hm).
  set (j := Nat.pred m).
  assert (Hj : (S j < List.length sample_spans)%nat) by (unfold j; lia).
  assert (Hlow : nth j sample_spans 0 <= x).
  { destruct m as [| m']; [exact Hfirst |].
    left. apply Hlt. unfold j. cbn. lia. }
  assert (Hhigh : x <= nth (S j) sample_spans 0).
  { destruct m as [| m'] eqn:Hm'; [| exact Hge].
    pose proof (increasing_nth sample_spans 0 1 Hinc ltac:(lia) ltac:(lia)).
    unfold j. cbn [Nat.pred]. lra. }
  pose proof (increasing_nth sample_spans j (S j) Hinc ltac:(lia) Hj) as Hstep.
  exists j, ((x - nth j sample_spans 0)
             / (nth (S j) sample_spans 0 - nth j sample_spans 0)).
  split; [exact Hj |]. split; [| split].
  - split.
    + apply Rmult_le_pos; [lra |]. left. apply Rinv_0_lt_compat. lra.
    + apply (Rmult_le_reg_r (nth (S j) sample_spans 0 - nth j sample_spans 0));
        [lra |].
      unfold Rdiv. rewrite Rmult_assoc, Rinv_l by lra. lra.
  - field. lra.
  - now apply interpolate_at_bracket.
Qed.

Lemma interpolate_at_station (sample_spans : list R) (coefs : list R)
    (k : nat) :
  increasing sample_spans ->
  (2 <= List.length sample_spans)%nat ->
  List.length coefs = List.length sample_spans ->
  (k < List.length sample_spans)%nat ->
  interpolate_at sample_spans (nth k sample_spans 0) coefs
  = Ok (nth k coefs 0).
Proof.
  intros Hinc Hlen2 Hlen Hk.
  pose proof (searchsorted_at_station sample_spans k Hinc Hk) as Hm.
  destruct k as [| k].
  - rewrite (interpolate_at_bracket sample_spans _ coefs 0%nat);
      [| now rewrite Hm | lia | exact Hlen].
    pose proof (increasing_nth sample_spans 0 1 Hinc ltac:(lia) ltac:(lia)).
    f_equal. field. lra.
  - rewrite (interpolate_at_bracket sample_spans _ coefs k);
      [| now rewrite Hm | lia | exact Hlen].
    pose proof (increasing_nth sample_spans k (S k) Hinc ltac:(lia) Hk).
    f_equal. field. lra.
Qed.

(** X13.  [_airfoil_interpolator] raises [IndexError] as soon as one of the
    span locations lies to the right of every station of the airfoil
    table. *)
Theorem interpolator_right_of_stations (interp_spans sample_spans : list R)
    (coefs : matrix) :
  List.length interp_spans = List.length coefs ->
  (exists x : R,
      In x interp_spans /\ forall s : R, In s sample_spans -> s < x) ->
  _airfoil_interpolator interp_spans sample_spans coefs = Raise IndexError.
Proof.
  intros Hlen (x & Hin & Hright). unfold _airfoil_interpolator.
  apply mapM_raises.
  - intros [x' row] e _ H. now apply interpolate_at_IndexError in H.
  - destruct (In_nth interp_spans x 0 Hin) as (i & Hi & Hx).
    exists (x, nth i coefs []). split.
    + rewrite <- Hx, <- combine_nth by exact Hlen.
      apply nth_In. rewrite length_combine. lia.
    + now apply interpolate_at_right.
Qed.

(** X14.  For stations that increase strictly and span locations between
    the first and the last station, [_airfoil_interpolator] returns one
    value for each location: the linear blend of the row's values at the
    two stations that bracket the location.  At a station it returns the
    row's value at that station. *)
Theorem interpolator_is_piecewise_linear (interp_spans sample_spans : list R)
    (coefs : matrix) :
  increasing sample_spans ->
  (2 <= List.length sample_spans)%nat ->
  List.length interp_spans = List.length coefs ->
  Forall (fun row => List.length row = List.length sample_spans) coefs ->
  (forall x : R,
      In x interp_spans ->
      nth 0 sample_spans 0 <= x <= last sample_spans 0) ->
  exists values : list R,
    _airfoil_interpolator interp_spans sample_spans coefs = Ok values /\
    List.length values = List.length interp_spans /\
    forall i : nat,
      (i < List.length interp_spans)%nat ->
      (exists (j : nat) (d : R),
          (S j < List.length sample_spans)%nat /\ 0 <= d <= 1 /\
          nth i interp_spans 0
          = (1 - d) * nth j sample_spans 0 + d * nth (S j) sample_spans 0 /\
          nth i values 0
          = (1 - d) * nth j (nth i coefs []) 0
            + d * nth (S j) (nth i coefs []) 0) /\
      (forall k : nat,
          (k < List.length sample_spans)%nat ->
          nth i interp_spans 0 = nth k sample_spans 0 ->
          nth i values 0 = nth k (nth i coefs []) 0).
Proof.
  intros Hinc Hlen2 Hlen Hrows Hinside. unfold _airfoil_interpolator.
  rewrite Forall_forall in Hrows.
  destruct (mapM_total
              (fun sc : R * list R =>
                 interpolate_at sample_spans (fst sc) (snd sc))
              (combine interp_spans coefs)) as [values Hvalues].
  { intros [x row] Hin. cbn [fst snd].
    destruct (interpolate_at_inside sample_spans x row Hinc Hlen2)
      as (j & d & _ & _ & _ & ->).
    - apply Hrows. eapply in_combine_r, Hin.
    - apply Hinside. eapply in_combine_l, Hin.
    - eauto. }
  exists values. split; [exact Hvalues |].
  pose proof (mapM_length _ _ _ Hvalues) as Hlen_values.
  rewrite length_combine in Hlen_values.
  split; [lia |].
  intros i Hi. apply mapM_Forall2 in Hvalues.
  pose proof (Forall2_at _ _ _ (0, []) 0 i Hvalues
                ltac:(rewrite length_combine; lia)) as Hat.
  cbv beta in Hat. rewrite combine_nth in Hat by exact Hlen.
  cbn [fst snd] in Hat.
  assert (Hrow : List.length (nth i coefs []) = List.length sample_spans)
    by (apply Hrows, nth_In; lia).
  split.
  - destruct (interpolate_at_inside sample_spans (nth i interp_spans 0)
                (nth i coefs []) Hinc Hlen2 Hrow)
      as (j & d & Hj & Hd & Hx & Hv).
    { apply Hinside, nth_In, Hi. }
    exists j, d. repeat split; try tauto. congruence.
  - intros k Hk Hx. rewrite Hx in Hat.
    rewrite (interpolate_at_station sample_spans _ k Hinc Hlen2 Hrow Hk) in Hat.
    congruence.
Qed.

(** ** The tree of attached segments: registration and retrieval *)

Lemma set_attached_same (t : WingSegment) :
  set_attached t (_attached_segments t) = t.
Proof. destruct t. reflexivity. Qed.

Lemma get_same_keys {V} (d d' : dict V) (k : string) :
  map fst d' = map fst d -> get d k = None -> get d' k = None.
Proof.
  revert d'. induction d as [| [k0 v0] d IH]; intros [| [k1 v1] d'] Hkeys;
    try discriminate; [reflexivity |].
  injection Hkeys as -> Hkeys. cbn [get].
  destruct (String.eqb k k0); [discriminate | now apply IH].
Qed.

Lemma lookup_loop_Some (lookup : WingSegment -> option WingSegment)
    (kids : dict WingSegment) (s : WingSegment) :
  lookup_loop lookup kids = Some s ->
  exists (key : string) (child : WingSegment),
    In (key, child) kids /\ lookup child = Some s.
Proof.
  induction kids as [| [k c] rest IH]; cbn [lookup_loop]; [discriminate |].
  destruct (lookup c) as [found |] eqn:Hc.
  - intros H. injection H as <-. exists k, c. split; [now left | exact Hc].
  - intros H. destruct (IH H) as (key & child & Hin & Hchild).
    exists key, child. split; [now right | exact Hchild].
Qed.

Lemma lookup_loop_None (lookup : WingSegment -> option WingSegment)
    (kids : dict WingSegment) :
  lookup_loop lookup kids = None <->
  forall (key : string) (child : WingSegment),
    In (key, child) kids -> lookup child = None.
Proof.
  induction kids as [| [k c] rest IH]; cbn [lookup_loop].
  - split; [intros _ ? ? [] | reflexivity].
  - destruct (lookup c) as [found |] eqn:Hc.
    + split; [discriminate |]. intros H.
      specialize (H k c (or_introl eq_refl)). congruence.
    + rewrite IH. split.
      * intros H key child [Heq | Hin]; [congruence | eauto].
      * intros H key child Hin. apply (H key child). now right.
Qed.

Lemma lookup_unfold (t : WingSegment) (wing_segment_name : string) :
  _get_attached_wing_segment t wing_segment_name =
  match get (_attached_segments t) wing_segment_name with
  | Some found => Some found
  | None =>
      lookup_loop
        (fun child => _get_attached_wing_segment child wing_segment_name)
        (_attached_segments t)
  end.
Proof. destruct t. reflexivity. Qed.

Lemma lookup_stored (wing_segment_name : string) (t s : WingSegment) :
  _get_attached_wing_segment t wing_segment_name = Some s ->
  stored_under wing_segment_name s t.
Proof.
  induction t as [t IH] using WingSegment_tree_ind. rewrite lookup_unfold.
  destruct (get (_attached_segments t) wing_segment_name) as [found |] eqn:Hget.
  - intros H. injection H as <-. now apply anywhere_here.
  - intros H. apply lookup_loop_Some in H as (key & child & Hin & Hchild).
    apply (anywhere_below _ t key child Hin). now apply (IH key child).
Qed.

Lemma lookup_None (wing_segment_name : string) (t s : WingSegment) :
  _get_attached_wing_segment t wing_segment_name = None ->
  ~ stored_under wing_segment_name s t.
Proof.
  induction t as [t IH] using WingSegment_tree_ind. rewrite lookup_unfold.
  destruct (get (_attached_segments t) wing_segment_name) as [found |] eqn:Hget;
    [discriminate |].
  intros Hloop Hstored. rewrite lookup_loop_None in Hloop.
  inversion Hstored as [t' Hhere | t' key child Hin Hbelow]; subst t'.
  - congruence.
  - exact (IH key child Hin (Hloop key child Hin) Hbelow).
Qed.

(** X19.  [_get_attached_wing_segment] returns only a segment that is
    stored under the name in some segment of the tree, and it returns
    [False] exactly when no segment of the tree stores one under the
    name. *)
Theorem lookup_finds_what_is_stored (wing_segment_name : string)
    (t : WingSegment) :
  (forall s : WingSegment,
      _get_attached_wing_segment t wing_segment_name = Some s ->
      stored_under wing_segment_name s t) /\
  (_get_attached_wing_segment t wing_segment_name = None <->
   forall s : WingSegment, ~ stored_under wing_segment_name s t).
Proof.
  split; [intros s; apply lookup_stored |]. split.
  - intros H s. now apply lookup_None.
  - intros H.
    destruct (_get_attached_wing_segment t wing_segment_name) as [s |] eqn:Hs;
      [| reflexivity].
    destruct (H s (lookup_stored _ _ _ Hs)).
Qed.

Section TreeRoundTrip.

Variable quad : (R -> R) -> R -> R -> R.
Variables (wing_segment_name : string) (input : input_dict).
Variables (side unit_sys : string) (airfoil_dict : dict Airfoil).

Let attach (t : WingSegment) : result (option WingSegment) * WingSegment :=
  _attach_wing_segment quad t wing_segment_name input side unit_sys
    airfoil_dict.

Let lookup (t : WingSegment) : option WingSegment :=
  _get_attached_wing_segment t wing_segment_name.

Lemma attach_loop_keys (kids : dict WingSegment) :
  map fst (snd (attach_loop attach side kids)) = map fst kids.
Proof.
  induction kids as [| [k c] rest IH]; cbn [attach_loop]; [reflexivity |].
  destruct (contains side k); cbn [negb].
  - destruct (attach c) as [[[new |] | e] c']; [reflexivity | | reflexivity].
    destruct (attach_loop attach side rest) as [r' rest']. cbn in *.
    now rewrite IH.
  - destruct (attach_loop attach side rest) as [r' rest']. cbn in *.
    now rewrite IH.
Qed.

Lemma attach_loop_frame (kids : dict WingSegment) :
  (forall (key : string) (child : WingSegment),
      In (key, child) kids ->
      (forall new : WingSegment, fst (attach child) <> Ok (Some new)) ->
      snd (attach child) = child) ->
  (forall new : WingSegment,
      fst (attach_loop attach side kids) <> Ok (Some new)) ->
  snd (attach_loop attach side kids) = kids.
Proof.
  induction kids as [| [k c] rest IH]; cbn [attach_loop]; [reflexivity |].
  intros Hkids.
  assert (Hrest : (forall new : WingSegment,
                      fst (attach_loop attach side rest) <> Ok (Some new)) ->
                  snd (attach_loop attach side rest) = rest).
  { apply IH. intros key child Hin. apply (Hkids key child). now right. }
  destruct (contains side k); cbn [negb].
  - pose proof (Hkids k c (or_introl eq_refl)) as Hc.
    destruct (attach c) as [[[new |] | e] c']; cbn [fst snd] in *.
    + intros H. destruct (H new eq_refl).
    + destruct (attach_loop attach side rest) as [r' rest']. cbn [fst snd] in *.
      intros H. rewrite Hc, (Hrest H); [reflexivity | discriminate].
    + intros _. rewrite Hc; [reflexivity | discriminate].
  - destruct (attach_loop attach side rest) as [r' rest']. cbn [fst snd] in *.
    intros H. now rewrite (Hrest H).
Qed.

Lemma attach_frame (t : WingSegment) :
  (forall new : WingSegment, fst (attach t) <> Ok (Some new)) ->
  snd (attach t) = t.
Proof.
  induction t as [t IH] using WingSegment_tree_ind.
  unfold attach. rewrite attach_unfold. fold attach. destruct (ID_is t _).
  - destruct (Py.bind _ _) as [new | e]; cbn [fst snd]; [| reflexivity].
    intros H. destruct (H new eq_refl).
  - pose proof (attach_loop_frame (_attached_segments t) IH) as Hloop.
    destruct (attach_loop attach side (_attached_segments t))
      as [[[new |] | e] kids']; cbn [fst snd] in *.
    + intros H. destruct (H new eq_refl).
    + intros _. rewrite Hloop by discriminate.
      destruct (ID_is t 0); cbn [snd]; apply set_attached_same.
    + intros _. rewrite Hloop by discriminate. apply set_attached_same.
Qed.

Lemma attach_loop_lookup (kids : dict WingSegment) (new : WingSegment) :
  (forall (key : string) (child : WingSegment),
      In (key, child) kids ->
      fst (attach child) = Ok (Some new) ->
      lookup child = None ->
      lookup (snd (attach child)) = Some new) ->
  fst (attach_loop attach side kids) = Ok (Some new) ->
  lookup_loop lookup kids = None ->
  lookup_loop lookup (snd (attach_loop attach side kids)) = Some new.
Proof.
  induction kids as [| [k c] rest IH]; cbn [attach_loop lookup_loop];
    [discriminate |].
  intros Hkids.
  assert (Hrest : fst (attach_loop attach side rest) = Ok (Some new) ->
                  lookup_loop lookup rest = None ->
                  lookup_loop lookup (snd (attach_loop attach side rest))
                  = Some new).
  { apply IH. intros key child Hin. apply (Hkids key child). now right. }
  destruct (lookup c) as [found |] eqn:Hlookup; [discriminate |].
  destruct (contains side k); cbn [negb].
  - pose proof (Hkids k c (or_introl eq_refl)) as Hc.
    pose proof (attach_frame c) as Hframe.
    destruct (attach c) as [[[new' |] | e] c']; cbn [fst snd] in *.
    + intros H _. cbn [lookup_loop]. now rewrite (Hc H Hlookup).
    + destruct (attach_loop attach side rest) as [r' rest']. cbn [fst snd] in *.
      intros H Hnone. cbn [lookup_loop].
      rewrite Hframe by discriminate. rewrite Hlookup. now apply Hrest.
    + discriminate.
  - destruct (attach_loop attach side rest) as [r' rest']. cbn [fst snd] in *.
    intros H Hnone. cbn [lookup_loop]. rewrite Hlookup. now apply Hrest.
Qed.

Lemma attach_then_lookup (t new : WingSegment) :
  fst (attach t) = Ok (Some new) ->
  lookup t = None ->
  lookup (snd (attach t)) = Some new.
Proof.
  induction t as [t IH] using WingSegment_tree_ind.
  unfold attach. rewrite attach_unfold. fold attach.
  unfold lookup. rewrite !lookup_unfold. fold lookup.
  destruct (ID_is t _).
  - destruct (Py.bind _ _) as [new' | e]; cbn [fst snd]; [| discriminate].
    intros H _. injection H as ->.
    cbn [_attached_segments set_attached]. now rewrite get_setitem.
  - destruct (get (_attached_segments t) wing_segment_name) eqn:Hget;
      [discriminate |].
    pose proof (attach_loop_lookup (_attached_segments t) new IH) as Hloop.
    pose proof (attach_loop_keys (_attached_segments t)) as Hkeys.
    destruct (attach_loop attach side (_attached_segments t))
      as [[[new' |] | e] kids']; cbn [fst snd] in *.
    + intros H Hnone. cbn [_attached_segments set_attached].
      rewrite (get_same_keys _ kids' _ Hkeys Hget). now apply Hloop.
    + destruct (ID_is t 0); discriminate.
    + discriminate.
Qed.

End TreeRoundTrip.

Section AttachmentPoint.

Variable quad : (R -> R) -> R -> R -> R.
Variables (wing_segment_name : string) (input : input_dict).
Variables (side unit_sys : string) (airfoil_dict : dict Airfoil).

Let attach (t : WingSegment) : result (option WingSegment) * WingSegment :=
  _attach_wing_segment quad t wing_segment_name input side unit_sys
    airfoil_dict.

(** [parent] has the parent's [ID], and [new] is constructed at its
    connection point. *)
Let constructed_at (new parent : WingSegment) : Prop :=
  has_ID (parent_ID_of input) parent /\
  exists pt : vec3,
    attachment_point quad input parent = Ok pt /\
    WingSegment_init quad wing_segment_name input side unit_sys airfoil_dict pt
    = Ok new.

Lemma attach_loop_Some (kids : dict WingSegment) (new : WingSegment) :
  fst (attach_loop attach side kids) = Ok (Some new) ->
  exists (key : string) (child : WingSegment),
    In (key, child) kids /\ contains side key = true /\
    fst (attach child) = Ok (Some new).
Proof.
  induction kids as [| [k c] rest IH]; cbn [attach_loop]; [discriminate |].
  destruct (contains side k) eqn:Hside; cbn [negb].
  - destruct (attach c) as [[[new' |] | e] c'] eqn:Hc; cbn [fst].
    + intros H. exists k, c. rewrite Hc. split; [now left | now split].
    + destruct (attach_loop attach side rest) as [r' rest']. cbn [fst] in *.
      intros H. destruct (IH H) as (key & child & Hin & Hkey & Hchild).
      exists key, child. split; [now right | now split].
    + discriminate.
  - destruct (attach_loop attach side rest) as [r' rest']. cbn [fst] in *.
    intros H. destruct (IH H) as (key & child & Hin & Hkey & Hchild).
    exists key, child. split; [now right | now split].
Qed.

Lemma attach_parent (t new : WingSegment) :
  fst (attach t) = Ok (Some new) -> on_side side (constructed_at new) t.
Proof.
  induction t as [t IH] using WingSegment_tree_ind.
  unfold attach. rewrite attach_unfold. fold attach.
  destruct (ID_is t _) eqn:Hid.
  - destruct (Py.bind _ _) as [new' | e] eqn:Hnew; cbn [fst]; [| discriminate].
    intros H. injection H as ->. apply on_side_here. split; [exact Hid |].
    apply bind_Ok in Hnew as (pt & Hpt & Hnew). exists pt. now split.
  - pose proof (attach_loop_Some (_attached_segments t) new) as Hloop.
    destruct (attach_loop attach side (_attached_segments t))
      as [[[new' |] | e] kids']; cbn [fst] in *.
    + intros H. destruct (Hloop H) as (key & child & Hin & Hkey & Hchild).
      apply (on_side_below _ _ t key child Hin Hkey). now apply (IH key child).
    + destruct (ID_is t 0); discriminate.
    + discriminate.
Qed.

End AttachmentPoint.

Lemma WingSegment_init_origin (quad : (R -> R) -> R -> R -> R)
    (name : string) (input : input_dict) (side unit_sys : string)
    (airfoil_dict : dict Airfoil) (origin : vec3) (self : WingSegment) :
  WingSegment_init quad name input side unit_sys airfoil_dict origin = Ok self ->
  _origin self = origin.
Proof.
  unfold WingSegment_init.
  set (fresh := new_object name input side unit_sys origin).
  destruct (ID_is fresh 0 && negb (String.eqb name "origin"))%bool;
    [discriminate |].
  destruct (ID_is fresh 0).
  - intros H. injection H as <-. reflexivity.
  - intros H. bind_inv H. bind_inv H. bind_inv H. bind_inv H.
    apply _initialize_params_Ok in Hx as (p & -> & _).
    apply _initialize_airfoils_Ok in Hx0 as (a & -> & _).
    apply _setup_control_surface_Ok in Hx1 as (c & -> & _).
    apply _setup_cp_data_Ok in Hx2 as (cp & ->).
    apply _setup_node_data_Ok in H as (n & ->).
    reflexivity.
Qed.

Lemma attach_wing_segment_at_origin (quad : (R -> R) -> R -> R -> R)
    (self : WingSegment) (wing_segment_name : string) (input : input_dict)
    (side unit_sys : string) (airfoil_dict : dict Airfoil)
    (new : WingSegment) :
  fst (attach_wing_segment quad self wing_segment_name input side unit_sys
         airfoil_dict) = Ok (Some new) ->
  attach_wing_segment quad self wing_segment_name input side unit_sys
    airfoil_dict
  = _attach_wing_segment quad self wing_segment_name input side unit_sys
      airfoil_dict.
Proof.
  unfold attach_wing_segment. destruct (ID_is self 0); cbn [negb fst];
    [reflexivity | discriminate].
Qed.

(** X16.  A call of [attach_wing_segment] that does not return a new
    segment (it raises, at the origin or from the constructor) leaves the
    whole tree as it was. *)
Theorem failed_attachment_changes_nothing (quad : (R -> R) -> R -> R -> R)
    (self : WingSegment) (wing_segment_name : string) (input : input_dict)
    (side unit_sys : string) (airfoil_dict : dict Airfoil) :
  (forall new : WingSegment,
      fst (attach_wing_segment quad self wing_segment_name input side unit_sys
             airfoil_dict) <> Ok (Some new)) ->
  snd (attach_wing_segment quad self wing_segment_name input side unit_sys
         airfoil_dict) = self.
Proof.
  unfold attach_wing_segment. destruct (ID_is self 0); cbn [negb];
    [| reflexivity].
  apply attach_frame.
Qed.

(** X17.  When [attach_wing_segment] returns a new segment, the tree it was
    called on has, on the side of the new segment, a segment with the
    parent's [ID]; the new segment was constructed at that segment's root
    location when the connection names the root, at its tip location
    otherwise, and that point is the new segment's [_origin]. *)
Theorem new_segment_at_parent_location (quad : (R -> R) -> R -> R -> R)
    (self : WingSegment) (wing_segment_name : string) (input : input_dict)
    (side unit_sys : string) (airfoil_dict : dict Airfoil)
    (new : WingSegment) :
  fst (attach_wing_segment quad self wing_segment_name input side unit_sys
         airfoil_dict) = Ok (Some new) ->
  on_side side
    (fun parent : WingSegment =>
       has_ID (parent_ID_of input) parent /\
       (if String.eqb (location_of input) "root" then get_root_loc parent
        else get_tip_loc quad parent) = Ok (_origin new) /\
       WingSegment_init quad wing_segment_name input side unit_sys
         airfoil_dict (_origin new) = Ok new)
    self.
Proof.
  intros H. rewrite (attach_wing_segment_at_origin _ _ _ _ _ _ _ _ H) in H.
  apply attach_parent in H.
  induction H as [t (Hid & pt & Hpt & Hnew) | t key child Hin Hkey _ IH].
  - apply on_side_here.
    rewrite (WingSegment_init_origin _ _ _ _ _ _ _ _ Hnew).
    split; [exact Hid |]. split; [exact Hpt | exact Hnew].
  - exact (on_side_below _ _ t key child Hin Hkey IH).
Qed.

(** X18.  Attach, then look up: when no segment of the tree stores a
    segment under the new name, [_get_attached_wing_segment] with that name
    on the tree after [attach_wing_segment] returns the new segment. *)
Theorem attach_then_lookup_round_trip (quad : (R -> R) -> R -> R -> R)
    (self : WingSegment) (wing_segment_name : string) (input : input_dict)
    (side unit_sys : string) (airfoil_dict : dict Airfoil)
    (new : WingSegment) :
  fst (attach_wing_segment quad self wing_segment_name input side unit_sys
         airfoil_dict) = Ok (Some new) ->
  _get_attached_wing_segment self wing_segment_name = None ->
  _get_attached_wing_segment
    (snd (attach_wing_segment quad self wing_segment_name input side unit_sys
            airfoil_dict)) wing_segment_name
  = Some new.
Proof.
  intros H Hnone.
  pose proof (attach_wing_segment_at_origin _ _ _ _ _ _ _ _ H) as Hcall.
  rewrite Hcall in H. rewrite Hcall.
  exact (attach_then_lookup quad wing_segment_name input side unit_sys
           airfoil_dict self new H Hnone).
Qed.

(** ** Segments of constant sweep and dihedral *)

Lemma constant_getter_item (data : R) (s : R) :
  item (call_getter (_build_getter_linear_f_of_span (Constant data) true)
          (PyFloat s))
  = radians data.
Proof. reflexivity. Qed.

Lemma constant_angles_quarter_chord (quad : (R -> R) -> R -> R -> R)
    (self : WingSegment) (p : params_attrs) (g : getter_attrs) (root : vec3)
    (sweep dihedral : R) (span : pyval) :
  exact_on_constants quad ->
  init_params self = Some p ->
  init_getters self = Some g ->
  (forall s : R, item (call_getter (get_sweep g) (PyFloat s)) = sweep) ->
  (forall s : R, item (call_getter (get_dihedral g) (PyFloat s)) = dihedral) ->
  get_root_loc self = Ok root ->
  _get_quarter_chord_loc quad self span =
  let along (s : R) :=
    vadd root
      (vscale s
         (vscale (b p)
            (- tan sweep,
             (if side_is self "left" then - cos dihedral else cos dihedral),
             - sin dihedral))) in
  Ok (match span with
      | PyFloat s => Point (along s)
      | PyArray a => Points (map along (data a))
      end).
Proof.
  intros quad_exact Hp Hg Hsweep Hdihedral Hroot.
  unfold _get_quarter_chord_loc.
  rewrite Hg, Hp, Hroot. cbn [attr Py.bind]. cbv zeta. f_equal.
  rewrite map_map.
  assert (Hstep : forall s : R,
             vadd root
               (quad (fun t => - tan (item (call_getter (get_sweep g) (PyFloat t))))
                  0 s * b p,
                (if side_is self "left" then
                   quad (fun t => - cos (item (call_getter (get_dihedral g)
                                                  (PyFloat t)))) 0 s * b p
                 else
                   quad (fun t => cos (item (call_getter (get_dihedral g)
                                                (PyFloat t)))) 0 s * b p),
                quad (fun t => - sin (item (call_getter (get_dihedral g)
                                              (PyFloat t)))) 0 s * b p)
             = vadd root
                 (vscale s
                    (vscale (b p)
                       (- tan sweep,
                        (if side_is self "left" then - cos dihedral
                         else cos dihedral),
                        - sin dihedral)))).
  { intros s.
    rewrite (quad_exact _ (- tan sweep) 0 s)
      by (intros t; now rewrite Hsweep).
    rewrite (quad_exact (fun t => - sin _) (- sin dihedral) 0 s)
      by (intros t; now rewrite Hdihedral).
    destruct root as [[r0 r1] r2]. destruct (side_is self "left").
    - rewrite (quad_exact _ (- cos dihedral) 0 s)
        by (intros t; now rewrite Hdihedral).
      cbn [vadd vscale]. f_equal; [f_equal |]; ring.
    - rewrite (quad_exact _ (cos dihedral) 0 s)
        by (intros t; now rewrite Hdihedral).
      cbn [vadd vscale]. f_equal; [f_equal |]; ring. }
  destruct span as [s | a]; cbn [elements map hd].
  - f_equal. apply Hstep.
  - f_equal. apply map_ext. intros s. apply Hstep.
Qed.

(** X22.  A segment constructed from an input whose sweep and dihedral are
    constants (in degrees), with an integrator that is exact on constant
    integrands: the root of the quarter-chord line is the given origin
    moved by the connection offsets ([y_offset] subtracted on the left,
    added otherwise), the line is straight, and the tip lies one semispan
    along [(- tan sweep, cos dihedral, - sin dihedral)], the second
    component negated on the left. *)
Theorem constant_angles_segment_geometry (quad : (R -> R) -> R -> R -> R)
    (name : string) (input : input_dict) (side unit_sys : string)
    (ad : dict Airfoil) (origin : vec3) (self : WingSegment)
    (sweep dihedral : R) :
  exact_on_constants quad ->
  WingSegment_init quad name input side unit_sys ad origin = Ok self ->
  in_ID input <> Some 0%Z ->
  opt_default (in_sweep input) (Constant 0) = Constant sweep ->
  opt_default (in_dihedral input) (Constant 0) = Constant dihedral ->
  let connect_get (f : connect_dict -> option R) : R :=
    match in_connect_to input with
    | Some c => opt_default (f c) 0
    | None => 0
    end in
  let root :=
    vadd origin
      (connect_get connect_dx,
       (if String.eqb side "left"
        then connect_get connect_dy - connect_get connect_y_offset
        else connect_get connect_dy + connect_get connect_y_offset),
       connect_get connect_dz) in
  let to_tip :=
    vscale (in_semispan input)
      (- tan (radians sweep),
       (if String.eqb side "left" then - cos (radians dihedral)
        else cos (radians dihedral)),
       - sin (radians dihedral)) in
  get_root_loc self = Ok root /\
  get_tip_loc quad self = Ok (vadd root to_tip) /\
  (forall s : R,
      _get_quarter_chord_loc quad self (PyFloat s)
      = Ok (Point (vadd root (vscale s to_tip)))) /\
  (forall a : ndarray,
      _get_quarter_chord_loc quad self (PyArray a)
      = Ok (Points (map (fun s => vadd root (vscale s to_tip)) (data a)))).
Proof.
  intros quad_exact Hself HID Hsweep Hdihedral connect_get root to_tip.
  destruct (constructed_fields quad _ _ _ _ _ _ _ Hself HID)
    as (p & a & c & cpd & n & Heq & _ & _ & Hb & _ & _ & _ & Hdelta & _).
  assert (Hp : init_params self = Some p) by (rewrite Heq; reflexivity).
  assert (Hg : init_getters self = Some (getters_of_input input))
    by (rewrite Heq; reflexivity).
  assert (Hside : side_is self "left" = String.eqb side "left")
    by (rewrite Heq; reflexivity).
  assert (Hnot0 : ID_is self 0 = false).
  { pose proof (ID_is_new_object name input side unit_sys origin HID) as H.
    rewrite Heq. exact H. }
  assert (Hroot : get_root_loc self = Ok root).
  { unfold get_root_loc. rewrite Hnot0, Hp. cbn [attr Py.bind].
    rewrite Hdelta. rewrite Heq. reflexivity. }
  pose proof (fun span =>
                constant_angles_quarter_chord quad self p
                  (getters_of_input input) root (radians sweep)
                  (radians dihedral) span quad_exact Hp Hg
                  ltac:(intros s; cbn [getters_of_input get_sweep];
                        rewrite Hsweep; apply constant_getter_item)
                  ltac:(intros s; cbn [getters_of_input get_dihedral];
                        rewrite Hdihedral; apply constant_getter_item)
                  Hroot) as Hqc.
  cbv zeta in Hqc. rewrite Hside, Hb in Hqc. fold to_tip in Hqc.
  split; [exact Hroot |]. split; [| split].
  - unfold get_tip_loc. rewrite Hnot0, (Hqc (PyFloat 1)).
    cbn [Py.bind point_of]. f_equal. f_equal.
    destruct to_tip as [[t0 t1] t2]. cbn [vscale]. f_equal; [f_equal |]; ring.
  - intros s. exact (Hqc (PyFloat s)).
  - intros arr. exact (Hqc (PyArray arr)).
Qed.

(** ** The outline of a segment *)

Lemma outline_layout {A} (fL fT : A -> vec3) (stations : list A) (d : A)
    (i : nat) :
  let points :=
    map fL stations ++ rev (map fT stations)
    ++ [hd (0, 0, 0) (map fL stations)] in
  (i < List.length stations)%nat ->
  List.length points = (2 * List.length stations + 1)%nat /\
  nth (2 * List.length stations) points (0, 0, 0) = nth 0 points (0, 0, 0) /\
  nth i points (0, 0, 0) = fL (nth i stations d) /\
  nth (2 * List.length stations - 1 - i) points (0, 0, 0)
  = fT (nth i stations d).
Proof.
  intros points Hi. unfold points. split; [| split; [| split]].
  - rewrite !length_app, length_rev, !length_map. cbn [List.length]. lia.
  - transitivity (hd (0, 0, 0) (map fL stations)).
    + rewrite app_nth2 by (rewrite length_map; lia).
      rewrite app_nth2 by (rewrite length_rev, !length_map; lia).
      rewrite length_rev, !length_map.
      now replace (2 * List.length stations - List.length stations
                   - List.length stations)%nat with 0%nat by lia.
    + destruct stations; [cbn in Hi; lia | reflexivity].
  - rewrite app_nth1 by (rewrite length_map; lia).
    rewrite (nth_indep _ _ (fL d)) by (rewrite length_map; lia).
    apply map_nth.
  - rewrite app_nth2 by (rewrite length_map; lia).
    rewrite app_nth1 by (rewrite length_rev, !length_map; lia).
    rewrite length_map.
    rewrite rev_nth by (rewrite length_map; lia).
    rewrite length_map.
    replace (List.length stations
             - S (2 * List.length stations - 1 - i - List.length stations))%nat
      with i by lia.
    rewrite (nth_indep _ _ (fT d)) by (rewrite length_map; lia).
    apply map_nth.
Qed.

(** X21.  On an initialised segment of [N] sections,
    [get_outline_points] returns [2 N + 1] points, the last equal to the
    first.  With the quarter-chord points, axial vectors and chords at the
    [N] span fractions from 0 to 1: point [i] is the quarter-chord point
    moved a quarter chord against the axial vector (the leading edge), and
    point [2 N - 1 - i] lies one chord from it along the axial vector (the
    trailing edge, stored from tip to root). *)
Theorem outline_points_layout (quad : (R -> R) -> R -> R -> R)
    (self : WingSegment) (p : params_attrs) (g : getter_attrs) :
  init_params self = Some p ->
  init_getters self = Some g ->
  let spans := PyArray (of_list (linspace 0 1 (_N p))) in
  let chords := elements (call_getter (get_chord g) spans) in
  exists (points qc axial : list vec3),
    get_outline_points quad self = Ok points /\
    _get_quarter_chord_loc quad self spans = Ok (Points qc) /\
    _get_axial_vec self spans = Ok axial /\
    List.length points = (2 * _N p + 1)%nat /\
    nth (2 * _N p) points (0, 0, 0) = nth 0 points (0, 0, 0) /\
    forall i : nat,
      (i < _N p)%nat ->
      nth i points (0, 0, 0)
      = vsub (nth i qc (0, 0, 0))
          (vscale 0.25 (vscale (nth i chords 0) (nth i axial (0, 0, 0)))) /\
      vsub (nth (2 * _N p - 1 - i) points (0, 0, 0)) (nth i points (0, 0, 0))
      = vscale (nth i chords 0) (nth i axial (0, 0, 0)).
Proof.
  intros Hp Hg spans chords.
  assert (Hroot : exists root : vec3, get_root_loc self = Ok root).
  { unfold get_root_loc. destruct (ID_is self 0); [eauto |].
    rewrite Hp. cbn. eauto. }
  destruct Hroot as [root Hroot].
  destruct (_get_quarter_chord_loc quad self spans) as [loc | e] eqn:Hqc;
    [| unfold _get_quarter_chord_loc in Hqc;
       rewrite Hg, Hp, Hroot in Hqc; discriminate].
  assert (Hloc : exists qc : list vec3,
             loc = Points qc /\ List.length qc = _N p).
  { unfold _get_quarter_chord_loc in Hqc. rewrite Hg, Hp, Hroot in Hqc.
    cbn [attr Py.bind spans] in Hqc. injection Hqc as <-.
    eexists. split; [reflexivity |].
    rewrite !length_map. cbn [elements of_list data]. apply linspace_length. }
  destruct Hloc as (qc & -> & Hlen_qc).
  destruct (_get_axial_vec self spans) as [axial | e] eqn:Haxial;
    [| unfold _get_axial_vec in Haxial; rewrite Hg in Haxial; discriminate].
  pose proof (_get_axial_vec_length self spans axial Haxial) as Hlen_axial.
  cbn [spans elements of_list data] in Hlen_axial.
  rewrite linspace_length in Hlen_axial.
  assert (Hlen_chords : List.length chords = _N p).
  { unfold chords, spans. rewrite call_getter_elements.
    now rewrite length_map, linspace_length. }
  set (stations := combine qc (combine axial chords)).
  assert (Hlen : List.length stations = _N p).
  { unfold stations. rewrite !length_combine. lia. }
  eexists. exists qc, axial.
  split.
  { unfold get_outline_points. rewrite Hp. cbn [attr Py.bind].
    fold spans. rewrite Hqc, Hg. cbn [attr Py.bind]. rewrite Haxial.
    cbn [Py.bind rows_of]. reflexivity. }
  fold spans chords stations.
  split; [reflexivity |]. split; [reflexivity |].
  set (fL := fun r : vec3 * (vec3 * R) =>
               vsub (fst r) (vscale 0.25 (vscale (snd (snd r)) (fst (snd r))))).
  set (fT := fun r : vec3 * (vec3 * R) =>
               vadd (fst r) (vscale 0.75 (vscale (snd (snd r)) (fst (snd r))))).
  assert (Hstation : forall i : nat,
             nth i stations ((0, 0, 0), ((0, 0, 0), 0))
             = (nth i qc (0, 0, 0), (nth i axial (0, 0, 0), nth i chords 0))).
  { intros i. unfold stations.
    assert (Hinner : List.length qc = List.length (combine axial chords))
      by (rewrite length_combine; lia).
    assert (Hpair : List.length axial = List.length chords) by lia.
    transitivity (nth i qc (0, 0, 0),
                  nth i (combine axial chords) ((0, 0, 0), 0)).
    - apply combine_nth. exact Hinner.
    - f_equal. apply combine_nth. exact Hpair. }
  destruct (_N p) as [| N'] eqn:HN.
  - destruct stations; [| discriminate].
    split; [reflexivity |]. split; [reflexivity |]. intros i Hi. lia.
  - destruct (outline_layout fL fT stations ((0, 0, 0), ((0, 0, 0), 0)) 0%nat
                ltac:(lia)) as (Hlength & Hclosed & _).
    rewrite Hlen in Hlength, Hclosed.
    split; [exact Hlength |]. split; [exact Hclosed |].
    intros i Hi.
    destruct (outline_layout fL fT stations ((0, 0, 0), ((0, 0, 0), 0)) i
                ltac:(lia)) as (_ & _ & Hleading & Htrailing).
    rewrite Hlen in Htrailing. rewrite Hleading, Htrailing, Hstation.
    unfold fL, fT. cbn [fst snd]. split; [reflexivity |].
    destruct (nth i qc (0, 0, 0)) as [[q0 q1] q2].
    destruct (nth i axial (0, 0, 0)) as [[a0 a1] a2].
    cbn [vadd vsub vscale]. apply f_equal2; [apply f_equal2 |];
      unfold Q2R; cbn [QArith_base.Qnum QArith_base.Qden]; field.
Qed.

(** ** Control points and the quarter-chord line *)

Lemma section_ac_rows (qc axial : list vec3) (ac chord : list R) (i : nat) :
  List.length ac = List.length qc ->
  List.length chord = List.length qc ->
  List.length axial = List.length qc ->
  (i < List.length qc)%nat ->
  nth i
    (map (fun r : vec3 * ((R * R) * vec3) =>
            let '(q, ((a, c), u_a)) := r in vadd q (vscale (a * c) u_a))
       (combine qc (combine (combine ac chord) axial)))
    (0, 0, 0)
  = vadd (nth i qc (0, 0, 0))
      (vscale (nth i ac 0 * nth i chord 0) (nth i axial (0, 0, 0))).
Proof.
  intros Hac Hchord Haxial Hi.
  set (f := fun r : vec3 * ((R * R) * vec3) =>
              let '(q, ((a, c), u_a)) := r in vadd q (vscale (a * c) u_a)).
  set (d := ((0, 0, 0), ((0, 0), (0, 0, 0))) : vec3 * ((R * R) * vec3)).
  rewrite (nth_indep _ _ (f d))
    by (rewrite length_map, !length_combine; lia).
  rewrite map_nth.
  assert (Hrow : nth i (combine qc (combine (combine ac chord) axial)) d
                 = (nth i qc (0, 0, 0),
                    ((nth i ac 0, nth i chord 0), nth i axial (0, 0, 0)))).
  { transitivity (nth i qc (0, 0, 0),
                  nth i (combine (combine ac chord) axial)
                    ((0, 0), (0, 0, 0))).
    - apply combine_nth. rewrite !length_combine. lia.
    - f_equal.
      transitivity (nth i (combine ac chord) (0, 0), nth i axial (0, 0, 0)).
      + apply combine_nth. rewrite length_combine. lia.
      + f_equal. apply combine_nth. lia. }
  rewrite Hrow. reflexivity.
Qed.

(** X15.  On a constructed segment, the stored control point [i] is the
    quarter-chord point at the control point's span fraction, moved along
    the stored axial vector [u_a_cp] by the aerodynamic-centre offset times
    the chord there.  With the default offset of zero the control points
    are the quarter-chord points. *)
Theorem control_points_on_chord_line (quad : (R -> R) -> R -> R -> R)
    (name : string) (input : input_dict) (side unit_sys : string)
    (ad : dict Airfoil) (origin : vec3) (self : WingSegment) :
  WingSegment_init quad name input side unit_sys ad origin = Ok self ->
  in_ID input <> Some 0%Z ->
  exists (p : params_attrs) (g : getter_attrs) (cpd : cp_attrs)
         (qc : list vec3),
    init_params self = Some p /\
    init_getters self = Some g /\
    init_cp_data self = Some cpd /\
    _get_quarter_chord_loc quad self (PyArray (of_list (_cp_span_locs p)))
    = Ok (Points qc) /\
    List.length qc = _N p /\
    List.length (control_points cpd) = _N p /\
    (forall i : nat,
        (i < _N p)%nat ->
        let s := nth i (_cp_span_locs p) 0 in
        nth i (control_points cpd) (0, 0, 0)
        = vadd (nth i qc (0, 0, 0))
            (vscale (item (call_getter (_get_ac_offset g) (PyFloat s))
                     * item (call_getter (get_chord g) (PyFloat s)))
               (nth i (u_a_cp cpd) (0, 0, 0)))) /\
    (opt_default (in_ac_offset input) (Constant 0) = Constant 0 ->
     forall i : nat,
       (i < _N p)%nat ->
       nth i (control_points cpd) (0, 0, 0) = nth i qc (0, 0, 0)).
Proof.
  intros Hself HID.
  destruct (constructed_fields quad _ _ _ _ _ _ _ Hself HID)
    as (p & a & c & cpd & n & Heq & HNeq & HN & _ & _ & Hnode & Hcp & _ & Hu_a
        & _ & _ & Hcps & _).
  assert (Hlen_cp : List.length (_cp_span_locs p) = _N p).
  { apply (constructed_control_points p side HN).
    rewrite Hnode, Hcp. symmetry. apply surjective_pairing. }
  assert (Hp : init_params self = Some p) by (rewrite Heq; reflexivity).
  assert (Hg : init_getters self = Some (getters_of_input input))
    by (rewrite Heq; reflexivity).
  set (g := getters_of_input input) in *.
  set (cp := PyArray (of_list (_cp_span_locs p))) in *.
  pose proof (_get_axial_vec_length self cp _ Hu_a) as Hlen_axial.
  cbn [cp elements of_list data] in Hlen_axial.
  unfold _get_section_ac_loc in Hcps.
  destruct (_get_quarter_chord_loc quad self cp) as [loc | e] eqn:Hqc;
    [| discriminate].
  assert (Hloc : exists qc : list vec3,
             loc = Points qc /\ List.length qc = _N p).
  { unfold _get_quarter_chord_loc in Hqc. rewrite Hg, Hp in Hqc.
    cbn [attr Py.bind] in Hqc.
    destruct (get_root_loc self) as [root | e]; [| discriminate].
    cbn [Py.bind cp] in Hqc. injection Hqc as <-.
    eexists. split; [reflexivity |].
    rewrite !length_map. cbn [elements of_list data]. exact Hlen_cp. }
  destruct Hloc as (qc & -> & Hlen_qc).
  rewrite Hg, Hu_a in Hcps. cbn [attr Py.bind] in Hcps.
  injection Hcps as Hcps.
  assert (Hcols : forall get : getter,
             elements (call_getter get cp)
             = map (fun s => item (call_getter get (PyFloat s)))
                 (_cp_span_locs p))
    by (intros get; apply call_getter_elements).
  rewrite !Hcols in Hcps.
  assert (Hrows : forall i : nat,
             (i < _N p)%nat ->
             nth i (control_points cpd) (0, 0, 0)
             = vadd (nth i qc (0, 0, 0))
                 (vscale
                    (item (call_getter (_get_ac_offset g)
                             (PyFloat (nth i (_cp_span_locs p) 0)))
                     * item (call_getter (get_chord g)
                               (PyFloat (nth i (_cp_span_locs p) 0))))
                    (nth i (u_a_cp cpd) (0, 0, 0)))).
  { intros i Hi. rewrite <- Hcps.
    rewrite section_ac_rows by (rewrite ?length_map; lia).
    rewrite (nth_indep _ 0 (item (call_getter (_get_ac_offset g) (PyFloat 0))))
      by (rewrite length_map; lia).
    rewrite (nth_indep (map (fun s => item (call_getter (get_chord g) _)) _) 0
               (item (call_getter (get_chord g) (PyFloat 0))))
      by (rewrite length_map; lia).
    now rewrite (map_nth (fun s => item (call_getter (_get_ac_offset g)
                                          (PyFloat s)))),
      (map_nth (fun s => item (call_getter (get_chord g) (PyFloat s)))). }
  exists p, g, cpd, qc.
  split; [exact Hp |]. split; [exact Hg |].
  split; [rewrite Heq; reflexivity |]. split; [exact Hqc |].
  split; [exact Hlen_qc |]. split.
  { rewrite <- Hcps. rewrite length_map, !length_combine, !length_map. lia. }
  split; [exact Hrows |].
  intros Hoffset i Hi. rewrite (Hrows i Hi).
  unfold g at 1. cbn [getters_of_input _get_ac_offset]. rewrite Hoffset.
  change (item (call_getter (_build_getter_linear_f_of_span (Constant 0) false)
                  (PyFloat (nth i (_cp_span_locs p) 0)))) with 0.
  destruct (nth i qc (0, 0, 0)) as [[q0 q1] q2].
  destruct (nth i (u_a_cp cpd) (0, 0, 0)) as [[a0 a1] a2].
  cbn [vadd vscale]. apply f_equal2; [apply f_equal2 |]; ring.
Qed.

(** ** Closed instances of the further properties *)

(** The example segment with the aileron, as the constructor leaves it. *)
Lemma aileron_segment_exists :
  exists (self : WingSegment) (c : control_attrs) (eta : list R),
    WingSegment_init rectangle_rule "wing_right" aileron_input "right"
      "English" example_airfoils (0, 0, 0) = Ok self /\
    init_control self = Some c /\
    _side self = "right"%string /\
    _has_control_surface c = true /\
    _flap_eff c = None /\
    _control_mixing c = Some [("aileron"%string, 1)] /\
    _eta_h_esp_f c = Some eta.
Proof.
  destruct (example_segment_exists "wing_right" None (Some aileron_control)
              "right" (0, 0, 0)) as [self Hself].
  destruct (constructed_with_control_surface rectangle_rule _ _ _ _ _ _ _ _
              self aileron_control "NACA_0010" Hself ltac:(discriminate)
              eq_refl eq_refl)
    as (p & af & c & eta & cm & _ & _ & Hc & Hside & _ & _ & _ & Hon & _
        & Heff & Hmix & Heta & _).
  exists self, c, eta. split; [exact Hself |]. split; [exact Hc |].
  split; [exact Hside |]. split; [exact Hon |]. split; [exact Heff |].
  split; [exact Hmix | exact Heta].
Qed.

(** The first attachment to the origin: a left wing. *)
Lemma attach_wing_left (wing : WingSegment) :
  WingSegment_init rectangle_rule "wing_left" wing_input "left" "English"
    example_airfoils (0, 0, 0) = Ok wing ->
  attach_wing_segment rectangle_rule origin_segment "wing_left" wing_input
    "left" "English" example_airfoils
  = (Ok (Some wing), set_attached origin_segment [("wing_left"%string, wing)]).
Proof.
  intros Hwing. unfold attach_wing_segment.
  change (ID_is origin_segment 0) with true. cbn [negb].
  rewrite attach_unfold.
  change (ID_is origin_segment (parent_ID_of wing_input)) with true.
  change (String.eqb (location_of wing_input) "root") with false.
  change (get_tip_loc rectangle_rule origin_segment) with (@Ok vec3 (0, 0, 0)).
  cbn [Py.bind]. rewrite Hwing. reflexivity.
Qed.

Lemma cached_arrays_have_grid_size_witness :
  exists (self : WingSegment) (p : params_attrs) (cpd : cp_attrs)
         (n : list vec3),
    WingSegment_init rectangle_rule "wing_right" wing_input "right" "English"
      example_airfoils (0, 0, 0) = Ok self /\
    init_params self = Some p /\ init_cp_data self = Some cpd /\
    nodes self = Some n /\
    List.length (control_points cpd) = _N p /\
    List.length (dS cpd) = _N p /\
    List.length n = (_N p + 1)%nat.
Proof.
  destruct (example_segment_exists "wing_right" None None "right" (0, 0, 0))
    as [self Hself].
  destruct (cached_arrays_have_grid_size rectangle_rule _ _ _ _ _ _ self Hself
              ltac:(discriminate))
    as (p & cpd & n & Hp & Hcpd & Hn & _ & _ & _ & _ & _ & _ & Hcps & _ & HdS
        & Hnodes).
  exists self, p, cpd, n. split; [exact Hself |]. split; [exact Hp |].
  split; [exact Hcpd |]. split; [exact Hn |]. split; [exact Hcps |].
  split; [exact HdS | exact Hnodes].
Defined.

Lemma orientation_vectors_orthonormal_witness :
  exists (self : WingSegment) (cpd : cp_attrs),
    WingSegment_init rectangle_rule "fin" fin_input "right" "English"
      example_airfoils (0, 0, 0) = Ok self /\
    init_cp_data self = Some cpd /\
    Forall unit_vector (u_a_cp cpd) /\ Forall unit_vector (u_n_cp cpd) /\
    Forall unit_vector (u_s_cp cpd) /\
    Forall (fun an : vec3 * vec3 => vdot (fst an) (snd an) = 0)
      (combine (u_a_cp cpd) (u_n_cp cpd)).
Proof.
  destruct (example_segment_exists "fin" (Some (Constant 90)) None "right"
              (0, 0, 0)) as [self Hself].
  destruct (constructed_fields rectangle_rule _ _ _ _ _ _ self Hself
              ltac:(discriminate))
    as (p & a & c & cpd & n & Heq & _ & _ & _ & _ & _ & _ & _ & Hu_a & Hu_n
        & Hu_s & _).
  exists self, cpd. split; [exact Hself |].
  split; [rewrite Heq; reflexivity |].
  exact (orientation_vectors_orthonormal self _ _ _ _ Hu_a Hu_n Hu_s).
Defined.

Lemma constant_chord_panel_areas_witness :
  exists (self : WingSegment) (cpd : cp_attrs),
    WingSegment_init rectangle_rule "wing_right" wing_input "right" "English"
      example_airfoils (0, 0, 0) = Ok self /\
    init_cp_data self = Some cpd /\
    Forall (fun ch => ch = 1) (c_bar_cp cpd) /\
    rsum (dS cpd) = in_semispan wing_input * 1.
Proof.
  destruct (example_segment_exists "wing_right" None None "right" (0, 0, 0))
    as [self Hself].
  destruct (constant_chord_panel_areas rectangle_rule _ _ _ _ _ _ self 1 Hself
              ltac:(discriminate) eq_refl) as (cpd & Hcpd & Hc_bar & HdS).
  exists self, cpd. split; [exact Hself |]. split; [exact Hcpd |].
  split; [exact Hc_bar | exact HdS].
Defined.

Lemma table_getter_hits_rows_and_clamps_witness :
  increasing_from 0 [(1, 3)] /\
  item (call_getter (TableGetter false (0, 1) [(1, 3)]) (PyFloat 1)) = 3 /\
  item (call_getter (TableGetter false (0, 1) [(1, 3)]) (PyFloat 2)) = 3.
Proof.
  assert (Hinc : increasing_from (fst (0, 1)) [(1, 3)])
    by (cbn; split; [lra | exact I]).
  split; [exact Hinc |].
  pose proof (table_getter_hits_rows_and_clamps false (0, 1) [(1, 3)] Hinc)
    as H.
  cbv zeta in H. destruct H as (Hrows & _ & Hright). split.
  - exact (Hrows (1, 3) (or_intror (or_introl eq_refl))).
  - apply (Hright 2). cbn. lra.
Defined.

Lemma elliptic_chord_bounds_witness :
  0 <= 2 /\ 0 <= 1 / 2 <= 1 /\
  exists chord : R,
    call_getter (_build_elliptic_chord_dist 2) (PyFloat (1 / 2))
    = PyFloat chord /\
    0 <= chord <= 2.
Proof.
  assert (H2 : 0 <= 2) by lra. assert (Hs : 0 <= 1 / 2 <= 1) by lra.
  split; [exact H2 |]. split; [exact Hs |].
  destruct (elliptic_chord_bounds 2 (1 / 2) H2 Hs) as (chord & Hc & Hb & _).
  exists chord. split; [exact Hc | exact Hb].
Defined.

Lemma control_surface_is_local_witness :
  let p :=
    {| is_main := None; b := 4; _N := 1; _use_clustering := true;
       _delta_origin := (0, 0, 0); _node_span_locs := [0; 1];
       _cp_span_locs := [1 / 2] |} in
  let cd :=
    {| ctl_root_span := Some (3 / 4); ctl_tip_span := None;
       ctl_chord_fraction := None; ctl_is_sealed := None;
       ctl_control_mixing := None |} in
  let self :=
    set_params (new_object "wing_right" wing_input "right" "English" (0, 0, 0))
      p in
  exists (self' : WingSegment) (c : control_attrs) (frac eta cm : list R),
    _setup_control_surface self (Some cd) = Ok self' /\
    init_control self' = Some c /\
    _cp_flap_chord_frac c = Some frac /\
    _eta_h_esp_f c = Some eta /\
    _Cm_delta_flap c = PyArray (of_list cm) /\
    nth 0 frac 0 = 0 /\ nth 0 eta 0 = 0 /\ nth 0 cm 0 = 0.
Proof.
  intros p cd self.
  destruct (_setup_control_surface_total self p (Some cd) eq_refl)
    as [c0 Hsetup].
  destruct (control_surface_is_local self _ p cd eq_refl Hsetup)
    as (c & frac & eta & cm & Hc & _ & Hfrac & Heta & Hcm & _ & _ & _ & Hout).
  exists (set_control self c0), c, frac, eta, cm.
  split; [exact Hsetup |]. split; [exact Hc |]. split; [exact Hfrac |].
  split; [exact Heta |]. split; [exact Hcm |].
  apply (Hout 0%nat); [cbn; lia |]. left. cbn. lra.
Defined.

Lemma net_deflection_by_side_witness :
  exists (self : WingSegment) (c : control_attrs) (eta : list R),
    init_control self = Some c /\
    _has_control_surface c = true /\
    _control_mixing c = Some [("aileron"%string, 1)] /\
    _eta_h_esp_f c = Some eta /\
    _side self = "right"%string /\
    exists self' : WingSegment,
      apply_control [("aileron"%string, 5)] [] self = (Ok tt, self').
Proof.
  destruct aileron_segment_exists
    as (self & c & eta & _ & Hc & Hside & Hon & _ & Hmix & Heta).
  exists self, c, eta. split; [exact Hc |]. split; [exact Hon |].
  split; [exact Hmix |]. split; [exact Heta |]. split; [exact Hside |].
  pose proof (net_deflection_by_side self c _ eta [("aileron"%string, 5)] []
                Hc Hon Hmix Heta) as H.
  cbv zeta in H. destruct H as [Hright _].
  eexists. apply Hright. left. exact Hside.
Defined.

Lemma apply_control_symmetry_lookup_witness :
  exists (self : WingSegment) (c : control_attrs) (eta : list R),
    init_control self = Some c /\
    _has_control_surface c = true /\
    _control_mixing c = Some [("aileron"%string, 1)] /\
    _eta_h_esp_f c = Some eta /\
    _side self = "right"%string /\
    fst (apply_control [("aileron"%string, 5)] [] self) = Ok tt.
Proof.
  destruct aileron_segment_exists
    as (self & c & eta & _ & Hc & Hside & Hon & _ & Hmix & Heta).
  exists self, c, eta. split; [exact Hc |]. split; [exact Hon |].
  split; [exact Hmix |]. split; [exact Heta |]. split; [exact Hside |].
  exact (proj1 (apply_control_symmetry_lookup self c _ eta
                  [("aileron"%string, 5)] [] Hc Hon Hmix Heta) Hside).
Defined.

Lemma flap_angle_after_apply_control_witness :
  exists (self : WingSegment) (c : control_attrs) (eta : list R),
    init_control self = Some c /\
    _has_control_surface c = true /\
    _eta_h_esp_f c = Some eta /\
    get_cp_flap self = (Raise (AttributeError "_flap_eff"), self).
Proof.
  destruct aileron_segment_exists
    as (self & c & eta & _ & Hc & _ & Hon & Heff & _ & Heta).
  exists self, c, eta. split; [exact Hc |]. split; [exact Hon |].
  split; [exact Heta |].
  exact (proj1 (flap_angle_after_apply_control self c eta Hc Hon Heta) Heff).
Defined.

Lemma queries_need_the_flap_state_witness :
  exists self : WingSegment,
    WingSegment_init rectangle_rule "wing_right" aileron_input "right"
      "English" example_airfoils (0, 0, 0) = Ok self /\
    get_cp CL [[1; 2; 3]] self = (Raise (AttributeError "_flap_eff"), self) /\
    exists values : list R,
      get_cp Cm [[1; 2; 3]] self = (Ok values, self) /\
      List.length values = 1%nat.
Proof.
  destruct (example_segment_exists "wing_right" None (Some aileron_control)
              "right" (0, 0, 0)) as [self Hself].
  exists self. split; [exact Hself |].
  assert (Hrows : Forall (fun row : list R => List.length row = 3%nat)
                    [[1; 2; 3]]) by (constructor; [reflexivity | constructor]).
  destruct (queries_need_the_flap_state rectangle_rule _ _ _ _ _ _ _ _ self
              aileron_control "NACA_0010" [[1; 2; 3]] Hself
              ltac:(discriminate) eq_refl eq_refl eq_refl Hrows)
    as (Hbefore & Hmoment & _).
  split; [apply Hbefore; discriminate | exact Hmoment].
Defined.

Lemma interpolator_right_of_stations_witness :
  List.length [2] = List.length [[5; 6]] /\
  _airfoil_interpolator [2] [0; 1] [[5; 6]] = Raise IndexError.
Proof.
  split; [reflexivity |].
  apply (interpolator_right_of_stations [2] [0; 1] [[5; 6]] eq_refl).
  exists 2. split; [now left |].
  intros s [<- | [<- | []]]; lra.
Defined.

Lemma interpolator_is_piecewise_linear_witness :
  increasing [0; 1] /\
  exists values : list R,
    _airfoil_interpolator [1 / 2] [0; 1] [[5; 7]] = Ok values /\
    List.length values = 1%nat.
Proof.
  assert (Hinc : increasing [0; 1]) by (split; [lra | exact I]).
  split; [exact Hinc |].
  destruct (interpolator_is_piecewise_linear [1 / 2] [0; 1] [[5; 7]] Hinc
              (le_n 2) eq_refl
              ltac:(constructor; [reflexivity | constructor])
              ltac:(intros x [<- | []]; cbn; lra))
    as (values & Hvalues & Hlen & _).
  exists values. split; [exact Hvalues | exact Hlen].
Defined.

Lemma failed_attachment_changes_nothing_witness :
  snd (attach_wing_segment rectangle_rule origin_segment "tail_right"
         tail_input "right" "English" example_airfoils)
  = origin_segment.
Proof.
  apply failed_attachment_changes_nothing.
  intros new. unfold attach_wing_segment.
  change (ID_is origin_segment 0) with true. cbn [negb].
  rewrite attach_unfold.
  change (ID_is origin_segment (parent_ID_of tail_input)) with false.
  change (ID_is origin_segment 0) with true.
  cbn [_attached_segments origin_segment new_object attach_loop fst].
  discriminate.
Defined.

Lemma new_segment_at_parent_location_witness :
  exists new : WingSegment,
    fst (attach_wing_segment rectangle_rule origin_segment "wing_left"
           wing_input "left" "English" example_airfoils) = Ok (Some new) /\
    on_side "left"
      (fun parent : WingSegment =>
         has_ID (parent_ID_of wing_input) parent /\
         (if String.eqb (location_of wing_input) "root"
          then get_root_loc parent
          else get_tip_loc rectangle_rule parent) = Ok (_origin new) /\
         WingSegment_init rectangle_rule "wing_left" wing_input "left"
           "English" example_airfoils (_origin new) = Ok new)
      origin_segment.
Proof.
  destruct (example_segment_exists "wing_left" None None "left" (0, 0, 0))
    as [wing Hwing].
  assert (Hfirst : fst (attach_wing_segment rectangle_rule origin_segment
                          "wing_left" wing_input "left" "English"
                          example_airfoils) = Ok (Some wing))
    by (rewrite (attach_wing_left wing Hwing); reflexivity).
  exists wing. split; [exact Hfirst |].
  exact (new_segment_at_parent_location rectangle_rule origin_segment
           "wing_left" wing_input "left" "English" example_airfoils wing
           Hfirst).
Defined.

Lemma attach_then_lookup_round_trip_witness :
  exists new : WingSegment,
    fst (attach_wing_segment rectangle_rule origin_segment "wing_left"
           wing_input "left" "English" example_airfoils) = Ok (Some new) /\
    _get_attached_wing_segment origin_segment "wing_left" = None /\
    _get_attached_wing_segment
      (snd (attach_wing_segment rectangle_rule origin_segment "wing_left"
              wing_input "left" "English" example_airfoils)) "wing_left"
    = Some new.
Proof.
  destruct (example_segment_exists "wing_left" None None "left" (0, 0, 0))
    as [wing Hwing].
  assert (Hfirst : fst (attach_wing_segment rectangle_rule origin_segment
                          "wing_left" wing_input "left" "English"
                          example_airfoils) = Ok (Some wing))
    by (rewrite (attach_wing_left wing Hwing); reflexivity).
  exists wing. split; [exact Hfirst |]. split; [reflexivity |].
  exact (attach_then_lookup_round_trip rectangle_rule origin_segment
           "wing_left" wing_input "left" "English" example_airfoils wing
           Hfirst eq_refl).
Defined.

Lemma outline_points_layout_witness :
  exists (self : WingSegment) (p : params_attrs) (g : getter_attrs)
         (points : list vec3),
    init_params self = Some p /\
    init_getters self = Some g /\
    get_outline_points rectangle_rule self = Ok points /\
    List.length points = (2 * _N p + 1)%nat /\
    nth (2 * _N p) points (0, 0, 0) = nth 0 points (0, 0, 0).
Proof.
  destruct (example_segment_exists "wing_right" None None "right" (0, 0, 0))
    as [self Hself].
  destruct (constructed_fields rectangle_rule _ _ _ _ _ _ self Hself
              ltac:(discriminate))
    as (p & a & c & cpd & n & Heq & _).
  assert (Hp : init_params self = Some p) by (rewrite Heq; reflexivity).
  assert (Hg : init_getters self = Some (getters_of_input wing_input))
    by (rewrite Heq; reflexivity).
  pose proof (outline_points_layout rectangle_rule self p _ Hp Hg) as H.
  cbv zeta in H.
  destruct H as (points & qc & axial & Hpoints & _ & _ & Hlen & Hclosed & _).
  exists self, p, (getters_of_input wing_input), points.
  split; [exact Hp |]. split; [exact Hg |]. split; [exact Hpoints |].
  split; [exact Hlen | exact Hclosed].
Defined.

Lemma constant_angles_segment_geometry_witness :
  exists self : WingSegment,
    WingSegment_init rectangle_rule "wing_right"
      (example_input (Some (Constant 10)) None) "right" "English"
      example_airfoils (1, 2, 3) = Ok self /\
    get_tip_loc rectangle_rule self
    = Ok (vadd (vadd (1, 2, 3) (0, 0 + 0, 0))
            (vscale 4
               (- tan (radians 0), cos (radians 10), - sin (radians 10)))).
Proof.
  destruct (example_segment_exists "wing_right" (Some (Constant 10)) None
              "right" (1, 2, 3)) as [self Hself].
  exists self. split; [exact Hself |].
  pose proof (constant_angles_segment_geometry rectangle_rule "wing_right"
                (example_input (Some (Constant 10)) None) "right" "English"
                example_airfoils (1, 2, 3) self 0 10 rectangle_rule_exact
                Hself ltac:(discriminate) eq_refl eq_refl) as H.
  cbv zeta in H. destruct H as (_ & Htip & _). exact Htip.
Defined.

Lemma control_points_on_chord_line_witness :
  exists (self : WingSegment) (p : params_attrs) (cpd : cp_attrs)
         (qc : list vec3),
    WingSegment_init rectangle_rule "wing_right" wing_input "right" "English"
      example_airfoils (0, 0, 0) = Ok self /\
    init_params self = Some p /\
    init_cp_data self = Some cpd /\
    _get_quarter_chord_loc rectangle_rule self
      (PyArray (of_list (_cp_span_locs p))) = Ok (Points qc) /\
    forall i : nat,
      (i < _N p)%nat ->
      nth i (control_points cpd) (0, 0, 0) = nth i qc (0, 0, 0).
Proof.
  destruct (example_segment_exists "wing_right" None None "right" (0, 0, 0))
    as [self Hself].
  destruct (control_points_on_chord_line rectangle_rule _ _ _ _ _ _ self Hself
              ltac:(discriminate))
    as (p & g & cpd & qc & Hp & _ & Hcpd & Hqc & _ & _ & _ & Hzero).
  exists self, p, cpd, qc. split; [exact Hself |]. split; [exact Hp |].
  split; [exact Hcpd |]. split; [exact Hqc |]. exact (Hzero eq_refl).
Defined.

(** ** Control points between the nodes *)

Lemma nth_map_seq (f : nat -> R) (n i : nat) :
  (i < n)%nat -> nth i (map f (seq 0 n)) 0 = f i.
Proof.
  intros Hi.
  rewrite (nth_indep _ 0 (f 0%nat)) by (rewrite length_map, length_seq; lia).
  now rewrite map_nth, seq_nth by lia.
Qed.

Lemma linear_interleave (N i : nat) :
  (i < N)%nat ->
  node_frac_linear N i < cp_frac_linear N i < node_frac_linear N (S i).
Proof.
  intros Hi. unfold node_frac_linear, cp_frac_linear. rewrite S_INR.
  assert (H0 : 0 < INR N) by (apply lt_0_INR; lia).
  assert (Hinv : 0 < / INR N) by now apply Rinv_0_lt_compat.
  replace ((2 * INR i + 1) / (2 * INR N))
    with (INR i / INR N + / INR N / 2) by (field; lra).
  replace ((INR i + 1) / INR N) with (INR i / INR N + / INR N)
    by (field; lra).
  lra.
Qed.

Lemma span_locs_right_interleave (N : nat) (use_clustering : bool) (i : nat) :
  (i < N)%nat ->
  nth i (fst (span_locs N use_clustering "right")) 0
  < nth i (snd (span_locs N use_clustering "right")) 0
  < nth (S i) (fst (span_locs N use_clustering "right")) 0.
Proof.
  intros Hi. assert (HN : (0 < N)%nat) by lia.
  pose proof (linear_interleave N i Hi) as [Hlow Hhigh].
  destruct use_clustering.
  - rewrite span_locs_right_cosine by assumption. cbn [fst snd].
    rewrite !nth_map_seq by lia.
    rewrite !node_theta_eq, cp_theta_eq.
    pose proof PI_RGT_0 as HPI.
    pose proof (node_frac_linear_bounds N i HN ltac:(lia)) as Hi_bounds.
    pose proof (node_frac_linear_bounds N (S i) HN ltac:(lia)) as HSi_bounds.
    split; apply cosine_frac_increasing; nra.
  - rewrite span_locs_right_linear by assumption. cbn [fst snd].
    rewrite !nth_map_seq by lia. now split.
Qed.

(** X20.  The span fractions [_initialize_params] computes interleave:
    control point [i] lies strictly between node [i] and node [i + 1], for
    either spacing; the nodes ascend on a segment that is not on the left
    and descend on a left segment. *)
Theorem control_points_between_nodes (N : nat) (use_clustering : bool)
    (side : string) (i : nat) :
  (i < N)%nat ->
  let node := fst (span_locs N use_clustering side) in
  let cp := snd (span_locs N use_clustering side) in
  if String.eqb side "left"
  then nth (S i) node 0 < nth i cp 0 < nth i node 0
  else nth i node 0 < nth i cp 0 < nth (S i) node 0.
Proof.
  intros Hi node cp. unfold node, cp.
  destruct (String.eqb side "left") eqn:Hside.
  - apply String.eqb_eq in Hside. subst side.
    rewrite span_locs_left. cbn [fst snd].
    destruct (span_locs_right_spec N use_clustering ltac:(lia))
      as (Hlen_node & Hlen_cp & _).
    cbv zeta in Hlen_node, Hlen_cp.
    rewrite !rev_nth by lia. rewrite Hlen_node, Hlen_cp.
    pose proof (span_locs_right_interleave N use_clustering (N - S i)
                  ltac:(lia)) as H.
    replace (N + 1 - S (S i))%nat with (N - S i)%nat by lia.
    replace (N + 1 - S i)%nat with (S (N - S i)) by lia.
    tauto.
  - rewrite (span_locs_other_side N use_clustering side Hside).
    now apply span_locs_right_interleave.
Qed.

Lemma control_points_between_nodes_witness :
  let node := fst (span_locs 2 true "left") in
  let cp := snd (span_locs 2 true "left") in
  (0 < 2)%nat /\ nth 1 node 0 < nth 0 cp 0 < nth 0 node 0.
Proof.
  split; [lia |].
  exact (control_points_between_nodes 2 true "left" 0 ltac:(lia)).
Defined.

(** * The claims on constant airfoils, the origin and attachment *)

(** ** One airfoil along the span *)






(** ** The origin has no control-surface state *)

(** C7, as the claim states it, fails on the origin segment: the
    constructor returns it for an input without a [control_surface] entry,
    but with [ID] 0 it skips every set-up step, so [_has_control_surface]
    is not set and both [get_cp_flap] and [apply_control] raise
    [AttributeError]. *)
Lemma no_control_surface_origin_counterexample :
  WingSegment_init rectangle_rule "origin" origin_input "both" "English"
    example_airfoils (0, 0, 0) = Ok origin_segment /\
  in_control_surface origin_input = None /\
  get_cp_flap origin_segment
  = (Raise (AttributeError "_has_control_surface"), origin_segment) /\
  apply_control [("aileron"%string, 5)] [("aileron"%string, true)]
    origin_segment
  = (Raise (AttributeError "_has_control_surface"), origin_segment).
Proof.
  split; [| split; [reflexivity | split; reflexivity]].
  unfold WingSegment_init.
  change (ID_is (new_object "origin" origin_input "both" "English" (0, 0, 0)) 0)
    with true.
  reflexivity.
Qed.

(** ** Attachment: where the result comes from *)

Lemma on_side_impl (side : string) (P Q : WingSegment -> Prop)
    (t : WingSegment) :
  (forall s : WingSegment, P s -> Q s) -> on_side side P t -> on_side side Q t.
Proof.
  intros HPQ H. induction H as [t HP | t key child Hin Hkey _ IH].
  - apply on_side_here. now apply HPQ.
  - exact (on_side_below _ _ t key child Hin Hkey IH).
Qed.

Section AttachSource.

Variable quad : (R -> R) -> R -> R -> R.
Variables (wing_segment_name : string) (input : input_dict).
Variables (side unit_sys : string) (airfoil_dict : dict Airfoil).

Let attach (t : WingSegment) : result (option WingSegment) * WingSegment :=
  _attach_wing_segment quad t wing_segment_name input side unit_sys
    airfoil_dict.

(** The construction [_attach_wing_segment] runs on the segment that has
    the parent's [ID]: its root or tip location, then the constructor. *)
Let construct (parent : WingSegment) : result WingSegment :=
  (pt <- (if String.eqb (location_of input) "root" then get_root_loc parent
          else get_tip_loc quad parent) ;;
   WingSegment_init quad wing_segment_name input side unit_sys airfoil_dict
     pt)%py.

Lemma attach_loop_Raise (kids : dict WingSegment) (e : exn) :
  fst (attach_loop attach side kids) = Raise e ->
  exists (key : string) (child : WingSegment),
    In (key, child) kids /\ contains side key = true /\
    fst (attach child) = Raise e.
Proof.
  induction kids as [| [k c] rest IH]; cbn [attach_loop]; [discriminate |].
  destruct (contains side k) eqn:Hside; cbn [negb].
  - destruct (attach c) as [[[new' |] | e'] c'] eqn:Hc; cbn [fst].
    + discriminate.
    + destruct (attach_loop attach side rest) as [r' rest']. cbn [fst] in *.
      intros H. destruct (IH H) as (key & child & Hin & Hkey & Hchild).
      exists key, child. split; [now right | now split].
    + intros H. exists k, c. rewrite Hc. split; [now left | now split].
  - destruct (attach_loop attach side rest) as [r' rest']. cbn [fst] in *.
    intros H. destruct (IH H) as (key & child & Hin & Hkey & Hchild).
    exists key, child. split; [now right | now split].
Qed.

Lemma attach_error_source (t : WingSegment) (e : exn) :
  fst (attach t) = Raise e ->
  e = could_not_attach wing_segment_name \/
  on_side side
    (fun parent => has_ID (parent_ID_of input) parent /\
                   construct parent = Raise e) t.
Proof.
  induction t as [t IH] using WingSegment_tree_ind.
  unfold attach. rewrite attach_unfold. fold attach.
  destruct (ID_is t _) eqn:Hid.
  - fold (construct t).
    destruct (construct t) as [new | e'] eqn:Hnew; cbn [fst]; [discriminate |].
    intros H. injection H as ->. right. apply on_side_here. now split.
  - pose proof (attach_loop_Raise (_attached_segments t) e) as Hloop.
    destruct (attach_loop attach side (_attached_segments t))
      as [[[new' |] | e'] kids']; cbn [fst] in *.
    + discriminate.
    + destruct (ID_is t 0); cbn [fst]; [| discriminate].
      intros H. injection H as <-. now left.
    + intros H. destruct (Hloop H) as (key & child & Hin & Hkey & Hchild).
      destruct (IH key child Hin Hchild) as [Hcould | Hsrc]; [now left |].
      right. exact (on_side_below _ _ t key child Hin Hkey Hsrc).
Qed.

Lemma attach_success_source (t new : WingSegment) :
  fst (attach t) = Ok (Some new) ->
  on_side side
    (fun parent => has_ID (parent_ID_of input) parent /\
                   construct parent = Ok new) t.
Proof.
  intros H. apply attach_parent in H.
  revert H. apply on_side_impl.
  intros s (Hid & pt & Hpt & Hnew). split; [exact Hid |].
  unfold construct. unfold attachment_point in Hpt. rewrite Hpt. exact Hnew.
Qed.

End AttachSource.

(** C6, as the code has it.  An attachment invoked on the origin segment
    ([ID] 0), in a tree where no other segment reached through keys that
    contain the new segment's side has [ID] 0: the exception
    [could_not_attach] is raised if and only if no segment that is the
    origin or is reached from it through such keys has the [ID] the new
    segment connects to.  When there is such a segment, the call runs the
    construction on one of them (its root or tip location, then the
    constructor at that point) and either raises the exception of that
    construction, which is not a [RuntimeError], leaving the tree as it
    was, or returns the segment that construction returned, registered
    under its name in such a segment. *)
Theorem attach_at_origin_on_side (quad : (R -> R) -> R -> R -> R)
    (root : WingSegment) (wing_segment_name : string) (input : input_dict)
    (side unit_sys : string) (airfoil_dict : dict Airfoil) :
  ID_is root 0 = true ->
  (forall (key : string) (child : WingSegment),
      In (key, child) (_attached_segments root) ->
      contains side key = true ->
      lifting_on_side side child) ->
  let pid := parent_ID_of input in
  let outcome :=
    attach_wing_segment quad root wing_segment_name input side unit_sys
      airfoil_dict in
  let construct (parent : WingSegment) : result WingSegment :=
    (pt <- (if String.eqb (location_of input) "root" then get_root_loc parent
            else get_tip_loc quad parent) ;;
     WingSegment_init quad wing_segment_name input side unit_sys airfoil_dict
       pt)%py in
  (fst outcome = Raise (could_not_attach wing_segment_name) <->
   ~ on_side side (has_ID pid) root) /\
  (on_side side (has_ID pid) root ->
   (exists e : exn,
       fst outcome = Raise e /\
       (forall msg : string, e <> RuntimeError msg) /\
       on_side side
         (fun parent => has_ID pid parent /\ construct parent = Raise e) root /\
       snd outcome = root) \/
   (exists new : WingSegment,
       fst outcome = Ok (Some new) /\
       on_side side
         (fun parent => has_ID pid parent /\ construct parent = Ok new) root /\
       on_side side (is_parent_of pid wing_segment_name new) (snd outcome))).
Proof.
  intros Hroot Hkids pid outcome construct.
  pose proof (attach_at_origin quad wing_segment_name input side unit_sys
                airfoil_dict root Hroot Hkids) as H.
  pose proof (attach_error_source quad wing_segment_name input side unit_sys
                airfoil_dict root) as Herr.
  pose proof (attach_success_source quad wing_segment_name input side unit_sys
                airfoil_dict root) as Hok.
  pose proof (attach_frame quad wing_segment_name input side unit_sys
                airfoil_dict root) as Hframe.
  assert (Hout : outcome =
                 _attach_wing_segment quad root wing_segment_name input side
                   unit_sys airfoil_dict).
  { unfold outcome, attach_wing_segment. now rewrite Hroot. }
  rewrite Hout. clear Hout outcome.
  destruct (_attach_wing_segment quad root wing_segment_name input side
              unit_sys airfoil_dict) as [r root'].
  cbn [fst snd] in *. fold pid in H, Herr, Hok.
  destruct r as [[new |] | e]; cbn in H.
  - destruct H as (Hfound & Hreg & Hpt). split.
    + split; [discriminate | contradiction].
    + intros _. right. exists new. split; [reflexivity |].
      split; [exact (Hok new eq_refl) | exact Hreg].
  - destruct H.
  - destruct H as [[-> Hnot] | [Hfound Hne]].
    + split; [split; auto | contradiction].
    + split.
      * split; [| contradiction].
        intros Heq. injection Heq as ->. now destruct (Hne _ eq_refl).
      * intros _. left. exists e. split; [reflexivity |].
        split; [exact Hne |]. split.
        -- destruct (Herr e eq_refl) as [-> | Hsrc]; [| exact Hsrc].
           now destruct (Hne _ eq_refl).
        -- apply Hframe. discriminate.
Qed.

Lemma get_tip_loc_total (quad : (R -> R) -> R -> R -> R) (self : WingSegment)
    (p : params_attrs) (g : getter_attrs) :
  init_params self = Some p ->
  init_getters self = Some g ->
  exists pt : vec3, get_tip_loc quad self = Ok pt.
Proof.
  intros Hp Hg. unfold get_tip_loc, _get_quarter_chord_loc, get_root_loc.
  rewrite Hg, Hp. destruct (ID_is self 0); cbn; eauto.
Qed.

(** The second attachment: a left tail at the tip of the left wing. *)
Lemma attach_tail_left (wing tail : WingSegment) (pt : vec3) :
  WingSegment_init rectangle_rule "wing_left" wing_input "left" "English"
    example_airfoils (0, 0, 0) = Ok wing ->
  get_tip_loc rectangle_rule wing = Ok pt ->
  WingSegment_init rectangle_rule "tail_left" tail_input "left" "English"
    example_airfoils pt = Ok tail ->
  attach_wing_segment rectangle_rule
    (set_attached origin_segment [("wing_left"%string, wing)]) "tail_left"
    tail_input "left" "English" example_airfoils
  = (Ok (Some tail),
     set_attached origin_segment
       [("wing_left"%string,
         set_attached wing [("tail_left"%string, tail)])]).
Proof.
  intros Hwing Htip Htail.
  destruct (WingSegment_init_Ok _ _ _ _ _ _ _ _ Hwing ltac:(discriminate))
    as (p & a & c & cp & n & Heq & _).
  assert (HID : ID_is wing (parent_ID_of tail_input) = true)
    by (rewrite Heq; reflexivity).
  assert (Hkids : _attached_segments wing = [])
    by (rewrite Heq; reflexivity).
  unfold attach_wing_segment.
  change (ID_is (set_attached origin_segment [("wing_left"%string, wing)]) 0)
    with true.
  cbn [negb]. rewrite attach_unfold.
  change (ID_is (set_attached origin_segment [("wing_left"%string, wing)])
            (parent_ID_of tail_input)) with false.
  cbn [_attached_segments set_attached attach_loop].
  change (contains "left" "wing_left") with true. cbn [negb].
  rewrite attach_unfold, HID.
  change (String.eqb (location_of tail_input) "root") with false.
  rewrite Htip. cbn [Py.bind]. rewrite Htail, Hkids. reflexivity.
Qed.

Lemma attach_at_origin_on_side_witness :
  exists root wing tail : WingSegment,
    attach_wing_segment rectangle_rule origin_segment "wing_left" wing_input
      "left" "English" example_airfoils = (Ok (Some wing), root) /\
    ID_is root 0 = true /\
    fst (attach_wing_segment rectangle_rule root "tail_left" tail_input "left"
           "English" example_airfoils) = Ok (Some tail) /\
    on_side "left"
      (fun parent =>
         has_ID (parent_ID_of tail_input) parent /\
         (pt <- (if String.eqb (location_of tail_input) "root"
                 then get_root_loc parent
                 else get_tip_loc rectangle_rule parent) ;;
          WingSegment_init rectangle_rule "tail_left" tail_input "left"
            "English" example_airfoils pt)%py = Ok tail)
      root /\
    on_side "left" (is_parent_of (parent_ID_of tail_input) "tail_left" tail)
      (snd (attach_wing_segment rectangle_rule root "tail_left" tail_input
              "left" "English" example_airfoils)) /\
    fst (attach_wing_segment rectangle_rule root "tail_right" tail_input
           "right" "English" example_airfoils)
    = Raise (could_not_attach "tail_right").
Proof.
  destruct (example_segment_exists "wing_left" None None "left" (0, 0, 0))
    as [wing Hwing].
  destruct (WingSegment_init_Ok _ _ _ _ _ _ _ _ Hwing ltac:(discriminate))
    as (p & a & c & cp & n & Heq & _).
  destruct (get_tip_loc_total rectangle_rule wing p
              (getters_of_input wing_input)
              ltac:(rewrite Heq; reflexivity) ltac:(rewrite Heq; reflexivity))
    as [pt Htip].
  destruct (WingSegment_init_total rectangle_rule "tail_left" tail_input
              "left" "English" pt "NACA_0010" example_airfoil example_airfoil
              [] "NACA_0010") as [tail Htail];
    [discriminate | discriminate | reflexivity | reflexivity |].
  pose proof (attach_wing_left wing Hwing) as Hfirst.
  pose proof (attach_tail_left wing tail pt Hwing Htip Htail) as Hsecond.
  set (root := set_attached origin_segment [("wing_left"%string, wing)]) in *.
  assert (Hroot : ID_is root 0 = true) by reflexivity.
  assert (Hleft : forall (key : string) (child : WingSegment),
             In (key, child) (_attached_segments root) ->
             contains "left" key = true ->
             lifting_on_side "left" child).
  { intros key child [H | []] _. injection H as _ <-.
    apply lifting_node; rewrite Heq; [reflexivity |].
    intros ? ? []. }
  assert (Hright : forall (key : string) (child : WingSegment),
             In (key, child) (_attached_segments root) ->
             contains "right" key = true ->
             lifting_on_side "right" child).
  { intros key child [H | []] Hkey. injection H as <- _.
    change (contains "right" "wing_left") with false in Hkey. discriminate. }
  assert (Hfound : on_side "left" (has_ID (parent_ID_of tail_input)) root).
  { apply (on_side_below _ _ root "wing_left" wing);
      [left; reflexivity | reflexivity |].
    apply on_side_here. unfold has_ID. rewrite Heq. reflexivity. }
  pose proof (attach_at_origin_on_side rectangle_rule root "tail_left"
                tail_input "left" "English" example_airfoils Hroot Hleft)
    as HL.
  pose proof (attach_at_origin_on_side rectangle_rule root "tail_right"
                tail_input "right" "English" example_airfoils Hroot Hright)
    as HR.
  cbv zeta in HL, HR. destruct HL as [_ HL]. destruct HR as [HR _].
  exists root, wing, tail. split; [exact Hfirst |]. split; [exact Hroot |].
  destruct (HL Hfound) as [(e & He & _) | (new & Hnew & Hsrc & Hreg)].
  - rewrite Hsecond in He. discriminate.
  - assert (new = tail) as ->
      by (rewrite Hsecond in Hnew; cbn [fst] in Hnew; congruence).
    split; [exact Hnew |]. split; [exact Hsrc |]. split; [exact Hreg |].
    apply HR. intros Hon.
    inversion Hon as [t Hhere | t key child Hin Hkey _]; subst t.
    + discriminate Hhere.
    + destruct Hin as [H | []]. injection H as <- _.
      change (contains "right" "wing_left") with false in Hkey. discriminate.
Defined.
